(** * AzusaBot: session lifecycle and message dispatch

    A shallow embedding of the bot's entry module (connection handling,
    message dispatch, command hot reload, the handler of the batches of
    events, the pairing), of [utils/commandLoader.js] and of
    [utils/messageHelper.js], together with the properties of the
    dispatch engine that the specification states and further properties
    of the code.

    Conventions of the embedding.
    - Values typed [string | null | undefined] by the transport library's
      protocol types are [option string]; JavaScript truthiness of such a
      value is [truthy].
    - Module-level variables ([commands], [processedMessagesCache],
      [reconnectAttempts], ...) are the fields of [BotState]; the code runs
      in the monad [M], which threads that state, accumulates the observable
      effects as a list of [Event]s and distinguishes a normal return, a
      thrown exception and [process.exit].
    - The transport socket, the file system and the dynamic [import] are
      external: they are records of answer functions handed to the code,
      as [sock] is in the source.
    - The transport library and the file system reject with error objects
      ([JsError]); the code of a command file, which anyone may write, can
      throw any value, [null] and [undefined] included ([Thrown]).
    - Strings are sequences of characters below 256.  Lengths, prefixes,
      slices, the split at spaces and comparisons are those of JavaScript
      on every string; [Js.trim] and [Js.toLowerCase] are those of
      JavaScript on strings of ASCII characters, which is what the
      statements about the text of a message assume. *)

From Stdlib Require Import ZArith QArith Qminmax Qpower Qround Lia List Ascii String.
From stdpp Require Import base option list gmap strings pretty.

Set Warnings "-register-all".

Local Open Scope string_scope.
Local Open Scope list_scope.

(** ** JavaScript string primitives used by the bot *)

Module Js.

(** [s.startsWith(p)] *)
Definition startsWith (s p : string) : bool := String.prefix p s.

(** [s.slice(n)] *)
Definition slice (s : string) (n : nat) : string :=
  String.substring n (String.length s - n) s.

(** [s.endsWith(p)] *)
Definition endsWith (s p : string) : bool :=
  let n := String.length s in
  let m := String.length p in
  if (m <=? n)%nat then String.eqb (String.substring (n - m) m s) p else false.

(** White space removed by [trim]: the ASCII part of the ECMAScript
    WhiteSpace and LineTerminator classes (the others, such as U+00A0 and
    U+FEFF, are not ASCII characters). *)
Definition isWhiteSpace (c : ascii) : bool :=
  match nat_of_ascii c with
  | 9 | 10 | 11 | 12 | 13 | 32 => true
  | _ => false
  end.

Fixpoint trimStart (s : string) : string :=
  match s with
  | String c r => if isWhiteSpace c then trimStart r else s
  | EmptyString => EmptyString
  end.

Fixpoint trimEnd (s : string) : string :=
  match s with
  | EmptyString => EmptyString
  | String c r =>
      match trimEnd r with
      | EmptyString => if isWhiteSpace c then EmptyString else String c EmptyString
      | r' => String c r'
      end
  end.

(** [s.trim()], for a string of ASCII characters. *)
Definition trim (s : string) : string := trimEnd (trimStart s).

(** [s.split(/ +/)]: the pieces between maximal runs of spaces.  [cur] is
    the piece being read, reversed; [inSep] tells that the previous
    character belonged to a separator. *)
Fixpoint splitSpaces_go (s : string) (cur : string) (inSep : bool) : list string :=
  match s with
  | EmptyString => [String.rev cur]
  | String c r =>
      if Ascii.eqb c " " then
        if inSep then splitSpaces_go r cur true
        else String.rev cur :: splitSpaces_go r EmptyString true
      else splitSpaces_go r (String c cur) false
  end.

Definition splitSpaces (s : string) : list string :=
  splitSpaces_go s EmptyString false.

(** The lower case of an ASCII character: the letters [A] to [Z] are
    folded, the other characters are kept. *)
Definition lowerAscii (c : ascii) : ascii :=
  let n := nat_of_ascii c in
  if ((65 <=? n) && (n <=? 90))%nat then ascii_of_nat (n + 32) else c.

(** [s.toLowerCase()], for a string of ASCII characters. *)
Fixpoint toLowerCase (s : string) : string :=
  match s with
  | EmptyString => EmptyString
  | String c r => String (lowerAscii c) (toLowerCase r)
  end.

(** Truthiness of a [string | null | undefined] value. *)
Definition truthy (v : option string) : bool :=
  match v with
  | Some s => negb (String.eqb s "")
  | None => false
  end.

(** [v || d] for a [string | null | undefined] value. *)
Definition orElse (v : option string) (d : string) : string :=
  match v with
  | Some s => if String.eqb s "" then d else s
  | None => d
  end.

(** A template literal renders [undefined] as the word itself. *)
Definition render (v : option string) : string :=
  match v with
  | Some s => s
  | None => "undefined"
  end.

End Js.

(** ** Data model *)

(** A thrown value other than [null] and [undefined]: an [Error], or any
    other value, of which the code reads [message] only ([None] when the
    value has no such property). *)
Record JsError := { errMessage : option string }.

Definition TypeError (what : string) : JsError := {| errMessage := Some what |}.

(** The two values whose properties cannot be read. *)
Inductive Nullish :=
| JsNull
| JsUndefined.

(** What a [catch] may receive. *)
Inductive Thrown :=
| ThrownNullish (v : Nullish)
| ThrownError (error : JsError).

Coercion ThrownError : JsError >-> Thrown.

(** The fault of reading [message] of [null] or [undefined]. *)
Definition nullishFault (v : Nullish) : JsError :=
  TypeError ("Cannot read properties of "
             ++ match v with JsNull => "null" | JsUndefined => "undefined" end
             ++ " (reading 'message')").

(** Content of a message payload: a JavaScript value built from strings and
    objects, as decoded from the wire. *)
Inductive JsVal :=
| JNull                                     (* null or undefined *)
| JStr (s : string)
| JObj (props : list (string * JsVal)).

(** [v.name] (also [v?.name]): [undefined] when [v] has no such property. *)
Fixpoint lookupProp (props : list (string * JsVal)) (name : string) : JsVal :=
  match props with
  | [] => JNull
  | (k, v) :: rest => if String.eqb k name then v else lookupProp rest name
  end.

Definition getProp (v : JsVal) (name : string) : JsVal :=
  match v with
  | JObj props => lookupProp props name
  | _ => JNull
  end.

Definition truthyVal (v : JsVal) : bool :=
  match v with
  | JNull => false
  | JStr s => negb (String.eqb s "")
  | JObj _ => true
  end.

(** [v || ""] *)
Definition orEmpty (v : JsVal) : JsVal := if truthyVal v then v else JStr "".

(** [msg.key] *)
Record MessageKey := {
  remoteJid : option string;
  id : option string
}.

(** An incoming message ([WAMessage]): the fields the bot reads.  The
    payload [message] is an object whose property order is the order of the
    list. *)
Module WA.
Record Message := {
  key : option MessageKey;
  message : option (list (string * JsVal));
  pushName : option string
}.
End WA.

(** The record [extractMessageInfo] returns. *)
Record MessageInfo := {
  body : JsVal;
  from : string;
  pushName : string;
  isGroup : bool;
  type : string
}.

(** The context object handed to a command: [from], [isGroup], [pushName],
    [type] (the logger and the store it also carries are not modelled). *)
Record Context := {
  ctxFrom : string;
  ctxIsGroup : bool;
  ctxPushName : string;
  ctxType : string
}.

(** The transport socket: for each call the bot awaits, whether it resolves
    ([None], or [inr] with the value) or rejects. *)
Record Sock := {
  readMessages : list MessageKey -> option JsError;
  groupMetadata : string -> JsError + option string;   (* [meta.subject] *)
  sendMessage : string -> string -> option JsError
}.

(** The [execute] property of a default export: a function, which answers
    [None] when it resolves and [Some thrown] when it throws or rejects
    with [thrown]; or a value that cannot be called, truthy (a string, an
    object, ...) or not (the property is absent, [null], [""], ...). *)
Inductive Execute :=
| NotCallable (truthy : bool)
| Callable (run : Sock -> WA.Message -> list string -> Context -> option Thrown).

(** The default export of a command file.  [aliases] is [None] when the
    property is absent or is not an array. *)
Record Command := {
  name : option string;
  aliases : option (list string);
  execute : Execute
}.

(** Truthiness of the [execute] property. *)
Definition truthyExecute (x : Execute) : bool :=
  match x with
  | NotCallable truthy => truthy
  | Callable _ => true
  end.

(** Callbacks handed to [setTimeout]. *)
Inductive Callback :=
| Reconnect                 (* [connectToWhatsApp()] after a transient close *)
| ForcedReconnect           (* ... after a fault of the connection handler *)
| ReloadCommands (filename : string)
| RestartWatcher.

(** Observable effects. *)
Inductive Event :=
| ELog (type message : string)                       (* [AzusaLog.log] *)
| EReadMessages (keys : list MessageKey)             (* [sock.readMessages] *)
| EGroupMetadata (jid : string)                      (* [sock.groupMetadata] *)
| EExecute (cmd : Command) (msg : WA.Message) (args : list string) (ctx : Context)
| ESendMessage (jid text : string)                   (* [sock.sendMessage] *)
| ESetTimeout (cb : Callback) (delay : Q).

(** Module-level variables of the entry module, the [processingFiles] set
    of the watcher, and the content of the session folder on disk. *)
Record BotState := {
  processedMessagesCache : gmap string Z;    (* identifier -> expiry, in ms *)
  commands : gmap string Command;
  reconnectAttempts : nat;
  processingFiles : list string;
  sessionFiles : list string
}.

Definition setCache (c : gmap string Z) (s : BotState) : BotState :=
  {| processedMessagesCache := c; commands := commands s;
     reconnectAttempts := reconnectAttempts s;
     processingFiles := processingFiles s; sessionFiles := sessionFiles s |}.

Definition setCommands (m : gmap string Command) (s : BotState) : BotState :=
  {| processedMessagesCache := processedMessagesCache s; commands := m;
     reconnectAttempts := reconnectAttempts s;
     processingFiles := processingFiles s; sessionFiles := sessionFiles s |}.

Definition setReconnectAttempts (n : nat) (s : BotState) : BotState :=
  {| processedMessagesCache := processedMessagesCache s; commands := commands s;
     reconnectAttempts := n;
     processingFiles := processingFiles s; sessionFiles := sessionFiles s |}.

Definition setProcessingFiles (l : list string) (s : BotState) : BotState :=
  {| processedMessagesCache := processedMessagesCache s; commands := commands s;
     reconnectAttempts := reconnectAttempts s;
     processingFiles := l; sessionFiles := sessionFiles s |}.

Definition setSessionFiles (l : list string) (s : BotState) : BotState :=
  {| processedMessagesCache := processedMessagesCache s; commands := commands s;
     reconnectAttempts := reconnectAttempts s;
     processingFiles := processingFiles s; sessionFiles := l |}.

(** ** The monad of the bot's code *)

(** How a piece of code ends. *)
Inductive Completion (A : Type) :=
| Return (a : A)
| Throw (e : Thrown)
| ProcessExit (code : Z).

Arguments Return {A} a.
Arguments Throw {A} e.
Arguments ProcessExit {A} code.

Definition M (A : Type) : Type := BotState -> BotState * list Event * Completion A.

Definition ret {A} (a : A) : M A := fun s => (s, [], Return a).

Definition bind {A B} (m : M A) (f : A -> M B) : M B :=
  fun s =>
    let '(s1, t1, r) := m s in
    match r with
    | Return a => let '(s2, t2, r2) := f a s1 in (s2, t1 ++ t2, r2)
    | Throw e => (s1, t1, Throw e)
    | ProcessExit c => (s1, t1, ProcessExit c)
    end.

Definition throw {A} (e : Thrown) : M A := fun s => (s, [], Throw e).

(** [process.exit(code)]: nothing runs after it, and no [catch] sees it. *)
Definition processExit {A} (code : Z) : M A := fun s => (s, [], ProcessExit code).

(** [try { m } catch (e) { h e }] *)
Definition tryCatch {A} (m : M A) (h : Thrown -> M A) : M A :=
  fun s =>
    let '(s1, t1, r) := m s in
    match r with
    | Throw e => let '(s2, t2, r2) := h e s1 in (s2, t1 ++ t2, r2)
    | _ => (s1, t1, r)
    end.

(** [try { m } finally { f }], for an [f] that neither throws nor returns. *)
Definition tryFinally {A} (m : M A) (f : M unit) : M A :=
  fun s =>
    let '(s1, t1, r) := m s in
    match r with
    | ProcessExit c => (s1, t1, ProcessExit c)
    | _ => let '(s2, t2, _) := f s1 in (s2, t1 ++ t2, r)
    end.

Definition emit (e : Event) : M unit := fun s => (s, [e], Return tt).
Definition get : M BotState := fun s => (s, [], Return s).
Definition modify (f : BotState -> BotState) : M unit := fun s => (f s, [], Return tt).

(** An awaited call of the transport: its effect is recorded, then it
    resolves or rejects. *)
Definition await (e : Event) (answer : option JsError) : M unit :=
  bind (emit e) (fun _ => match answer with None => ret tt | Some err => throw err end).

(** A run of [m] whose fault, if there is one, is answered instead of
    thrown. *)
Definition caught {A} (m : M A) : M (Thrown + A) :=
  tryCatch (bind m (fun a => ret (inr a))) (fun e => ret (inl e)).

Declare Scope bot_scope.
Delimit Scope bot_scope with bot.
Notation "'let*' x ':=' m 'in' k" := (bind m (fun x => k))
  (at level 10, x name, m at level 100, k at level 200) : bot_scope.
Notation "m ';;' k" := (bind m (fun _ => k))
  (at level 100, k at level 200, right associativity) : bot_scope.
Local Open Scope bot_scope.

(** ** The logger ([utils/AzusaLogger.js]) *)

Module AzusaLog.

(** [log({ type, message })]: one line on the console. *)
Definition log (type message : string) : M unit := emit (ELog type message).

(** [error.message], where [error] is what a [catch] received: reading a
    property of [null] or [undefined] throws. *)
Definition messageOf (error : Thrown) : M (option string) :=
  match error with
  | ThrownNullish v => throw (nullishFault v)
  | ThrownError e => ret (errMessage e)
  end.

(** [handleError(error, customMessage)]: a ["danger"] line, once
    [error.message] is read for it (the stack trace printed outside
    production is not modelled). *)
Definition handleError (error : Thrown) (customMessage : string) : M unit :=
  let* message := messageOf error in
  log "danger" (customMessage ++ ": " ++ Js.render message).

End AzusaLog.

(** ** The time-to-live cache ([node-cache]) of processed identifiers

    An entry stored at time [now] (milliseconds) lives until
    [now + stdTTL * 1000]; [has] answers [false] for an entry past its
    expiry.  The periodic sweep only removes entries [has] already
    ignores. *)

Module NodeCache.

Definition stdTTL : Z := 3600.

Definition has (now : Z) (c : gmap string Z) (k : string) : bool :=
  match c !! k with
  | Some t => negb (t <? now)%Z
  | None => false
  end.

Definition set (now : Z) (c : gmap string Z) (k : string) : gmap string Z :=
  <[k := (now + stdTTL * 1000)%Z]> c.

End NodeCache.

(** ** The command loader ([utils/commandLoader.js]) *)

(** What the loader finds on disk: whether the commands directory exists,
    whether creating it fails, its listing, and what importing each file
    gives: what the module throws, or its default export if it has one. *)
Record LoaderEnv := {
  existsSync : bool;
  mkdirSync : option JsError;
  readdirSync : JsError + list string;
  import : string -> Thrown + option Command
}.

(** [commands.set(alias, command.default)] for each alias. *)
Definition setAliases (cmd : Command) (als : list string)
    (cmds : gmap string Command) : gmap string Command :=
  foldl (fun m alias => <[alias := cmd]> m) cmds als.

(** One turn of the loop over the files.  In the block of the inner
    [try] the only step that can throw is the import, before the Map is
    touched; the handler of the inner [catch] throws when [handleError]
    does.  The default export is tested for a name and an [execute] that
    are truthy: whether [execute] can be called is not tested. *)
Definition loadCommandFile (env : LoaderEnv) (file : string)
    (cmds : gmap string Command) : M (gmap string Command) :=
  tryCatch
    (match import env file with
     | inl error => throw error
     | inr None =>
         AzusaLog.log "warning" ("Invalid command structure in " ++ file ++ ". Skipping...") ;;
         ret cmds
     | inr (Some cmd) =>
         match name cmd with
         | Some n =>
             if String.eqb n "" || negb (truthyExecute (execute cmd)) then
               AzusaLog.log "warning" ("Invalid command structure in " ++ file ++ ". Skipping...") ;;
               ret cmds
             else
               let cmds1 := <[n := cmd]> cmds in
               match aliases cmd with
               | Some als => ret (setAliases cmd als cmds1)
               | None => ret cmds1
               end
         | None =>
             AzusaLog.log "warning" ("Invalid command structure in " ++ file ++ ". Skipping...") ;;
             ret cmds
         end
     end)
    (fun error =>
       AzusaLog.handleError error ("Failed to load command file: " ++ file) ;;
       ret cmds).

(** The loop over the files.  The Map [commands] is one object, filled in
    place: a fault that leaves a turn (which has then set nothing) ends
    the loop with the Map as the turns before have left it.  The loop
    answers the Map, and the fault that ended it if one did. *)
Fixpoint loadCommandFiles (env : LoaderEnv) (files : list string)
    (cmds : gmap string Command) : M (gmap string Command * option Thrown) :=
  match files with
  | [] => ret (cmds, None)
  | file :: rest =>
      let* turn := caught (loadCommandFile env file cmds) in
      match turn with
      | inr cmds1 => loadCommandFiles env rest cmds1
      | inl error => ret (cmds, Some error)
      end
  end.

(** [loadCommands(commandsDir)].  The block of the outer [try] answers
    the Map as it is when the block is left, and the fault that left it if
    one did; the outer [catch] logs the fault, and the Map is returned in
    either case.  (The two lines about a missing directory print the
    resolved path in the source, the argument here.) *)
Definition loadCommands (env : LoaderEnv) (commandsDir : string) : M (gmap string Command) :=
  let* block :=
    tryCatch
      (if negb (existsSync env) then
         AzusaLog.log "warning" ("Commands directory not found: " ++ commandsDir) ;;
         match mkdirSync env with
         | Some error => throw error
         | None =>
             AzusaLog.log "info" ("Created commands directory: " ++ commandsDir) ;;
             ret (∅, None)
         end
       else
         match readdirSync env with
         | inl error => throw error
         | inr entries =>
             let files := filter (fun file => Js.endsWith file ".js" = true) entries in
             AzusaLog.log "info" ("Found " ++ pretty (length files) ++ " command files") ;;
             loadCommandFiles env files ∅
         end)
      (fun error => ret (∅, Some error)) in
  match block with
  | (commands, Some error) =>
      AzusaLog.handleError error "Error loading commands" ;;
      ret commands
  | (commands, None) => ret commands
  end.

(** ** Configuration ([config.js]) *)

Record Config := {
  commandPrefixes : list string;      (* [config.command.prefixes] *)
  commandsPath : string               (* [config.command.folderPath] *)
}.

(** The values of [config-example.js]. *)
Definition configExample : Config :=
  {| commandPrefixes := ["/"; "!"; "."]; commandsPath := "./commands" |}.

(** ** The message dispatcher *)

(** The [switch (type)] of [extractMessageInfo]. *)
Definition bodyOf (message : list (string * JsVal)) (type : string) : JsVal :=
  if String.eqb type "conversation" then
    orEmpty (lookupProp message "conversation")
  else if String.eqb type "imageMessage" then
    orEmpty (getProp (lookupProp message "imageMessage") "caption")
  else if String.eqb type "videoMessage" then
    orEmpty (getProp (lookupProp message "videoMessage") "caption")
  else if String.eqb type "extendedTextMessage" then
    orEmpty (getProp (lookupProp message "extendedTextMessage") "text")
  else if String.eqb type "buttonsResponseMessage" then
    orEmpty (getProp (lookupProp message "buttonsResponseMessage") "selectedButtonId")
  else if String.eqb type "listResponseMessage" then
    orEmpty (getProp (getProp (lookupProp message "listResponseMessage")
                        "singleSelectReply") "selectedRowId")
  else if String.eqb type "templateButtonReplyMessage" then
    orEmpty (getProp (lookupProp message "templateButtonReplyMessage") "selectedId")
  else JStr "".

(** The record returned when [msg], [msg.key] or [msg.key.remoteJid] is
    missing. *)
Definition noMessageInfo : MessageInfo :=
  {| body := JStr ""; from := ""; pushName := "Unknown"; isGroup := false; type := "" |}.

(** [extractMessageInfo(sock, msg)] *)
Definition extractMessageInfo (sock : Sock) (msg : option WA.Message) : M MessageInfo :=
  match msg with
  | None => ret noMessageInfo
  | Some m =>
      match WA.key m with
      | None => ret noMessageInfo
      | Some k =>
          if negb (Js.truthy (remoteJid k)) then ret noMessageInfo
          else
            let jid := Js.orElse (remoteJid k) "" in
            let isGroup := Js.endsWith jid "@g.us" in
            let from := jid in
            let pushName := Js.orElse (WA.pushName m) "User" in
            tryCatch
              (let message := default [] (WA.message m) in
               let type := Js.orElse (head (map fst message)) "" in
               let body := bodyOf message type in
               ret {| body := body; from := from; pushName := pushName;
                      isGroup := isGroup; type := type |})
              (fun err =>
                 AzusaLog.handleError err "Error extracting message info" ;;
                 ret {| body := JStr ""; from := from; pushName := pushName;
                        isGroup := isGroup; type := "" |})
      end
  end.

(** The group name shown in the log line of a command. *)
Definition resolveGroupName (sock : Sock) (isGroup : bool) (from : string) : M string :=
  if isGroup then
    tryCatch
      (emit (EGroupMetadata from) ;;
       match groupMetadata sock from with
       | inl err => throw err
       | inr subject => ret (Js.orElse subject "Unknown Group")
       end)
      (fun _ => ret "Unknown Group")
  else ret "".

(** Lines 385-414: the call of the command and the handling of its fault.
    The handler reads [err.message] twice: in [handleError], then for the
    notice. *)
Definition runCommand (sock : Sock) (m : WA.Message) (command : string)
    (commandFile : option Command) (args : list string) (info : MessageInfo) : M unit :=
  tryCatch
    (match commandFile with
     | None => throw (TypeError "Cannot read properties of undefined (reading 'execute')")
     | Some cmd =>
         match execute cmd with
         | NotCallable _ => throw (TypeError "commandFile.execute is not a function")
         | Callable run =>
             let ctx := {| ctxFrom := from info; ctxIsGroup := isGroup info;
                           ctxPushName := pushName info; ctxType := type info |} in
             emit (EExecute cmd m args ctx) ;;
             match run sock m args ctx with
             | None => ret tt
             | Some thrown => throw thrown
             end
         end
     end)
    (fun err =>
       AzusaLog.handleError err ("Error executing command " ++ command) ;;
       let* message := AzusaLog.messageOf err in
       let text := ("Error executing command: " ++ Js.orElse message "Unknown error")%string in
       tryCatch
         (await (ESendMessage (from info) text) (sendMessage sock (from info) text))
         (fun sendErr => AzusaLog.handleError sendErr "Failed to send error message")).

(** Lines 358-362: the prefix in use ([prefixes.find], then the test
    [if (usedPrefix)]), the tokens of the remainder, and the command name
    taken from their head ([args.shift()?.toLowerCase()]). *)
Definition parseCommand (prefixes : list string) (b : string) : option (string * list string) :=
  match List.find (fun p => Js.startsWith b p) prefixes with
  | Some usedPrefix =>
      if String.eqb usedPrefix "" then None
      else
        match Js.splitSpaces (Js.trim (Js.slice b (String.length usedPrefix))) with
        | first :: args => Some (Js.toLowerCase first, args)
        | [] => None
        end
  | None => None
  end.

(** Lines 357-416: the command of a message with a body.  A body that is
    not a string makes the call [body.startsWith] of the first prefix
    throw.  The registry is read once: a reload between the awaits of one
    dispatch is not modelled.  The colours of the log line are left out. *)
Definition processCommand (cfg : Config) (sock : Sock) (m : WA.Message)
    (info : MessageInfo) : M unit :=
  match body info with
  | JStr b =>
      match parseCommand (commandPrefixes cfg) b with
      | Some (command, args) =>
          let* st := get in
          if negb (String.eqb command "") && bool_decide (is_Some (commands st !! command)) then
            let* groupName := resolveGroupName sock (isGroup info) (from info) in
            let chatContext := if isGroup info then groupName else "Private Chat" in
            AzusaLog.log "success"
              (command ++ " from " ++ pushName info ++ " in " ++ chatContext) ;;
            let commandFile := commands st !! command in
            runCommand sock m command commandFile args info
          else ret tt
      | None => ret tt
      end
  | _ =>
      match commandPrefixes cfg with
      | [] => ret tt
      | _ :: _ => throw (TypeError "body.startsWith is not a function")
      end
  end.

(** Lines 345-416: what follows the insertion in the cache. *)
Definition acknowledgeAndDispatch (cfg : Config) (sock : Sock) (m : WA.Message)
    (k : MessageKey) : M unit :=
  await (EReadMessages [k]) (readMessages sock [k]) ;;
  let* info := extractMessageInfo sock (Some m) in
  if negb (truthyVal (body info)) || String.eqb (from info) "" then ret tt
  else processCommand cfg sock m info.

(** The synthetic identifiers of the transport library itself. *)
Definition isSyntheticId (messageId : string) : bool :=
  Js.startsWith messageId "BAE5" && (String.length messageId =? 16)%nat.

(** [handleIncomingMessage(sock, msg, chatUpdate)], run at time [now]
    (milliseconds, as [Date.now()]); [chatUpdate] is not used by the
    source. *)
Definition handleIncomingMessage (cfg : Config) (now : Z) (sock : Sock)
    (msg : option WA.Message) : M unit :=
  tryCatch
    (match msg with
     | None => ret tt
     | Some m =>
         match WA.message m with
         | None => ret tt
         | Some _ =>
             match WA.key m with
             | None => throw (TypeError "Cannot read properties of undefined (reading 'remoteJid')")
             | Some k =>
                 if bool_decide (remoteJid k = Some "status@broadcast") then ret tt
                 else
                   match id k with
                   | None =>
                       throw (TypeError "Cannot read properties of undefined (reading 'startsWith')")
                   | Some messageId =>
                       if isSyntheticId messageId then ret tt
                       else
                         let* st := get in
                         if NodeCache.has now (processedMessagesCache st) messageId then
                           AzusaLog.log "info" "Received Duplicate Message, Skipping!"
                         else
                           modify (fun st =>
                             setCache (NodeCache.set now (processedMessagesCache st) messageId) st) ;;
                           acknowledgeAndDispatch cfg sock m k
                   end
             end
         end
     end)
    (fun err => AzusaLog.handleError err "Error processing message").

(** ** The connection manager *)

Definition MAX_RECONNECT_ATTEMPTS : nat := 10.
Definition MAX_RECONNECT_DELAY : Q := 60000.

(** [Math.min(1000 * Math.pow(1.5, attempts), MAX_RECONNECT_DELAY)], in
    milliseconds.  For the values of [attempts] the guard of the handler
    lets through (1 to 10) the product is a binary fraction below 2^53, so
    the double the code computes is this rational exactly. *)
Definition reconnectDelay (attempts : nat) : Q :=
  Qmin (1000 * (3 # 2) ^ Z.of_nat attempts) MAX_RECONNECT_DELAY.

(** [x.toFixed(1)] for a non-negative [x]: the nearest tenth, ties upwards. *)
Definition toFixed1 (x : Q) : string :=
  let n := Qfloor (x * 10 + (1 # 2)) in
  pretty (n / 10)%Z ++ "." ++ pretty (n mod 10)%Z.

(** What the session folder answers: whether listing it fails, and whether
    removing a given file fails. *)
Record SessionFs := {
  readdir : option JsError;
  unlink : string -> option JsError
}.

(** The loop of [removeCreds]: the files are removed in order, up to the
    first failure. *)
Fixpoint unlinkAll (fs : SessionFs) (files : list string) : M unit :=
  match files with
  | [] => ret tt
  | file :: rest =>
      match unlink fs file with
      | Some err => throw err
      | None =>
          modify (fun st =>
            setSessionFiles (List.filter (fun f => negb (String.eqb f file)) (sessionFiles st)) st) ;;
          unlinkAll fs rest
      end
  end.

(** [removeCreds()] *)
Definition removeCreds (fs : SessionFs) : M bool :=
  tryCatch
    (match readdir fs with
     | Some err => throw err
     | None =>
         let* st := get in
         unlinkAll fs (sessionFiles st) ;;
         ret true
     end)
    (fun err =>
       AzusaLog.handleError err "Failed to remove credentials" ;;
       ret false).

(** A [connection.update] event: [connection], and from [lastDisconnect]
    the two values the handler reads through optional chaining,
    [error.output.statusCode] and [error.message]. *)
Record ConnectionUpdate := {
  connection : option string;
  statusCode : option Z;
  reason : option string
}.

(** [statusCode || 500] *)
Definition statusOr500 (c : option Z) : Z :=
  match c with
  | Some n => if (n =? 0)%Z then 500%Z else n
  | None => 500%Z
  end.

(** The close codes after which the session cannot be resumed.
    [loggedOut] is [DisconnectReason.loggedOut] of the transport library. *)
Definition isPermanentClose (loggedOut code : Z) : bool :=
  (code =? loggedOut)%Z || (code =? 401)%Z || (code =? 403)%Z.

(** [handleConnectionUpdate(sock, update)] *)
Definition handleConnectionUpdate (loggedOut : Z) (fs : SessionFs) (sock : Sock)
    (update : option ConnectionUpdate) : M unit :=
  tryCatch
    (let conn := update ≫= connection in
     if bool_decide (conn = Some "close") then
       let code := statusOr500 (update ≫= statusCode) in
       let why := Js.orElse (update ≫= reason) "Unknown" in
       AzusaLog.log "danger"
         ("Connection closed. Status: " ++ pretty code ++ ". Reason: " ++ why) ;;
       if isPermanentClose loggedOut code then
         AzusaLog.log "error" "Session has been terminated. Please re-authenticate." ;;
         let* credsRemoved := removeCreds fs in
         (if credsRemoved : bool then AzusaLog.log "info" "Credentials removed successfully."
          else ret tt) ;;
         processExit 1
       else
         let* st := get in
         if (reconnectAttempts st <? MAX_RECONNECT_ATTEMPTS)%nat then
           let attempts := S (reconnectAttempts st) in
           modify (setReconnectAttempts attempts) ;;
           let delay := reconnectDelay attempts in
           AzusaLog.log "warning"
             ("Reconnecting in " ++ toFixed1 (delay / 1000) ++ "s (attempt "
              ++ pretty attempts ++ "/" ++ pretty MAX_RECONNECT_ATTEMPTS ++ ")...") ;;
           emit (ESetTimeout Reconnect delay)
         else
           AzusaLog.log "danger" "Maximum reconnection attempts exceeded. Exiting process." ;;
           processExit 1
     else if bool_decide (conn = Some "connecting") then
       AzusaLog.log "info" "Connecting to WhatsApp..."
     else if bool_decide (conn = Some "open") then
       modify (setReconnectAttempts 0) ;;
       AzusaLog.log "success" "Bot successfully connected to WhatsApp."
     else ret tt)
    (fun err =>
       AzusaLog.handleError err "Error handling connection update" ;;
       emit (ESetTimeout ForcedReconnect 5000)).

(** ** Loading and hot reload of the commands *)

(** [initializeCommands()] *)
Definition initializeCommands (cfg : Config) (env : LoaderEnv) : M unit :=
  tryCatch
    (let* loaded := loadCommands env (commandsPath cfg) in
     modify (setCommands loaded) ;;
     AzusaLog.log "success" ("Successfully loaded " ++ pretty (size loaded) ++ " commands."))
    (fun err =>
       AzusaLog.handleError err "Failed to load initial commands" ;;
       modify (setCommands ∅)).

(** The callback of [fs.watch] in [setupCommandWatcher]. *)
Definition onCommandsChange (filename : option string) : M unit :=
  match filename with
  | Some f =>
      if negb (String.eqb f "") && Js.endsWith f ".js" then
        let* st := get in
        if bool_decide (f ∈ processingFiles st) then ret tt
        else
          modify (fun st => setProcessingFiles (f :: processingFiles st) st) ;;
          AzusaLog.log "info" ("Detected change in " ++ f ++ ", reloading commands...") ;;
          emit (ESetTimeout (ReloadCommands f) 500)
      else ret tt
  | None => ret tt
  end.

(** The debounced reload, run when the timer of [onCommandsChange] fires;
    [env] is the commands directory as it is then. *)
Definition reloadCommands (cfg : Config) (env : LoaderEnv) (filename : string) : M unit :=
  tryFinally
    (tryCatch
       (let* newCommands := loadCommands env (commandsPath cfg) in
        modify (setCommands newCommands) ;;
        AzusaLog.log "success"
          ("Commands reloaded successfully. Total: " ++ pretty (size newCommands)))
       (fun err => AzusaLog.handleError err "Error reloading commands"))
    (modify (fun st =>
       setProcessingFiles
         (List.filter (fun f => negb (String.eqb f filename)) (processingFiles st)) st)).

(** ** Directories *)

(** What the file system answers about a directory: whether it exists,
    and whether creating it fails. *)
Record DirFs := {
  dirExists : bool;
  dirMkdir : option JsError
}.

(** [ensureDirectoryExists(directory)] *)
Definition ensureDirectoryExists (fs : DirFs) (directory : string) : M unit :=
  tryCatch
    (if negb (dirExists fs) then
       match dirMkdir fs with
       | Some err => throw err
       | None => AzusaLog.log "info" ("Created directory: " ++ directory)
       end
     else ret tt)
    (fun err =>
       AzusaLog.handleError err ("Failed to create directory: " ++ directory) ;;
       throw err).

(** ** The cache of group metadata ([groupCache])

    A [node-cache] with a time to live of 300 seconds, which holds the
    metadata object of a group under its identifier.  An entry past its
    expiry is not returned. *)

Module GroupCache.

Definition stdTTL : Z := 300.

(** The cache maps an identifier to an expiry (ms) and the metadata. *)

Definition get (now : Z) (c : gmap string (Z * JsVal)) (k : string) : option JsVal :=
  match c !! k with
  | Some (expiry, v) => if (expiry <? now)%Z then None else Some v
  | None => None
  end.

Definition set (now : Z) (c : gmap string (Z * JsVal)) (k : string) (v : JsVal)
    : gmap string (Z * JsVal) :=
  <[k := ((now + stdTTL * 1000)%Z, v)]> c.

Definition del (c : gmap string (Z * JsVal)) (k : string) : gmap string (Z * JsVal) :=
  delete k c.

End GroupCache.

(** A [groups.update] or [group-participants.update] event: the handlers
    read [event.id] only. *)
Record GroupEvent := { groupId : option string }.

(** The object [sock.groupMetadata(jid)] resolves with, of which the
    socket of the model knows the subject. *)
Definition groupMetadataObject (sock : Sock) (jid : string) : JsError + JsVal :=
  match groupMetadata sock jid with
  | inl err => inl err
  | inr subject =>
      inr (JObj [("subject", match subject with Some s => JStr s | None => JNull end)])
  end.

(** [handleGroupUpdate(sock, event)], run at time [now].  The cache is
    handed in and out: in the source [groupCache.set] is the last step of
    the inner [try] and [groupCache.del] the last step of its handler, so
    a handler starts from the cache its block started from. *)
Definition handleGroupUpdate (sock : Sock) (now : Z) (event : option GroupEvent)
    (groupCache : gmap string (Z * JsVal)) : M (gmap string (Z * JsVal)) :=
  tryCatch
    (match event with
     | None => ret groupCache
     | Some ev =>
         if negb (Js.truthy (groupId ev)) then ret groupCache
         else
           let jid := Js.orElse (groupId ev) "" in
           tryCatch
             (emit (EGroupMetadata jid) ;;
              match groupMetadataObject sock jid with
              | inl err => throw err
              | inr metadata =>
                  if truthyVal metadata then ret (GroupCache.set now groupCache jid metadata)
                  else ret groupCache
              end)
             (fun err =>
                AzusaLog.handleError err ("Failed to update metadata for group " ++ jid) ;;
                (* Remove potentially corrupted cache entry *)
                ret (GroupCache.del groupCache jid))
     end)
    (fun err =>
       AzusaLog.handleError err "Error handling group update" ;;
       ret groupCache).

(** [handleGroupParticipantUpdate(sock, event)], run at time [now]. *)
Definition handleGroupParticipantUpdate (sock : Sock) (now : Z) (event : option GroupEvent)
    (groupCache : gmap string (Z * JsVal)) : M (gmap string (Z * JsVal)) :=
  tryCatch
    (match event with
     | None => ret groupCache
     | Some ev =>
         if negb (Js.truthy (groupId ev)) then ret groupCache
         else
           let jid := Js.orElse (groupId ev) "" in
           tryCatch
             (emit (EGroupMetadata jid) ;;
              match groupMetadataObject sock jid with
              | inl err => throw err
              | inr metadata =>
                  if truthyVal metadata then ret (GroupCache.set now groupCache jid metadata)
                  else ret groupCache
              end)
             (fun err =>
                AzusaLog.handleError err ("Failed to update participants for group " ++ jid) ;;
                (* Don't delete the cache here, just log the error *)
                ret groupCache)
     end)
    (fun err =>
       AzusaLog.handleError err "Error handling group participant update" ;;
       ret groupCache).

(** The [cachedGroupMetadata] callback given to the socket: what the
    transport library finds in the cache at time [now] ([JNull] for
    [undefined]). *)
Definition cachedGroupMetadata (now : Z) (groupCache : gmap string (Z * JsVal)) (jid : string)
    : M JsVal :=
  tryCatch
    (ret (default JNull (GroupCache.get now groupCache jid)))
    (fun err =>
       AzusaLog.handleError err "Error retrieving cached group metadata" ;;
       ret JNull).

(** ** The batch of events ([sock.ev.process]) *)

(** The [messages.upsert] event.  Each message comes with the time at
    which its turn of the loop comes. *)
Module ChatUpdate.
Record t := {
  messages : option (list (Z * option WA.Message));
  type : option string
}.
End ChatUpdate.

(** The loop over [chatUpdate.messages], with the set of identifiers
    already met in the batch.  An entry that is not an object makes
    [msg.key] throw. *)
Fixpoint upsertLoop (cfg : Config) (sock : Sock) (msgs : list (Z * option WA.Message))
    (processedMessageIds : gset string) : M unit :=
  match msgs with
  | [] => ret tt
  | (now, msg) :: rest =>
      match msg with
      | None => throw (TypeError "Cannot read properties of undefined (reading 'key')")
      | Some m =>
          match WA.key m ≫= id with
          | Some i =>
              if String.eqb i "" then
                handleIncomingMessage cfg now sock msg ;;
                upsertLoop cfg sock rest processedMessageIds
              else if bool_decide (i ∈ processedMessageIds) then
                upsertLoop cfg sock rest processedMessageIds
              else
                handleIncomingMessage cfg now sock msg ;;
                upsertLoop cfg sock rest ({[i]} ∪ processedMessageIds)
          | None =>
              handleIncomingMessage cfg now sock msg ;;
              upsertLoop cfg sock rest processedMessageIds
          end
      end
  end.

(** The [messages.upsert] part of the handler.  The answer tells whether
    the handler goes on with the other events of the batch: the [return]
    of the first test leaves the handler. *)
Definition onMessagesUpsert (cfg : Config) (sock : Sock) (chatUpdate : ChatUpdate.t)
    : M bool :=
  tryCatch
    (match ChatUpdate.messages chatUpdate with
     | Some ((_ :: _) as msgs) =>
         if bool_decide (ChatUpdate.type chatUpdate = Some "notify") then
           upsertLoop cfg sock msgs ∅ ;;
           ret true
         else ret false
     | _ => ret false
     end)
    (fun err =>
       AzusaLog.handleError err "Error in messages.upsert handler" ;;
       ret true).

(** The loop over the [groups.update] events. *)
Fixpoint groupsLoop (sock : Sock) (groupEvents : list (Z * option GroupEvent))
    (groupCache : gmap string (Z * JsVal)) : M (gmap string (Z * JsVal)) :=
  match groupEvents with
  | [] => ret groupCache
  | (now, event) :: rest =>
      let* groupCache1 := handleGroupUpdate sock now event groupCache in
      groupsLoop sock rest groupCache1
  end.

(** The events of one batch, as typed by the transport library: a field
    is [None] when the batch has no event of that name. *)
Record Events := {
  credsUpdate : bool;
  messagesUpsert : option ChatUpdate.t;
  groupsUpdate : option (list (Z * option GroupEvent));
  groupParticipantsUpdate : option (Z * GroupEvent);
  connectionUpdate : option ConnectionUpdate
}.

(** The handler given to [sock.ev.process].  [saveCreds] tells whether
    saving the credentials fails.  The handlers of the group events never
    throw, so the cache their [catch] starts from is of no consequence.
    [handleConnectionUpdate] is called last and not awaited. *)
Definition processEvents (cfg : Config) (loggedOut : Z) (fs : SessionFs) (sock : Sock)
    (saveCreds : option JsError) (events : Events) (groupCache : gmap string (Z * JsVal))
    : M (gmap string (Z * JsVal)) :=
  (if credsUpdate events then
     tryCatch
       (match saveCreds with
        | Some err => throw err
        | None => ret tt
        end)
       (fun err => AzusaLog.handleError err "Failed to save credentials")
   else ret tt) ;;
  let* goOn :=
    match messagesUpsert events with
    | Some chatUpdate => onMessagesUpsert cfg sock chatUpdate
    | None => ret true
    end in
  if negb goOn then ret groupCache
  else
    let* groupCache1 :=
      match groupsUpdate events with
      | Some groupEvents =>
          tryCatch
            (groupsLoop sock groupEvents groupCache)
            (fun err =>
               AzusaLog.handleError err "Error in groups.update handler" ;;
               ret groupCache)
      | None => ret groupCache
      end in
    let* groupCache2 :=
      match groupParticipantsUpdate events with
      | Some (now, event) =>
          tryCatch
            (handleGroupParticipantUpdate sock now (Some event) groupCache1)
            (fun err =>
               AzusaLog.handleError err "Error in group-participants.update handler" ;;
               ret groupCache1)
      | None => ret groupCache1
      end in
    match connectionUpdate events with
    | Some update =>
        handleConnectionUpdate loggedOut fs sock (Some update) ;;
        ret groupCache2
    | None => ret groupCache2
    end.

(** ** The pairing code ([setupPairingCode]) *)

(** [s.replace(/[^0-9]/g, "")] *)
Fixpoint digitsOnly (s : string) : string :=
  match s with
  | EmptyString => EmptyString
  | String c r =>
      if ((48 <=? nat_of_ascii c) && (nat_of_ascii c <=? 57))%nat
      then String c (digitsOnly r) else digitsOnly r
  end.

(** The characters [.] does not match: the ASCII line terminators. *)
Definition isLineTerminator (c : ascii) : bool :=
  match nat_of_ascii c with
  | 10 | 13 => true
  | _ => false
  end.

(** The matches of [/.{1,4}/g]: from left to right, the longest runs of at
    most four characters other than line terminators.  [cur] is the run
    being read, reversed. *)
Fixpoint matchChunks_go (s : string) (cur : string) : list string :=
  match s with
  | EmptyString => if String.eqb cur "" then [] else [String.rev cur]
  | String c r =>
      if isLineTerminator c then
        if String.eqb cur "" then matchChunks_go r EmptyString
        else String.rev cur :: matchChunks_go r EmptyString
      else
        let cur1 := String c cur in
        if (String.length cur1 =? 4)%nat then String.rev cur1 :: matchChunks_go r EmptyString
        else matchChunks_go r cur1
  end.

Definition matchChunks (s : string) : list string := matchChunks_go s EmptyString.

(** [pairingCode.match(/.{1,4}/g).join("-")]; [match] answers [null] when
    nothing matches, and the call of [join] throws. *)
Definition formatPairingCode (pairingCode : string) : JsError + string :=
  match matchChunks pairingCode with
  | [] => inl (TypeError "Cannot read properties of null (reading 'join')")
  | chunks => inr (String.concat "-" chunks)
  end.

(** What the pairing needs from outside: the line typed at the prompt,
    what [parsePhoneNumber] makes of a number (a fault, or [isValid()] and
    [number]), and what [sock.requestPairingCode] answers. *)
Record PairingEnv := {
  typed : string;
  parsePhoneNumber : string -> JsError + (bool * string);
  requestPairingCode : string -> JsError + option string
}.

(** [setupPairingCode(sock)].  Closing the prompt has no effect in the
    model. *)
Definition setupPairingCode (env : PairingEnv) : M unit :=
  tryCatch
    (let rawPhoneNumber := digitsOnly (typed env) in
     let* number :=
       tryCatch
         (match parsePhoneNumber env ("+" ++ rawPhoneNumber) with
          | inl err => throw err
          | inr (valid, number) =>
              if negb valid then throw {| errMessage := Some "Invalid phone number format" |}
              else ret number
          end)
         (fun _ =>
            AzusaLog.log "error"
              "Invalid number. Start with your country's WhatsApp code, e.g., 628xxx" ;;
            processExit 1) in
     AzusaLog.log "info" ("Bot Number: " ++ number) ;;
     tryCatch
       (match requestPairingCode env rawPhoneNumber with
        | inl err => throw err
        | inr pairingCode =>
            if negb (Js.truthy pairingCode) then
              throw {| errMessage := Some "Failed to get pairing code" |}
            else
              match formatPairingCode (Js.orElse pairingCode "") with
              | inl err => throw err
              | inr shown => AzusaLog.log "info" ("Pairing Code: " ++ shown)
              end
        end)
       (fun err =>
          AzusaLog.handleError err "Error requesting pairing code" ;;
          processExit 1))
    (fun err =>
       AzusaLog.handleError err "Error in pairing process" ;;
       processExit 1).

(** ** The message helper ([utils/messageHelper.js]) *)

Module MessageHelper.

(** [v.name], which throws when [v] is [null] or [undefined]. *)
Definition getPropStrict (v : JsVal) (name : string) : JsError + JsVal :=
  match v with
  | JNull =>
      inl (TypeError ("Cannot read properties of undefined (reading '" ++ name ++ "')"))
  | _ => inr (getProp v name)
  end.

(** [getMessageBody(msg)] *)
Definition getMessageBody (msg : WA.Message) : JsError + JsVal :=
  match WA.message msg with
  | None => inr (JStr "")
  | Some message =>
      let type := Js.orElse (head (map fst message)) "" in
      if String.eqb type "conversation" then
        inr (lookupProp message "conversation")
      else if String.eqb type "imageMessage" then
        getPropStrict (lookupProp message "imageMessage") "caption"
      else if String.eqb type "videoMessage" then
        getPropStrict (lookupProp message "videoMessage") "caption"
      else if String.eqb type "extendedTextMessage" then
        getPropStrict (lookupProp message "extendedTextMessage") "text"
      else if String.eqb type "buttonsResponseMessage" then
        getPropStrict (lookupProp message "buttonsResponseMessage") "selectedButtonId"
      else if String.eqb type "listResponseMessage" then
        match getPropStrict (lookupProp message "listResponseMessage") "singleSelectReply" with
        | inl err => inl err
        | inr reply => getPropStrict reply "selectedRowId"
        end
      else if String.eqb type "templateButtonReplyMessage" then
        getPropStrict (lookupProp message "templateButtonReplyMessage") "selectedId"
      else inr (JStr "")
  end.

(** [jid.split('@')[0]]: what comes before the first ["@"]. *)
Fixpoint beforeAt (jid : string) : string :=
  match jid with
  | EmptyString => EmptyString
  | String c r => if Ascii.eqb c "@" then EmptyString else String c (beforeAt r)
  end.

(** [isAdmin(jid, adminList)] *)
Definition isAdmin (jid : string) (adminList : list string) : bool :=
  let number := beforeAt jid in
  existsb (String.eqb number) adminList.

End MessageHelper.

(** * Vocabulary of the statements *)

(** ** Runs and their traces *)

Definition stateOf {A} (x : BotState * list Event * Completion A) : BotState := x.1.1.
Definition traceOf {A} (x : BotState * list Event * Completion A) : list Event := x.1.2.
Definition resultOf {A} (x : BotState * list Event * Completion A) : Completion A := x.2.

(** Events that are neither a call of a command, nor a message sent, nor a
    timer. *)
Definition isQuiet (e : Event) : bool :=
  match e with
  | ELog _ _ | EReadMessages _ | EGroupMetadata _ => true
  | _ => false
  end.

Definition isExecute (e : Event) : bool :=
  match e with EExecute _ _ _ _ => true | _ => false end.

Definition isSend (e : Event) : bool :=
  match e with ESendMessage _ _ => true | _ => false end.

Definition isRead (e : Event) : bool :=
  match e with EReadMessages _ => true | _ => false end.

Definition isTimer (e : Event) : bool :=
  match e with ESetTimeout _ _ => true | _ => false end.

(** A line of [AzusaLog.handleError]. *)
Definition isErrorLog (e : Event) : bool :=
  match e with ELog type _ => String.eqb type "danger" | _ => false end.

Definition isWarning (e : Event) : bool :=
  match e with ELog type _ => String.eqb type "warning" | _ => false end.

(** The number of events of a kind in a trace. *)
Definition count (p : Event -> bool) (t : list Event) : nat :=
  length (List.filter p t).

(** The timers set during a run. *)
Definition timersOf (t : list Event) : list Event := List.filter isTimer t.

(** ** Text *)


(** ** Messages *)

(** A message that reaches the look-up in the cache: it has a payload and
    a key, is not a status broadcast, and its identifier [i] is not a
    synthetic one. *)
Definition passesFilters (m : WA.Message) (k : MessageKey) (i : string) : Prop :=
  WA.message m <> None
  /\ WA.key m = Some k
  /\ remoteJid k <> Some "status@broadcast"
  /\ id k = Some i
  /\ isSyntheticId i = false.

(** A message stopped by one of the first three tests. *)
Definition rejected (msg : option WA.Message) : Prop :=
  match msg with
  | None => True
  | Some m =>
      WA.message m = None
      \/ exists k, WA.key m = Some k
           /\ (remoteJid k = Some "status@broadcast"
               \/ exists i, id k = Some i /\ isSyntheticId i = true)
  end.

(** A message with a payload but without a key, or without an identifier:
    reading the missing property throws. *)
Definition malformed (m : WA.Message) : Prop :=
  WA.message m <> None
  /\ match WA.key m with
     | None => True
     | Some k => remoteJid k <> Some "status@broadcast" /\ id k = None
     end.

(** A text message: its body is its text. *)
Definition textMessage (k : MessageKey) (pn : option string) (b : string) : WA.Message :=
  {| WA.key := Some k; WA.message := Some [("conversation", JStr b)]; WA.pushName := pn |}.

(** The message kinds [extractMessageInfo] reads a body from. *)
Definition recognizedTypes : list string :=
  ["conversation"; "imageMessage"; "videoMessage"; "extendedTextMessage";
   "buttonsResponseMessage"; "listResponseMessage"; "templateButtonReplyMessage"].

(** The record extracted from a message of the chat [jid]. *)
Definition infoOf (m : WA.Message) (jid : string) : MessageInfo :=
  let payload := default [] (WA.message m) in
  let ty := Js.orElse (head (map fst payload)) "" in
  {| body := bodyOf payload ty; from := jid;
     pushName := Js.orElse (WA.pushName m) "User";
     isGroup := Js.endsWith jid "@g.us"; type := ty |}.

(** The context handed to the command of a message with that record. *)
Definition contextOf (info : MessageInfo) : Context :=
  {| ctxFrom := from info; ctxIsGroup := isGroup info;
     ctxPushName := pushName info; ctxType := type info |}.

(** The time to live of an entry of the cache, in milliseconds. *)
Definition ttlMs : Z := (NodeCache.stdTTL * 1000)%Z.

(** ** Traces of the dispatcher *)

Definition duplicateLog : Event := ELog "info" "Received Duplicate Message, Skipping!".

Definition processingError (err : JsError) : Event :=
  ELog "danger" ("Error processing message: " ++ Js.render (errMessage err)).

(** The report of a fault of a command: the line of the logger, the notice
    sent to the chat, and the line logged when sending it fails. *)
Definition errorReport (sock : Sock) (command chat : string) (err : JsError) : list Event :=
  let text := ("Error executing command: " ++ Js.orElse (errMessage err) "Unknown error")%string in
  [ELog "danger" ("Error executing command " ++ command ++ ": " ++ Js.render (errMessage err));
   ESendMessage chat text]
  ++ match sendMessage sock chat text with
     | None => []
     | Some sendErr =>
         [ELog "danger" ("Failed to send error message: " ++ Js.render (errMessage sendErr))]
     end.

(** The [null] or [undefined] thrown by the command of a call, if it
    throws one: on it [handleError] fails in the [catch] of [runCommand],
    nothing is reported, and the fault of [handleError] goes to the outer
    [catch] of [handleIncomingMessage]. *)
Definition callFault (sock : Sock) (m : WA.Message) (commandFile : option Command)
    (args : list string) (info : MessageInfo) : option Nullish :=
  match commandFile with
  | Some cmd =>
      match execute cmd with
      | Callable run =>
          match run sock m args (contextOf info) with
          | Some (ThrownNullish v) => Some v
          | _ => None
          end
      | NotCallable _ => None
      end
  | None => None
  end.

(** The events of [runCommand]. *)
Definition runTrace (sock : Sock) (m : WA.Message) (command : string)
    (commandFile : option Command) (args : list string) (info : MessageInfo) : list Event :=
  match commandFile with
  | None =>
      errorReport sock command (from info)
        (TypeError "Cannot read properties of undefined (reading 'execute')")
  | Some cmd =>
      match execute cmd with
      | NotCallable _ =>
          errorReport sock command (from info) (TypeError "commandFile.execute is not a function")
      | Callable run =>
          EExecute cmd m args (contextOf info)
          :: match run sock m args (contextOf info) with
             | Some (ThrownError err) => errorReport sock command (from info) err
             | _ => []
             end
      end
  end.

(** How [runCommand] ends. *)
Definition runResult (sock : Sock) (m : WA.Message) (commandFile : option Command)
    (args : list string) (info : MessageInfo) : Completion unit :=
  match callFault sock m commandFile args info with
  | Some v => Throw (nullishFault v)
  | None => Return tt
  end.

(** The events of a delivery from the call of its command on: those of
    [runCommand], then the line of the outer [catch] when the fault of
    [handleError] reaches it. *)
Definition callTrace (sock : Sock) (m : WA.Message) (command : string)
    (commandFile : option Command) (args : list string) (info : MessageInfo) : list Event :=
  runTrace sock m command commandFile args info
  ++ match callFault sock m commandFile args info with
     | Some v => [processingError (nullishFault v)]
     | None => []
     end.

(** The body of a message names a command of the registry: what the
    dispatcher has found when it calls one. *)
Definition namesCommand (cfg : Config) (m : WA.Message) (k : MessageKey) (s : BotState)
    (jid b command : string) (args : list string) (cmd : Command) : Prop :=
  remoteJid k = Some jid /\ jid <> ""
  /\ body (infoOf m jid) = JStr b
  /\ parseCommand (commandPrefixes cfg) b = Some (command, args)
  /\ command <> ""
  /\ commands s !! command = Some cmd.

(** The trace [t] of a delivery that reaches a command: quiet events, then
    the call of the command registered under the name parsed from the
    body. *)
Definition dispatchedTo (cfg : Config) (sock : Sock) (m : WA.Message) (s : BotState)
    (t : list Event) : Prop :=
  exists pre b command args cmd k jid,
    WA.key m = Some k /\ remoteJid k = Some jid /\ jid <> ""
    /\ body (infoOf m jid) = JStr b
    /\ parseCommand (commandPrefixes cfg) b = Some (command, args)
    /\ command <> ""
    /\ commands s !! command = Some cmd
    /\ forallb isQuiet pre = true
    /\ t = pre ++ callTrace sock m command (Some cmd) args (infoOf m jid).

(** ** The registry a directory gives *)

(** A default export that passes the test of the loader: its name and its
    [execute] are truthy. *)
Definition isValid (cmd : Command) : bool :=
  Js.truthy (name cmd) && truthyExecute (execute cmd).

(** A default export whose [execute] is a function. *)
Definition isCallable (cmd : Command) : bool :=
  match execute cmd with
  | Callable _ => true
  | NotCallable _ => false
  end.

(** The command a file contributes, if any. *)
Definition unitOf (env : LoaderEnv) (file : string) : option Command :=
  match import env file with
  | inr (Some cmd) => if isValid cmd then Some cmd else None
  | _ => None
  end.

(** The keys of a command: its name, then its aliases. *)
Definition keysOf (cmd : Command) : list string :=
  match name cmd with
  | Some n => n :: default [] (aliases cmd)
  | None => []
  end.

(** The last command of the list that has [k] among its keys. *)
Fixpoint lastClaimant (k : string) (units : list Command) : option Command :=
  match units with
  | [] => None
  | u :: rest =>
      match lastClaimant k rest with
      | Some c => Some c
      | None => if bool_decide (k ∈ keysOf u) then Some u else None
      end
  end.

(** What the turn of a file logs.  (When the import rejects with [null]
    or [undefined] the turn logs nothing: [handleError] fails.) *)
Definition fileLog (env : LoaderEnv) (file : string) : list Event :=
  match import env file with
  | inl (ThrownError error) =>
      [ELog "danger" ("Failed to load command file: " ++ file ++ ": "
                      ++ Js.render (errMessage error))]
  | inl (ThrownNullish _) => []
  | inr (Some cmd) =>
      if isValid cmd then []
      else [ELog "warning" ("Invalid command structure in " ++ file ++ ". Skipping...")]
  | inr None => [ELog "warning" ("Invalid command structure in " ++ file ++ ". Skipping...")]
  end.

(** The map after a valid command has been installed. *)
Definition install (cmd : Command) (cmds : gmap string Command) : gmap string Command :=
  match name cmd with
  | Some n => setAliases cmd (default [] (aliases cmd)) (<[n := cmd]> cmds)
  | None => cmds
  end.

Definition installFile (env : LoaderEnv) (cmds : gmap string Command) (file : string)
    : gmap string Command :=
  match unitOf env file with
  | Some cmd => install cmd cmds
  | None => cmds
  end.

(** The [null] or [undefined] that ends the loop over the files, if one
    does: the first that an import rejects with. *)
Fixpoint loopFault (env : LoaderEnv) (files : list string) : option Nullish :=
  match files with
  | [] => None
  | file :: rest =>
      match import env file with
      | inl (ThrownNullish v) => Some v
      | _ => loopFault env rest
      end
  end.

(** The files whose turn comes and ends: those before the first whose
    import rejects with [null] or [undefined]. *)
Fixpoint reached (env : LoaderEnv) (files : list string) : list string :=
  match files with
  | [] => []
  | file :: rest =>
      match import env file with
      | inl (ThrownNullish _) => []
      | _ => file :: reached env rest
      end
  end.

(** The line of the outer [catch] of the loader about the fault that ended
    the loop. *)
Definition loopLog (env : LoaderEnv) (files : list string) : list Event :=
  match loopFault env files with
  | Some v =>
      [ELog "danger" ("Error loading commands: " ++ Js.render (errMessage (nullishFault v)))]
  | None => []
  end.

(** No import of [files] rejects with [null] or [undefined]. *)
Definition importsThrowErrors (env : LoaderEnv) (files : list string) : Prop :=
  forall file v, In file files -> import env file <> inl (ThrownNullish v).

(** ** Traces of the connection manager *)

Definition closedLog (update : option ConnectionUpdate) : Event :=
  ELog "danger"
    ("Connection closed. Status: " ++ pretty (statusOr500 (update ≫= statusCode))
     ++ ". Reason: " ++ Js.orElse (update ≫= reason) "Unknown").

Definition reconnectingLog (attempts : nat) : Event :=
  ELog "warning"
    ("Reconnecting in " ++ toFixed1 (reconnectDelay attempts / 1000) ++ "s (attempt "
     ++ pretty attempts ++ "/" ++ pretty MAX_RECONNECT_ATTEMPTS ++ ")...").

Definition terminatedLog : Event :=
  ELog "error" "Session has been terminated. Please re-authenticate.".

Definition removedLog : Event := ELog "info" "Credentials removed successfully.".

Definition removalFailed (err : JsError) : Event :=
  ELog "danger" ("Failed to remove credentials: " ++ Js.render (errMessage err)).

(** The files left once those of [removed] are gone. *)
Definition without (removed : list string) (files : list string) : list string :=
  List.filter (fun f => negb (existsb (String.eqb f) removed)) files.

(** The files the loop of [removeCreds] removes: those that come before
    the first one that cannot be removed. *)
Fixpoint removable (fs : SessionFs) (files : list string) : list string :=
  match files with
  | [] => []
  | file :: rest =>
      match unlink fs file with
      | None => file :: removable fs rest
      | Some _ => []
      end
  end.

(** The fault that stops the loop, if one does. *)
Fixpoint stuckAt (fs : SessionFs) (files : list string) : option JsError :=
  match files with
  | [] => None
  | file :: rest =>
      match unlink fs file with
      | None => stuckAt fs rest
      | Some err => Some err
      end
  end.

(** ** Tokens *)



(** ** Batches of messages *)

(** The identifier under which the loop of [messages.upsert] remembers a
    message: [msg.key.id], when it is there and not empty. *)
Definition batchId (msg : option WA.Message) : option string :=
  match (msg ≫= WA.key) ≫= id with
  | Some i => if String.eqb i "" then None else Some i
  | None => None
  end.

(** The identifiers the loop remembers for a list of messages. *)
Definition batchIds (msgs : list (Z * option WA.Message)) : gset string :=
  list_to_set (omap (fun p => batchId p.2) msgs).

(** The messages of a list that the loop cannot remember. *)
Definition unnamed (msgs : list (Z * option WA.Message)) : list (Z * option WA.Message) :=
  List.filter (fun p => bool_decide (batchId p.2 = None)) msgs.

(** A [messages.upsert] event of type [ty] with the messages [msgs]. *)
Definition batchOf (ty : option string) (msgs : list (Z * option WA.Message)) : ChatUpdate.t :=
  {| ChatUpdate.messages := Some msgs; ChatUpdate.type := ty |}.

(** ** Group metadata *)

(** The metadata object of a group whose subject is [subject]. *)
Definition metadataWith (subject : option string) : JsVal :=
  JObj [("subject", match subject with Some s => JStr s | None => JNull end)].

(** The time to live of group metadata, in milliseconds. *)
Definition groupTtlMs : Z := (GroupCache.stdTTL * 1000)%Z.

(** ** Sequences of connection updates *)

(** A close after which the bot tries to reconnect. *)
Definition isTransientClose (loggedOut : Z) (update : option ConnectionUpdate) : Prop :=
  update ≫= connection = Some "close"
  /\ isPermanentClose loggedOut (statusOr500 (update ≫= statusCode)) = false.

(** The updates of a session, handled one after the other until the
    process exits. *)
Fixpoint handleUpdates (loggedOut : Z) (fs : SessionFs) (sock : Sock)
    (updates : list (option ConnectionUpdate)) : M unit :=
  match updates with
  | [] => ret tt
  | update :: rest =>
      handleConnectionUpdate loggedOut fs sock update ;;
      handleUpdates loggedOut fs sock rest
  end.

(** The reconnections scheduled for the attempts [first], [first + 1],
    ... *)
Definition reconnections (first count : nat) : list Event :=
  map (fun attempts => ESetTimeout Reconnect (reconnectDelay attempts)) (seq first count).

(** ** The pairing code *)

(** Whether a string holds a line terminator. *)
Fixpoint hasLineTerminator (s : string) : bool :=
  match s with
  | EmptyString => false
  | String c r => isLineTerminator c || hasLineTerminator r
  end.

(** A string without its dashes. *)
Fixpoint withoutDashes (s : string) : string :=
  match s with
  | EmptyString => EmptyString
  | String c r => if Ascii.eqb c "-" then withoutDashes r else String c (withoutDashes r)
  end.

(** The same surroundings, with another line typed at the prompt. *)
Definition typing (line : string) (env : PairingEnv) : PairingEnv :=
  {| typed := line; parsePhoneNumber := parsePhoneNumber env;
     requestPairingCode := requestPairingCode env |}.

(** ** Identifiers of users *)

(** Whether a string holds an ["@"]. *)
Fixpoint hasAt (s : string) : bool :=
  match s with
  | EmptyString => false
  | String c r => Ascii.eqb c "@" || hasAt r
  end.

(** ** Files of the commands directory *)

(** The files that come before the first occurrence of [file]. *)
Fixpoint filesBefore (file : string) (files : list string) : list string :=
  match files with
  | [] => []
  | f :: rest => if String.eqb f file then [] else f :: filesBefore file rest
  end.

(** ** Concrete inputs *)

Module Example.

(** A socket on which every call resolves. *)
Definition sock : Sock :=
  {| readMessages := fun _ => None;
     groupMetadata := fun _ => inr (Some "Friends");
     sendMessage := fun _ _ => None |}.

(** A socket on which nothing does. *)
Definition deadSock : Sock :=
  {| readMessages := fun _ => Some {| errMessage := Some "Connection Closed" |};
     groupMetadata := fun _ => inl {| errMessage := Some "Connection Closed" |};
     sendMessage := fun _ _ => Some {| errMessage := Some "Connection Closed" |} |}.

(** A command [yt] with the alias [ytdl]. *)
Definition yt : Command :=
  {| name := Some "yt"; aliases := Some ["ytdl"];
     execute := Callable (fun _ _ _ _ => None) |}.

(** A command that always throws. *)
Definition boom : Command :=
  {| name := Some "boom"; aliases := None;
     execute := Callable (fun _ _ _ _ => Some (ThrownError {| errMessage := Some "kaput" |})) |}.

(** A command that always rejects, without a reason. *)
Definition hush : Command :=
  {| name := Some "hush"; aliases := None;
     execute := Callable (fun _ _ _ _ => Some (ThrownNullish JsUndefined)) |}.

(** A default export whose [execute] is a string. *)
Definition bad : Command :=
  {| name := Some "bad"; aliases := None; execute := NotCallable true |}.

Definition registry : gmap string Command :=
  <["boom" := boom]> (<["ytdl" := yt]> (<["yt" := yt]> ∅)).

Definition state : BotState :=
  {| processedMessagesCache := ∅; commands := registry; reconnectAttempts := 0;
     processingFiles := []; sessionFiles := ["creds.json"; "pre-key-1.json"] |}.

Definition emptyState : BotState :=
  {| processedMessagesCache := ∅; commands := ∅; reconnectAttempts := 0;
     processingFiles := []; sessionFiles := ["creds.json"; "pre-key-1.json"] |}.

(** The state with [attempts] reconnections tried. *)
Definition stateAt (attempts : nat) : BotState := setReconnectAttempts attempts state.

(** A commands directory: two valid files, one that is not a command file,
    one whose import fails and one without [name]. *)
Definition commandsDir : LoaderEnv :=
  {| existsSync := true;
     mkdirSync := None;
     readdirSync := inr ["yt.js"; "README.md"; "broken.js"; "boom.js"; "draft.js"];
     import := fun file =>
       if String.eqb file "yt.js" then inr (Some yt)
       else if String.eqb file "boom.js" then inr (Some boom)
       else if String.eqb file "broken.js" then
         inl (ThrownError {| errMessage := Some "Unexpected token" |})
       else if String.eqb file "draft.js" then
         inr (Some {| name := None; aliases := Some ["wip"];
                      execute := Callable (fun _ _ _ _ => None) |})
       else inr None |}.

Definition chat : string := "628123456789@s.whatsapp.net".

Definition keyOf (i : string) : MessageKey :=
  {| remoteJid := Some chat; id := Some i |}.

(** A text message with identifier [i]. *)
Definition text (i b : string) : WA.Message :=
  {| WA.key := Some (keyOf i);
     WA.message := Some [("conversation", JStr b)];
     WA.pushName := Some "Azum" |}.

(** A session folder that answers every request. *)
Definition healthyFs : SessionFs := {| readdir := None; unlink := fun _ => None |}.

(** A session folder in which [pre-key-1.json] cannot be removed. *)
Definition stuckFs : SessionFs :=
  {| readdir := None;
     unlink := fun file =>
       if String.eqb file "pre-key-1.json" then
         Some {| errMessage := Some "EPERM: operation not permitted, unlink" |}
       else None |}.

Definition close (code : Z) : option ConnectionUpdate :=
  Some {| connection := Some "close"; statusCode := Some code;
          reason := Some "Connection Failure" |}.

Definition opened : option ConnectionUpdate :=
  Some {| connection := Some "open"; statusCode := None; reason := None |}.

End Example.

(** ** More concrete inputs *)

Module Scenario.

(** A socket that acknowledges and sends, but knows no group. *)
Definition noMetadataSock : Sock :=
  {| readMessages := fun _ => None;
     groupMetadata := fun _ => inl {| errMessage := Some "item-not-found" |};
     sendMessage := fun _ _ => None |}.

Definition group : string := "120363041234567890@g.us".


(** A batch of events in which a [messages.upsert] of type [ty] that
    holds ["/yt foo"] comes with the loss of the connection. *)
Definition closing (ty : string) : Events :=
  {| credsUpdate := true;
     messagesUpsert :=
       Some {| ChatUpdate.messages := Some [(1000%Z, Some (Example.text "3EB0C767D26A1B2E4F" "/yt foo"))];
               ChatUpdate.type := Some ty |};
     groupsUpdate := Some [(1000%Z, Some {| groupId := Some group |})];
     groupParticipantsUpdate := None;
     connectionUpdate :=
       Some {| connection := Some "close"; statusCode := Some 428%Z;
               reason := Some "Connection Terminated" |} |}.

End Scenario.

(** * Lemmas *)

#[local] Arguments extractMessageInfo : simpl never.
#[local] Arguments resolveGroupName : simpl never.
#[local] Arguments runCommand : simpl never.
#[local] Arguments processCommand : simpl never.
#[local] Arguments acknowledgeAndDispatch : simpl never.
#[local] Arguments handleIncomingMessage : simpl never.
#[local] Arguments loadCommandFile : simpl never.
#[local] Arguments loadCommands : simpl never.
#[local] Arguments removeCreds : simpl never.
#[local] Arguments handleConnectionUpdate : simpl never.

Ltac unfold_monad :=
  unfold AzusaLog.handleError, AzusaLog.messageOf, AzusaLog.log, await, caught in *;
  unfold tryCatch, tryFinally, bind, ret, throw, processExit, emit, get, modify in *.

(** ** Counting events *)

Lemma count_app p t1 t2 : count p (t1 ++ t2) = (count p t1 + count p t2)%nat.
Proof. unfold count. now rewrite List.filter_app, length_app. Qed.

Lemma count_quiet_execute t : forallb isQuiet t = true -> count isExecute t = 0%nat.
Proof.
  induction t as [|e t IH]; [reflexivity|].
  cbn [forallb]. intros [He Ht]%andb_true_iff.
  unfold count in *. cbn [List.filter]. destruct e; try discriminate; cbn; auto.
Qed.


(** ** The dispatcher, step by step *)

(** [runCommand] never changes the state; it throws when [handleError]
    does, on the [null] or [undefined] the command has thrown. *)
Lemma runCommand_spec sock m command commandFile args info s :
  runCommand sock m command commandFile args info s
  = (s, runTrace sock m command commandFile args info,
     runResult sock m commandFile args info).
Proof.
  unfold runCommand, runTrace, runResult, callFault, errorReport, contextOf. unfold_monad.
  destruct commandFile as [cmd|]; cbn.
  - destruct (execute cmd) as [truthy|run]; cbn.
    + destruct (sendMessage sock _ _); reflexivity.
    + destruct (run sock m args _) as [[v|err]|]; cbn; [reflexivity| |reflexivity].
      destruct (sendMessage sock _ _); reflexivity.
  - destruct (sendMessage sock _ _); reflexivity.
Qed.

(** The outer [catch] turns the fault of [runCommand] into a line of the
    logger. *)
Lemma callTrace_caught sock m command commandFile args info pre (body : M unit) s s1 :
  body s
  = (s1, pre ++ runTrace sock m command commandFile args info,
     runResult sock m commandFile args info) ->
  tryCatch body (fun err => AzusaLog.handleError err "Error processing message") s
  = (s1, pre ++ callTrace sock m command commandFile args info, Return tt).
Proof.
  intros E. unfold tryCatch. rewrite E. unfold callTrace, runResult.
  destruct (callFault sock m commandFile args info) as [v|].
  - destruct v; unfold_monad; cbn; rewrite <- app_assoc; reflexivity.
  - rewrite !app_nil_r. reflexivity.
Qed.

Lemma count_execute_errorReport sock command chat err :
  count isExecute (errorReport sock command chat err) = 0%nat.
Proof. unfold errorReport. destruct (sendMessage sock _ _); reflexivity. Qed.


(** The line of the outer [catch] counts for nothing. *)
Lemma callTrace_count p sock m command commandFile args info :
  (forall type message, p (ELog type message) = false) ->
  count p (callTrace sock m command commandFile args info)
  = count p (runTrace sock m command commandFile args info).
Proof.
  intros Hp. unfold callTrace. rewrite count_app.
  destruct (callFault sock m commandFile args info) as [v|].
  - assert (count p [processingError (nullishFault v)] = 0%nat) as ->.
    { unfold count, processingError. cbn [List.filter]. rewrite Hp. reflexivity. }
    lia.
  - change (count p []) with 0%nat. lia.
Qed.

Lemma count_execute_runTrace sock m command commandFile args info :
  (count isExecute (runTrace sock m command commandFile args info) <= 1)%nat.
Proof.
  unfold runTrace.
  destruct commandFile as [cmd|]; [destruct (execute cmd) as [truthy|run]|].
  - rewrite count_execute_errorReport. lia.
  - change (EExecute ?c ?a ?b ?d :: ?t) with ([EExecute c a b d] ++ t).
    rewrite count_app. destruct (run sock m args _) as [[v|err]|].
    + cbn. lia.
    + rewrite count_execute_errorReport. cbn. lia.
    + cbn. lia.
  - rewrite count_execute_errorReport. lia.
Qed.

Lemma count_execute_callTrace sock m command commandFile args info :
  (count isExecute (callTrace sock m command commandFile args info) <= 1)%nat.
Proof.
  rewrite callTrace_count by reflexivity. apply count_execute_runTrace.
Qed.

(** With a command that can be called, the call is the one event of its
    kind. *)
Lemma callTrace_callable sock m command cmd run args info :
  execute cmd = Callable run ->
  In (EExecute cmd m args (contextOf info)) (callTrace sock m command (Some cmd) args info)
  /\ count isExecute (callTrace sock m command (Some cmd) args info) = 1%nat.
Proof.
  intros Hrun. split.
  - unfold callTrace, runTrace. rewrite Hrun. apply in_or_app. left. left. reflexivity.
  - rewrite callTrace_count by reflexivity. unfold runTrace. rewrite Hrun.
    change (EExecute ?c ?a ?b ?d :: ?t) with ([EExecute c a b d] ++ t).
    rewrite count_app.
    destruct (run sock m args _) as [[v|err]|]; rewrite ?count_execute_errorReport; reflexivity.
Qed.

Lemma extractMessageInfo_named sock m k jid s :
  WA.key m = Some k -> remoteJid k = Some jid -> jid <> "" ->
  extractMessageInfo sock (Some m) s = (s, [], Return (infoOf m jid)).
Proof.
  intros Hk Hj Hne. unfold extractMessageInfo, infoOf. unfold_monad.
  rewrite Hk, Hj. cbn.
  destruct (String.eqb_spec jid ""); [contradiction|]. reflexivity.
Qed.

Lemma extractMessageInfo_unnamed sock m s :
  match WA.key m with
  | Some k => Js.truthy (remoteJid k) = false
  | None => True
  end ->
  extractMessageInfo sock (Some m) s = (s, [], Return noMessageInfo).
Proof.
  unfold extractMessageInfo. unfold_monad.
  destruct (WA.key m) as [k|]; [|reflexivity].
  intros ->. reflexivity.
Qed.

Lemma resolveGroupName_spec sock g chat s :
  exists groupName t,
    resolveGroupName sock g chat s = (s, t, Return groupName)
    /\ forallb isQuiet t = true.
Proof.
  unfold resolveGroupName. unfold_monad.
  destruct g; [|exists "", []; split; reflexivity].
  cbn. destruct (groupMetadata sock chat) as [err|subject]; cbn;
    eexists _, _; split; reflexivity.
Qed.

(** A body with a known command: the group name is resolved, the command
    is logged, then called. *)
Lemma processCommand_dispatch cfg sock m info s b command args cmd :
  body info = JStr b ->
  parseCommand (commandPrefixes cfg) b = Some (command, args) ->
  command <> "" ->
  commands s !! command = Some cmd ->
  exists pre,
    forallb isQuiet pre = true
    /\ processCommand cfg sock m info s
       = (s, pre ++ runTrace sock m command (Some cmd) args info,
          runResult sock m (Some cmd) args info).
Proof.
  intros Hb Hp Hne Hc. unfold processCommand. rewrite Hb, Hp. unfold_monad.
  rewrite Hc. destruct (String.eqb_spec command ""); [contradiction|].
  rewrite bool_decide_eq_true_2 by eauto. cbn.
  destruct (resolveGroupName_spec sock (isGroup info) (from info) s)
    as (groupName & t & -> & Hq).
  rewrite runCommand_spec.
  exists (t ++ [ELog "success"
      (command ++ " from " ++ pushName info ++ " in "
       ++ (if isGroup info then groupName else "Private Chat"))]).
  split.
  - rewrite forallb_app, Hq. reflexivity.
  - now rewrite <- app_assoc.
Qed.

(** Every other body is dropped without a trace, or throws (a body that is
    not a string). *)
Lemma processCommand_shape cfg sock m info s :
  (exists r, processCommand cfg sock m info s = (s, [], r)
             /\ (r = Return tt \/ exists e : JsError, r = Throw e))
  \/ (exists b command args cmd pre,
        body info = JStr b
        /\ parseCommand (commandPrefixes cfg) b = Some (command, args)
        /\ command <> ""
        /\ commands s !! command = Some cmd
        /\ forallb isQuiet pre = true
        /\ processCommand cfg sock m info s
           = (s, pre ++ runTrace sock m command (Some cmd) args info,
              runResult sock m (Some cmd) args info)).
Proof.
  destruct (body info) as [|b|props] eqn:Hb.
  - left. unfold processCommand. rewrite Hb.
    destruct (commandPrefixes cfg); eexists; split; try reflexivity; eauto.
  - destruct (parseCommand (commandPrefixes cfg) b) as [[command args]|] eqn:Hp.
    + destruct (String.eqb_spec command "") as [->|Hne].
      * left. unfold processCommand. rewrite Hb, Hp. eexists; split; [reflexivity|eauto].
      * destruct (commands s !! command) as [cmd|] eqn:Hc.
        -- right. destruct (processCommand_dispatch cfg sock m info s b command args cmd)
             as (pre & Hq & E); auto.
           exists b, command, args, cmd, pre. repeat split; auto.
        -- left. unfold processCommand. rewrite Hb, Hp. unfold_monad. rewrite Hc.
           rewrite bool_decide_eq_false_2 by (intros [? ?]; discriminate).
           rewrite andb_false_r. eexists; split; [reflexivity|eauto].
    + left. unfold processCommand. rewrite Hb, Hp. eexists; split; [reflexivity|eauto].
  - left. unfold processCommand. rewrite Hb.
    destruct (commandPrefixes cfg); eexists; split; try reflexivity; eauto.
Qed.

(** Past the cache a run never changes the state and starts with the read
    acknowledgement; then either only quiet events follow, and what is
    thrown is an error object, or the command parsed from the body is
    called, as the last step. *)
Lemma acknowledgeAndDispatch_shape cfg sock m k s :
  WA.key m = Some k ->
  exists t r,
    acknowledgeAndDispatch cfg sock m k s = (s, EReadMessages [k] :: t, r)
    /\ ((forallb isQuiet t = true /\ (r = Return tt \/ exists e : JsError, r = Throw e))
        \/ (readMessages sock [k] = None
            /\ exists pre jid b command args cmd,
                 namesCommand cfg m k s jid b command args cmd
                 /\ forallb isQuiet pre = true
                 /\ t = pre ++ runTrace sock m command (Some cmd) args (infoOf m jid)
                 /\ r = runResult sock m (Some cmd) args (infoOf m jid))).
Proof.
  intros Hk. unfold acknowledgeAndDispatch. unfold_monad. cbn.
  destruct (readMessages sock [k]) as [err|] eqn:Hr; cbn.
  { exists [], (Throw err). split; [reflexivity|]. left. eauto. }
  destruct (Js.truthy (remoteJid k)) eqn:Ht.
  - destruct (remoteJid k) as [jid|] eqn:Hj; [|discriminate].
    assert (jid <> "") as Hne.
    { intros ->. discriminate. }
    rewrite (extractMessageInfo_named sock m k jid s Hk Hj Hne).
    destruct (negb (truthyVal (body (infoOf m jid))) || String.eqb (from (infoOf m jid)) "") eqn:Hc.
    { exists [], (Return tt). split; [reflexivity|]. left. eauto. }
    destruct (processCommand_shape cfg sock m (infoOf m jid) s)
      as [(r & -> & Hres)|(b & command & args & cmd & pre & Hb & Hp & Hcn & Hc' & Hq & ->)].
    + exists [], r. split; [reflexivity|]. left. auto.
    + eexists _, _. split; [reflexivity|]. right.
      split; [reflexivity|].
      exists pre, jid, b, command, args, cmd. unfold namesCommand. repeat split; auto.
  - rewrite (extractMessageInfo_unnamed sock m s) by now rewrite Hk.
    cbn. exists [], (Return tt). split; [reflexivity|]. left. eauto.
Qed.

(** ** The dispatcher as a whole *)

(** A message whose identifier is in the cache: one line of the logger. *)
Lemma handle_duplicate cfg now sock m k i s :
  passesFilters m k i ->
  NodeCache.has now (processedMessagesCache s) i = true ->
  handleIncomingMessage cfg now sock (Some m) s = (s, [duplicateLog], Return tt).
Proof.
  intros (Hm & Hk & Hs & Hi & Hb) Hhas. unfold handleIncomingMessage.
  destruct (WA.message m); [|contradiction]. rewrite Hk, Hi, Hb.
  rewrite bool_decide_eq_false_2 by assumption.
  unfold_monad. rewrite Hhas. reflexivity.
Qed.

(** A message whose identifier is not: the entry is added, and the rest
    runs in the new state, under the outer [catch]. *)
Lemma handle_fresh cfg now sock m k i s :
  passesFilters m k i ->
  NodeCache.has now (processedMessagesCache s) i = false ->
  handleIncomingMessage cfg now sock (Some m) s
  = tryCatch (acknowledgeAndDispatch cfg sock m k)
      (fun err => AzusaLog.handleError err "Error processing message")
      (setCache (NodeCache.set now (processedMessagesCache s) i) s).
Proof.
  intros (Hm & Hk & Hs & Hi & Hb) Hhas. unfold handleIncomingMessage.
  destruct (WA.message m); [|contradiction]. rewrite Hk, Hi, Hb.
  rewrite bool_decide_eq_false_2 by assumption.
  unfold tryCatch, bind, get, modify. rewrite Hhas. cbn.
  destruct (acknowledgeAndDispatch cfg sock m k _) as [[s1 t1] r1].
  reflexivity.
Qed.

(** A message stopped by one of the first three tests leaves no trace. *)
Lemma handle_rejected cfg now sock msg s :
  rejected msg -> handleIncomingMessage cfg now sock msg s = (s, [], Return tt).
Proof.
  unfold handleIncomingMessage. destruct msg as [m|]; [|reflexivity].
  cbn. intros [Hm|(k & Hk & H)].
  - rewrite Hm. reflexivity.
  - destruct (WA.message m); [|reflexivity]. rewrite Hk.
    destruct H as [Hs|(i & Hi & Hb)].
    + rewrite bool_decide_eq_true_2 by assumption. reflexivity.
    + destruct (bool_decide _); [reflexivity|]. rewrite Hi, Hb. reflexivity.
Qed.

(** A message without key or identifier: the fault is logged. *)
Lemma handle_malformed cfg now sock m s :
  malformed m ->
  exists err, handleIncomingMessage cfg now sock (Some m) s
              = (s, [processingError err], Return tt).
Proof.
  intros [Hm Hk]. unfold handleIncomingMessage.
  destruct (WA.message m); [|contradiction].
  destruct (WA.key m) as [k|].
  - destruct Hk as [Hs Hi]. rewrite bool_decide_eq_false_2 by assumption.
    rewrite Hi. eexists. reflexivity.
  - eexists. reflexivity.
Qed.

(** Every message is of one of the three kinds. *)
Lemma message_cases (msg : option WA.Message) :
  rejected msg
  \/ (exists m, msg = Some m /\ malformed m)
  \/ (exists m k i, msg = Some m /\ passesFilters m k i).
Proof.
  destruct msg as [m|]; [|left; exact I].
  destruct (WA.message m) as [payload|] eqn:Hm; [|left; left; assumption].
  destruct (WA.key m) as [k|] eqn:Hk.
  - destruct (decide (remoteJid k = Some "status@broadcast")) as [Hs|Hs].
    { left. right. exists k. rewrite Hk. auto. }
    destruct (id k) as [i|] eqn:Hi.
    + destruct (isSyntheticId i) eqn:Hb.
      * left. right. exists k. rewrite Hk. split; [reflexivity|]. right. eauto.
      * right. right. exists m, k, i. split; [reflexivity|].
        unfold passesFilters. rewrite Hm. repeat split; auto; discriminate.
    + right. left. exists m. split; [reflexivity|]. unfold malformed.
      rewrite Hm, Hk. repeat split; auto; discriminate.
  - right. left. exists m. split; [reflexivity|]. unfold malformed.
    rewrite Hm, Hk. split; auto; discriminate.
Qed.

(** What a run of [handleIncomingMessage] can be: it always returns, the
    state changes by the new entry of the cache at most, and the trace is
    quiet unless it ends with the call of one command. *)
Lemma handle_shape cfg now sock msg s :
  exists s' t,
    handleIncomingMessage cfg now sock msg s = (s', t, Return tt)
    /\ (s' = s
        \/ exists m k i, msg = Some m /\ passesFilters m k i
             /\ NodeCache.has now (processedMessagesCache s) i = false
             /\ s' = setCache (NodeCache.set now (processedMessagesCache s) i) s
             /\ exists t', t = EReadMessages [k] :: t')
    /\ (forallb isQuiet t = true
        \/ exists m, msg = Some m /\ dispatchedTo cfg sock m s t).
Proof.
  destruct (message_cases msg) as [Hr|[(m & -> & Hm)|(m & k & i & -> & Hp)]].
  - exists s, []. rewrite handle_rejected by assumption. auto.
  - destruct (handle_malformed cfg now sock m s Hm) as [err ->].
    exists s, [processingError err]. auto.
  - destruct (NodeCache.has now (processedMessagesCache s) i) eqn:Hhas.
    + rewrite (handle_duplicate cfg now sock m k i s Hp Hhas).
      exists s, [duplicateLog]. auto.
    + rewrite (handle_fresh cfg now sock m k i s Hp Hhas).
      set (s1 := setCache _ s).
      destruct Hp as (Hm & Hk & Hrest).
      destruct (acknowledgeAndDispatch_shape cfg sock m k s1 Hk)
        as (t & r & E & [[Hq [->|[e ->]]]|(_ & pre & jid & b & command & args & cmd
                                             & Hn & Hq & -> & ->)]).
      * unfold tryCatch; rewrite E.
        exists s1, (EReadMessages [k] :: t). split; [reflexivity|]. split.
        -- right. exists m, k, i. unfold passesFilters. eauto 10.
        -- left. assumption.
      * unfold tryCatch; rewrite E.
        exists s1, (EReadMessages [k] :: t ++ [processingError e]). split; [reflexivity|]. split.
        -- right. exists m, k, i. unfold passesFilters. eauto 10.
        -- left. cbn. rewrite forallb_app, Hq. reflexivity.
      * exists s1, ((EReadMessages [k] :: pre)
                    ++ callTrace sock m command (Some cmd) args (infoOf m jid)).
        split; [exact (callTrace_caught sock m command (Some cmd) args (infoOf m jid)
                         (EReadMessages [k] :: pre) _ s1 s1 E)|].
        split.
        -- right. exists m, k, i. unfold passesFilters. eauto 10.
        -- right. exists m. split; [reflexivity|].
           destruct Hn as (Hj & Hne & Hb & Hparse & Hcn & Hc).
           exists (EReadMessages [k] :: pre), b, command, args, cmd, k, jid.
           repeat split; auto.
Qed.

(** ** The cache of processed identifiers *)

Lemma has_set_same now now' c k :
  (now' <= now + ttlMs)%Z -> NodeCache.has now' (NodeCache.set now c k) k = true.
Proof.
  intros H. unfold NodeCache.has, NodeCache.set. rewrite lookup_insert_eq.
  unfold ttlMs in H. apply negb_true_iff, Z.ltb_ge. lia.
Qed.

Lemma has_set_expired now now' c k :
  (now + ttlMs < now')%Z -> NodeCache.has now' (NodeCache.set now c k) k = false.
Proof.
  intros H. unfold NodeCache.has, NodeCache.set. rewrite lookup_insert_eq.
  unfold ttlMs in H. apply negb_false_iff, Z.ltb_lt. lia.
Qed.

(** ** One command per delivery *)

(** Bounds on the number of calls. *)
Lemma count_execute_dispatched cfg sock m s t :
  dispatchedTo cfg sock m s t -> (count isExecute t <= 1)%nat.
Proof.
  intros (pre & b & command & args & cmd & k & jid & _ & _ & _ & _ & _ & _ & _ & Hq & ->).
  rewrite count_app, (count_quiet_execute pre Hq).
  apply count_execute_callTrace.
Qed.

(** One delivery calls one command at most. *)
Lemma handle_execute_once cfg now sock msg s :
  (count isExecute (traceOf (handleIncomingMessage cfg now sock msg s)) <= 1)%nat.
Proof.
  destruct (handle_shape cfg now sock msg s) as (s' & t & -> & _ & [Hq|(m & _ & Hd)]);
    unfold traceOf; cbn [fst snd].
  - rewrite (count_quiet_execute t Hq). lia.
  - eapply count_execute_dispatched; eassumption.
Qed.

(** The state after the delivery of a fresh message that passes the
    filters: the entry is in the cache whatever happens next. *)
Lemma handle_fresh_run cfg now sock m k i s :
  passesFilters m k i ->
  NodeCache.has now (processedMessagesCache s) i = false ->
  exists t,
    handleIncomingMessage cfg now sock (Some m) s
    = (setCache (NodeCache.set now (processedMessagesCache s) i) s,
       EReadMessages [k] :: t, Return tt).
Proof.
  intros Hp Hhas. rewrite (handle_fresh cfg now sock m k i s Hp Hhas).
  destruct Hp as (_ & Hk & _).
  destruct (acknowledgeAndDispatch_shape cfg sock m k
              (setCache (NodeCache.set now (processedMessagesCache s) i) s) Hk)
    as (t & r & E & Hshape).
  destruct Hshape as [[_ [->|[e ->]]]|(_ & pre & jid & b & command & args & cmd
                                       & _ & _ & -> & ->)];
    [unfold tryCatch; rewrite E; eexists; reflexivity
    |unfold tryCatch; rewrite E; eexists; reflexivity|].
  exists (pre ++ callTrace sock m command (Some cmd) args (infoOf m jid)).
  exact (callTrace_caught sock m command (Some cmd) args (infoOf m jid)
           (EReadMessages [k] :: pre) _ _ _ E).
Qed.

(** A delivery never removes an entry that is still alive: the cache only
    gains the identifier of the message delivered. *)
Lemma handle_keeps_entry cfg now sock msg s i expiry :
  processedMessagesCache s !! i = Some expiry ->
  (now <= expiry)%Z ->
  processedMessagesCache (stateOf (handleIncomingMessage cfg now sock msg s)) !! i
  = Some expiry.
Proof.
  intros Hentry Halive.
  destruct (handle_shape cfg now sock msg s) as (s1 & t & -> & Hs & _).
  unfold stateOf. cbn [fst].
  destruct Hs as [->|(m & k & j & _ & _ & Hhas & -> & _)]; [assumption|].
  cbn. unfold NodeCache.set.
  destruct (decide (j = i)) as [->|Hne]; [|now rewrite lookup_insert_ne].
  unfold NodeCache.has in Hhas. rewrite Hentry in Hhas.
  apply negb_false_iff, Z.ltb_lt in Hhas. lia.
Qed.

(** Past the time to live the entry no longer counts. *)
Lemma entry_expires cfg now now' sock m k i s :
  passesFilters m k i ->
  NodeCache.has now (processedMessagesCache s) i = false ->
  (now + ttlMs < now')%Z ->
  NodeCache.has now'
    (processedMessagesCache (stateOf (handleIncomingMessage cfg now sock (Some m) s))) i
  = false.
Proof.
  intros Hp Hhas Hlate.
  destruct (handle_fresh_run cfg now sock m k i s Hp Hhas) as [t ->].
  unfold stateOf. cbn. now apply has_set_expired.
Qed.




(** The dispatcher only touches the cache. *)
Lemma handle_keeps_commands cfg now sock msg s :
  commands (stateOf (handleIncomingMessage cfg now sock msg s)) = commands s
  /\ resultOf (handleIncomingMessage cfg now sock msg s) = Return tt.
Proof.
  destruct (handle_shape cfg now sock msg s) as (s' & t & -> & Hs & _).
  unfold stateOf, resultOf. cbn [fst snd]. split; [|reflexivity].
  destruct Hs as [->|(m & k & i & _ & _ & _ & -> & _)]; reflexivity.
Qed.

(** The delivery of a fresh message whose acknowledgement is rejected. *)
Lemma handle_unacknowledged cfg now sock m k i err s :
  passesFilters m k i ->
  NodeCache.has now (processedMessagesCache s) i = false ->
  readMessages sock [k] = Some err ->
  handleIncomingMessage cfg now sock (Some m) s
  = (setCache (NodeCache.set now (processedMessagesCache s) i) s,
     [EReadMessages [k]; processingError err], Return tt).
Proof.
  intros Hp Hhas Hr.
  rewrite (handle_fresh cfg now sock m k i s Hp Hhas).
  unfold tryCatch, acknowledgeAndDispatch. unfold_monad. cbn. rewrite Hr. reflexivity.
Qed.

(** ** From the body to the command *)

(** Past the acknowledgement, a message that names its chat is dropped
    when its body is empty, and handed to [processCommand] otherwise. *)
Lemma acknowledgeAndDispatch_named cfg sock m k jid s :
  WA.key m = Some k -> remoteJid k = Some jid -> jid <> "" ->
  readMessages sock [k] = None ->
  acknowledgeAndDispatch cfg sock m k s
  = if truthyVal (body (infoOf m jid)) then
      let '(s2, t2, r2) := processCommand cfg sock m (infoOf m jid) s in
      (s2, EReadMessages [k] :: t2, r2)
    else (s, [EReadMessages [k]], Return tt).
Proof.
  intros Hk Hj Hne Hr.
  assert (from (infoOf m jid) = jid) as Hfrom by reflexivity.
  pose proof (extractMessageInfo_named sock m k jid s Hk Hj Hne) as Hinfo.
  remember (infoOf m jid) as info eqn:E. clear E.
  unfold acknowledgeAndDispatch. unfold_monad. cbn. rewrite Hr. cbn.
  rewrite Hinfo, Hfrom.
  destruct (String.eqb_spec jid ""); [contradiction|].
  rewrite orb_false_r.
  destruct (truthyVal (body info)); cbn [negb]; [|reflexivity].
  destruct (processCommand cfg sock m info s) as [[s2 t2] r2]. reflexivity.
Qed.

(** The delivery of a fresh message whose body names a registered
    command. *)
Lemma handle_dispatch cfg now sock m k i jid b command args cmd s :
  passesFilters m k i ->
  NodeCache.has now (processedMessagesCache s) i = false ->
  readMessages sock [k] = None ->
  remoteJid k = Some jid -> jid <> "" ->
  body (infoOf m jid) = JStr b -> b <> "" ->
  parseCommand (commandPrefixes cfg) b = Some (command, args) ->
  command <> "" ->
  commands s !! command = Some cmd ->
  exists pre,
    forallb isQuiet pre = true
    /\ handleIncomingMessage cfg now sock (Some m) s
       = (setCache (NodeCache.set now (processedMessagesCache s) i) s,
          pre ++ callTrace sock m command (Some cmd) args (infoOf m jid), Return tt).
Proof.
  intros Hp Hhas Hr Hj Hne Hb Hbne Hparse Hcn Hc.
  rewrite (handle_fresh cfg now sock m k i s Hp Hhas).
  destruct Hp as (_ & Hk & _).
  set (s1 := setCache _ s).
  destruct (processCommand_dispatch cfg sock m (infoOf m jid) s1 b command args cmd
              Hb Hparse Hcn Hc) as (pre & Hq & E).
  exists (EReadMessages [k] :: pre). split; [exact Hq|].
  apply (callTrace_caught sock m command (Some cmd) args (infoOf m jid)
           (EReadMessages [k] :: pre)).
  rewrite (acknowledgeAndDispatch_named cfg sock m k jid s1 Hk Hj Hne Hr), Hb.
  cbn [truthyVal]. destruct (String.eqb_spec b ""); [contradiction|]. cbn [negb].
  rewrite E. reflexivity.
Qed.

(** The delivery of a fresh message whose body is not a command. *)
Lemma handle_not_command cfg now sock m k i jid b s :
  passesFilters m k i ->
  NodeCache.has now (processedMessagesCache s) i = false ->
  readMessages sock [k] = None ->
  remoteJid k = Some jid -> jid <> "" ->
  body (infoOf m jid) = JStr b ->
  parseCommand (commandPrefixes cfg) b = None ->
  handleIncomingMessage cfg now sock (Some m) s
  = (setCache (NodeCache.set now (processedMessagesCache s) i) s,
     [EReadMessages [k]], Return tt).
Proof.
  intros Hp Hhas Hr Hj Hne Hb Hparse.
  rewrite (handle_fresh cfg now sock m k i s Hp Hhas).
  destruct Hp as (_ & Hk & _).
  unfold tryCatch.
  rewrite (acknowledgeAndDispatch_named cfg sock m k jid _ Hk Hj Hne Hr), Hb.
  cbn [truthyVal]. destruct (negb (String.eqb b "")); [|reflexivity].
  unfold processCommand. rewrite Hb, Hparse. reflexivity.
Qed.

(** The first prefix of the list that starts the body is the one in use;
    the head of what follows it, in lower case, is the command. *)
Lemma parseCommand_first_match before p after b :
  (forall q, In q before -> Js.startsWith b q = false) ->
  Js.startsWith b p = true -> p <> "" ->
  parseCommand (before ++ p :: after) b
  = match Js.splitSpaces (Js.trim (Js.slice b (String.length p))) with
    | first :: args => Some (Js.toLowerCase first, args)
    | [] => None
    end.
Proof.
  intros Hbefore Hp Hne. unfold parseCommand.
  assert (List.find (fun q => Js.startsWith b q) (before ++ p :: after) = Some p) as ->.
  { induction before as [|q before IH]; cbn.
    - now rewrite Hp.
    - rewrite (Hbefore q) by (left; reflexivity). apply IH.
      intros q' Hq'. apply Hbefore. right. exact Hq'. }
  destruct (String.eqb_spec p ""); [contradiction|]. reflexivity.
Qed.

Lemma parseCommand_no_prefix prefixes b :
  (forall q, In q prefixes -> Js.startsWith b q = false) ->
  parseCommand prefixes b = None.
Proof.
  intros H. unfold parseCommand.
  destruct (List.find _ prefixes) as [p|] eqn:E; [|reflexivity].
  apply List.find_some in E. destruct E as [Hin Hp].
  rewrite (H p Hin) in Hp. discriminate.
Qed.

(** ** Bodies that are dropped *)

Lemma bodyOf_unrecognized payload ty :
  ~ In ty recognizedTypes -> bodyOf payload ty = JStr "".
Proof.
  intros H. unfold bodyOf.
  repeat match goal with
         | |- context [String.eqb ty ?x] =>
             destruct (String.eqb_spec ty x) as [->|_];
             [exfalso; apply H; unfold recognizedTypes; cbn; tauto|]
         end.
  reflexivity.
Qed.

(** Past the acknowledgement, a message whose extracted body is empty is
    dropped. *)
Lemma acknowledgeAndDispatch_empty_body cfg sock m k s info :
  readMessages sock [k] = None ->
  extractMessageInfo sock (Some m) s = (s, [], Return info) ->
  truthyVal (body info) = false ->
  acknowledgeAndDispatch cfg sock m k s = (s, [EReadMessages [k]], Return tt).
Proof.
  intros Hr Hinfo Hbody. unfold acknowledgeAndDispatch. unfold_monad. cbn.
  rewrite Hr. cbn. rewrite Hinfo, Hbody. reflexivity.
Qed.

(** ** The command loader *)

Section Loader.

Variable env : LoaderEnv.

(** Look-up in the map after the aliases, then the command, are set. *)
Lemma setAliases_lookup cmd (als : list string) (cmds : gmap string Command) k :
  setAliases cmd als cmds !! k = if bool_decide (k ∈ als) then Some cmd else cmds !! k.
Proof.
  unfold setAliases. revert cmds.
  induction als as [|a als IH]; intros cmds; cbn [foldl].
  - rewrite bool_decide_eq_false_2 by apply not_elem_of_nil. reflexivity.
  - rewrite IH. destruct (decide (k ∈ als)) as [Hin|Hout].
    + rewrite !bool_decide_eq_true_2; auto. now apply list_elem_of_further.
    + rewrite (bool_decide_eq_false_2 _ Hout).
      destruct (decide (a = k)) as [->|Hne].
      * rewrite lookup_insert_eq, bool_decide_eq_true_2; [reflexivity|]. apply list_elem_of_here.
      * rewrite lookup_insert_ne by assumption.
        rewrite bool_decide_eq_false_2; [reflexivity|].
        intros [->|H]%elem_of_cons; [now apply Hne|now apply Hout].
Qed.

Lemma install_lookup cmd (cmds : gmap string Command) k :
  isValid cmd = true ->
  install cmd cmds !! k = if bool_decide (k ∈ keysOf cmd) then Some cmd else cmds !! k.
Proof.
  unfold isValid, install, keysOf. intros [Hn _]%andb_true_iff.
  destruct (name cmd) as [n|]; [|discriminate].
  rewrite setAliases_lookup.
  destruct (decide (k ∈ default [] (aliases cmd))) as [Hin|Hout].
  - rewrite !bool_decide_eq_true_2; auto. now apply list_elem_of_further.
  - rewrite (bool_decide_eq_false_2 _ Hout).
    destruct (decide (n = k)) as [->|Hne].
    + rewrite lookup_insert_eq, bool_decide_eq_true_2; [reflexivity|]. apply list_elem_of_here.
    + rewrite lookup_insert_ne by assumption.
      rewrite bool_decide_eq_false_2; [reflexivity|].
      intros [->|H]%elem_of_cons; [now apply Hne|now apply Hout].
Qed.

(** One file: what is logged, and the map that results, or the fault
    that leaves the turn. *)
Lemma loadCommandFile_spec file cmds s :
  loadCommandFile env file cmds s
  = (s, fileLog env file,
     match import env file with
     | inl (ThrownNullish v) => Throw (nullishFault v)
     | _ => Return (installFile env cmds file)
     end).
Proof.
  unfold loadCommandFile, fileLog, installFile, unitOf, isValid, install. unfold_monad.
  destruct (import env file) as [[v|error]|[cmd|]]; cbn; try reflexivity.
  destruct (name cmd) as [n|] eqn:Hn; cbn; [|reflexivity].
  destruct (String.eqb n ""); cbn; [reflexivity|].
  destruct (truthyExecute (execute cmd)); cbn; [|reflexivity].
  rewrite Hn. destruct (aliases cmd); reflexivity.
Qed.

(** All the files, in order, up to the first whose turn throws. *)
Lemma loadCommandFiles_spec files cmds s :
  loadCommandFiles env files cmds s
  = (s, flat_map (fileLog env) (reached env files),
     Return (foldl (installFile env) cmds (reached env files),
             option_map (fun v => ThrownError (nullishFault v)) (loopFault env files))).
Proof.
  revert cmds. induction files as [|file rest IH]; intros cmds;
    cbn [loadCommandFiles reached loopFault].
  - reflexivity.
  - unfold bind at 1. unfold caught, tryCatch. unfold bind at 1.
    rewrite loadCommandFile_spec.
    destruct (import env file) as [[v|error]|x] eqn:Himp.
    + unfold fileLog. rewrite Himp. reflexivity.
    + unfold ret. cbn [flat_map foldl]. rewrite IH. rewrite app_nil_r. reflexivity.
    + unfold ret. cbn [flat_map foldl]. rewrite IH. rewrite app_nil_r. reflexivity.
Qed.

(** When no import rejects with [null] or [undefined] the loop goes
    through all the files. *)
Lemma reached_all files :
  importsThrowErrors env files -> reached env files = files /\ loopFault env files = None.
Proof.
  intros H. induction files as [|file rest IH]; [split; reflexivity|].
  cbn [reached loopFault]. pose proof (H file) as Hfile.
  destruct IH as [IH1 IH2].
  { intros f v Hin. apply H. right. exact Hin. }
  destruct (import env file) as [[v|error]|x];
    [exfalso; apply (Hfile v); [left|]; reflexivity| |];
    rewrite IH1, IH2; split; reflexivity.
Qed.

(** The loader, on a directory that exists and can be listed. *)
Lemma loadCommands_run dir s entries :
  existsSync env = true ->
  readdirSync env = inr entries ->
  let files := filter (fun file => Js.endsWith file ".js" = true) entries in
  loadCommands env dir s
  = (s,
     ELog "info" ("Found " ++ pretty (length files) ++ " command files")
     :: flat_map (fileLog env) (reached env files) ++ loopLog env files,
     Return (foldl (installFile env) ∅ (reached env files))).
Proof.
  intros Hex Hdir files. unfold loadCommands, loopLog.
  unfold bind at 1. unfold tryCatch. rewrite Hex, Hdir. cbn [negb].
  fold files. unfold bind at 1. unfold AzusaLog.log, emit.
  rewrite loadCommandFiles_spec.
  destruct (loopFault env files) as [v|]; cbn [option_map].
  - destruct v; unfold_monad; cbn; reflexivity.
  - unfold ret. cbn. rewrite !app_nil_r. reflexivity.
Qed.

Lemma unitOf_valid file cmd : unitOf env file = Some cmd -> isValid cmd = true.
Proof.
  unfold unitOf. destruct (import env file) as [|[c|]]; try discriminate.
  destruct (isValid c) eqn:E; [|discriminate]. now intros [= <-].
Qed.

(** The map built from the files: each key is held by the last file that
    claims it. *)
Lemma installed_lookup files (cmds : gmap string Command) k :
  foldl (installFile env) cmds files !! k
  = match lastClaimant k (omap (unitOf env) files) with
    | Some c => Some c
    | None => cmds !! k
    end.
Proof.
  revert cmds. induction files as [|file rest IH]; intros cmds; cbn [foldl omap list_omap].
  - reflexivity.
  - rewrite IH. unfold installFile.
    destruct (unitOf env file) as [cmd|] eqn:Hu; cbn [lastClaimant].
    + destruct (lastClaimant k (omap (unitOf env) rest)); [reflexivity|].
      rewrite (install_lookup cmd cmds k (unitOf_valid file cmd Hu)).
      destruct (bool_decide (k ∈ keysOf cmd)); reflexivity.
    + reflexivity.
Qed.

Lemma lastClaimant_in k units c :
  lastClaimant k units = Some c -> In c units /\ k ∈ keysOf c.
Proof.
  induction units as [|u rest IH]; cbn; [discriminate|].
  destruct (lastClaimant k rest) as [c'|].
  - intros [= <-]. destruct (IH eq_refl). auto.
  - destruct (decide (k ∈ keysOf u)) as [Hin|Hout].
    + rewrite bool_decide_eq_true_2 by assumption. intros [= <-]. auto.
    + rewrite bool_decide_eq_false_2 by assumption. discriminate.
Qed.

Lemma lastClaimant_last k before cmd after :
  k ∈ keysOf cmd ->
  (forall c, In c after -> k ∉ keysOf c) ->
  lastClaimant k (before ++ cmd :: after) = Some cmd.
Proof.
  intros Hin Hafter.
  assert (lastClaimant k after = None) as Hnone.
  { induction after as [|u rest IH]; [reflexivity|]. cbn.
    rewrite IH by (intros c Hc; apply Hafter; right; exact Hc).
    rewrite bool_decide_eq_false_2; [reflexivity|]. apply Hafter. left. reflexivity. }
  induction before as [|u rest IH]; cbn.
  - rewrite Hnone, bool_decide_eq_true_2 by assumption. reflexivity.
  - rewrite IH. reflexivity.
Qed.

(** The loader always returns a map. *)
Lemma loadCommands_returns dir s :
  exists t reg, loadCommands env dir s = (s, t, Return reg).
Proof.
  destruct (existsSync env) eqn:Hex.
  - destruct (readdirSync env) as [error|entries] eqn:Hdir.
    + unfold loadCommands. unfold_monad. rewrite Hex, Hdir. cbn. eexists _, _. reflexivity.
    + rewrite (loadCommands_run dir s entries Hex Hdir). eexists _, _. reflexivity.
  - unfold loadCommands. unfold_monad. rewrite Hex. cbn.
    destruct (mkdirSync env); eexists _, _; reflexivity.
Qed.

End Loader.

(** The reload installs whatever the loader returns: its [catch] is never
    entered, the loader having caught every fault itself. *)
Lemma reloadCommands_installs cfg env filename s :
  exists t reg,
    loadCommands env (commandsPath cfg) s = (s, t, Return reg)
    /\ commands (stateOf (reloadCommands cfg env filename s)) = reg
    /\ resultOf (reloadCommands cfg env filename s) = Return tt.
Proof.
  destruct (loadCommands_returns env (commandsPath cfg) s) as (t & reg & E).
  exists t, reg. split; [exact E|].
  unfold reloadCommands. unfold_monad. rewrite E. cbn. split; reflexivity.
Qed.

(** ** The delay before a reconnection *)

Lemma reconnectDelay_capped n : (reconnectDelay n <= MAX_RECONNECT_DELAY)%Q.
Proof. unfold reconnectDelay. apply Q.le_min_r. Qed.

Lemma reconnectDelay_mono n m : (n <= m)%nat -> (reconnectDelay n <= reconnectDelay m)%Q.
Proof.
  intros H. unfold reconnectDelay. apply Q.min_le_compat_r.
  apply Qmult_le_l; [reflexivity|].
  apply Qpower_le_compat_l; [lia|discriminate].
Qed.

(** Up to the last attempt the cap is not reached, and the delay grows. *)
Lemma reconnectDelay_below_cap n :
  (n <= MAX_RECONNECT_ATTEMPTS)%nat ->
  (reconnectDelay n == 1000 * (3 # 2) ^ Z.of_nat n)%Q
  /\ (reconnectDelay n < MAX_RECONNECT_DELAY)%Q.
Proof.
  intros H. unfold MAX_RECONNECT_ATTEMPTS in H.
  assert (1000 * (3 # 2) ^ Z.of_nat n < MAX_RECONNECT_DELAY)%Q as Hlt.
  { apply Qle_lt_trans with (1000 * (3 # 2) ^ 10)%Q; [|reflexivity].
    apply Qmult_le_l; [reflexivity|].
    apply Qpower_le_compat_l; [lia|discriminate]. }
  unfold reconnectDelay. rewrite Q.min_l by now apply Qlt_le_weak.
  split; [reflexivity|exact Hlt].
Qed.

Lemma reconnectDelay_grows n :
  (S n <= MAX_RECONNECT_ATTEMPTS)%nat -> (reconnectDelay n < reconnectDelay (S n))%Q.
Proof.
  intros H.
  destruct (reconnectDelay_below_cap n ltac:(lia)) as [-> _].
  destruct (reconnectDelay_below_cap (S n) H) as [-> _].
  apply Qmult_lt_l; [reflexivity|].
  apply Qpower_lt_compat_l; [lia|reflexivity].
Qed.

(** ** Closing and opening of the connection *)

(** A transient close while attempts are left. *)
Lemma close_transient_retry loggedOut fs sock update s :
  update ≫= connection = Some "close" ->
  isPermanentClose loggedOut (statusOr500 (update ≫= statusCode)) = false ->
  (reconnectAttempts s < MAX_RECONNECT_ATTEMPTS)%nat ->
  handleConnectionUpdate loggedOut fs sock update s
  = (setReconnectAttempts (S (reconnectAttempts s)) s,
     [closedLog update; reconnectingLog (S (reconnectAttempts s));
      ESetTimeout Reconnect (reconnectDelay (S (reconnectAttempts s)))],
     Return tt).
Proof.
  intros Hc Ht Hlt. unfold handleConnectionUpdate. unfold_monad.
  rewrite Hc, bool_decide_eq_true_2 by reflexivity. cbv beta iota. rewrite Ht.
  apply Nat.ltb_lt in Hlt. rewrite Hlt. reflexivity.
Qed.

(** A transient close when none is left. *)
Lemma close_transient_give_up loggedOut fs sock update s :
  update ≫= connection = Some "close" ->
  isPermanentClose loggedOut (statusOr500 (update ≫= statusCode)) = false ->
  (MAX_RECONNECT_ATTEMPTS <= reconnectAttempts s)%nat ->
  handleConnectionUpdate loggedOut fs sock update s
  = (s,
     [closedLog update;
      ELog "danger" "Maximum reconnection attempts exceeded. Exiting process."],
     ProcessExit 1).
Proof.
  intros Hc Ht Hge. unfold handleConnectionUpdate. unfold_monad.
  rewrite Hc, bool_decide_eq_true_2 by reflexivity. cbv beta iota. rewrite Ht.
  apply Nat.ltb_ge in Hge. rewrite Hge. reflexivity.
Qed.

(** An open connection. *)
Lemma open_resets loggedOut fs sock update s :
  update ≫= connection = Some "open" ->
  handleConnectionUpdate loggedOut fs sock update s
  = (setReconnectAttempts 0 s,
     [ELog "success" "Bot successfully connected to WhatsApp."], Return tt).
Proof.
  intros Hc. unfold handleConnectionUpdate. unfold_monad. rewrite Hc.
  rewrite !bool_decide_eq_false_2 by discriminate.
  rewrite bool_decide_eq_true_2 by reflexivity. reflexivity.
Qed.

(** ** Removal of the credentials *)

Lemma without_nil files : without [] files = files.
Proof.
  unfold without. apply forallb_filter_id, forallb_forall. reflexivity.
Qed.

Lemma without_cons file removed files :
  without removed (List.filter (fun f => negb (String.eqb f file)) files)
  = without (file :: removed) files.
Proof.
  unfold without. induction files as [|f l IH]; cbn; [reflexivity|].
  destruct (String.eqb f file); cbn; [exact IH|].
  destruct (existsb (String.eqb f) removed); cbn; [exact IH|now rewrite IH].
Qed.

Lemma without_self files : without files files = [].
Proof.
  unfold without.
  assert (forall l, incl l files ->
            List.filter (fun f => negb (existsb (String.eqb f) files)) l = []) as H.
  { induction l as [|f l IH]; intros Hl; cbn; [reflexivity|].
    assert (existsb (String.eqb f) files = true) as ->.
    { apply existsb_exists. exists f. split; [apply Hl; left; reflexivity|apply String.eqb_refl]. }
    cbn. apply IH. intros x Hx. apply Hl. right. exact Hx. }
  apply H, incl_refl.
Qed.

Lemma setSessionFiles_same s : setSessionFiles (sessionFiles s) s = s.
Proof. destruct s. reflexivity. Qed.

Lemma without_keeps removed files f :
  In f files -> (forall g, In g removed -> g <> f) -> In f (without removed files).
Proof.
  intros Hin Hnot. unfold without. apply List.filter_In. split; [exact Hin|].
  apply negb_true_iff. destruct (existsb (String.eqb f) removed) eqn:E; [|reflexivity].
  apply existsb_exists in E. destruct E as (g & Hg & Heq).
  apply String.eqb_eq in Heq. subst g. exfalso. now apply (Hnot f Hg).
Qed.

(** The loop stops at the first file that cannot be removed; the files
    before it are gone. *)
Lemma unlinkAll_shape fs files s :
  exists removed r,
    unlinkAll fs files s = (setSessionFiles (without removed (sessionFiles s)) s, [], r)
    /\ (forall g, In g removed -> unlink fs g = None)
    /\ ((r = Return tt /\ removed = files)
        \/ exists (err : JsError) file,
             r = Throw err /\ In file files /\ unlink fs file = Some err).
Proof.
  revert s. induction files as [|file rest IH]; intros s; cbn [unlinkAll].
  - exists [], (Return tt). rewrite without_nil, setSessionFiles_same.
    split; [reflexivity|]. split; [intros g []|]. left. split; reflexivity.
  - destruct (unlink fs file) as [err|] eqn:Hu.
    + exists [], (Throw err). rewrite without_nil, setSessionFiles_same.
      split; [reflexivity|]. split; [intros g []|]. right. exists err, file. cbn. auto.
    + unfold bind, modify.
      destruct (IH (setSessionFiles
                      (List.filter (fun f => negb (String.eqb f file)) (sessionFiles s)) s))
        as (removed & r & E & Hall & Hr).
      rewrite E. cbn [setSessionFiles sessionFiles]. rewrite without_cons.
      exists (file :: removed), r. split; [destruct r; reflexivity|].
      split; [intros g [<-|Hg]; auto|].
      destruct Hr as [(-> & ->)|(err & f & -> & Hin & Hf)].
      * left. split; reflexivity.
      * right. exists err, f. cbn. auto.
Qed.

(** [removeCreds] touches the session folder only.  It answers [true] when
    it has emptied it; otherwise the fault is logged, and the file that
    could not be removed is still there (every file, when the listing
    failed). *)
Lemma removeCreds_shape fs s :
  exists files t ok,
    removeCreds fs s = (setSessionFiles files s, t, Return ok)
    /\ ((ok = true /\ files = [] /\ t = []
         /\ readdir fs = None /\ forall f, In f (sessionFiles s) -> unlink fs f = None)
        \/ (ok = false /\ exists err, t = [removalFailed err]
            /\ ((readdir fs = Some err /\ files = sessionFiles s)
                \/ (readdir fs = None
                    /\ exists f, In f (sessionFiles s) /\ In f files
                                 /\ unlink fs f = Some err)))).
Proof.
  unfold removeCreds. unfold_monad.
  destruct (readdir fs) as [err|] eqn:Hd.
  - exists (sessionFiles s), [removalFailed err], false. rewrite setSessionFiles_same.
    split; [reflexivity|]. right. split; [reflexivity|]. exists err. auto.
  - cbv beta iota.
    destruct (unlinkAll_shape fs (sessionFiles s) s) as (removed & r & E & Hall & Hr).
    rewrite E. destruct Hr as [(-> & ->)|(err & f & -> & Hin & Hf)].
    + rewrite without_self. exists [], [], true. split; [reflexivity|]. left.
      repeat split; auto.
    + eexists _, [removalFailed err], false. split; [reflexivity|]. right.
      split; [reflexivity|]. exists err. split; [reflexivity|]. right.
      split; [reflexivity|]. exists f. split; [exact Hin|]. split; [|exact Hf].
      apply without_keeps; [exact Hin|].
      intros g Hg ->. rewrite (Hall f Hg) in Hf. discriminate.
Qed.

(** The loop, exactly: the files before the first that cannot be removed
    are gone, the others are still there. *)
Lemma unlinkAll_run fs files s :
  unlinkAll fs files s
  = (setSessionFiles (without (removable fs files) (sessionFiles s)) s, [],
     match stuckAt fs files with
     | Some err => Throw err
     | None => Return tt
     end).
Proof.
  revert s. induction files as [|file rest IH]; intros s; cbn [unlinkAll removable stuckAt].
  - rewrite without_nil, setSessionFiles_same. reflexivity.
  - destruct (unlink fs file) as [err|] eqn:Hu.
    + rewrite without_nil, setSessionFiles_same. reflexivity.
    + unfold bind, modify. rewrite IH. cbn [setSessionFiles sessionFiles].
      rewrite without_cons. destruct (stuckAt fs rest); reflexivity.
Qed.

Lemma removeCreds_run fs s :
  removeCreds fs s
  = match readdir fs with
    | Some err => (s, [removalFailed err], Return false)
    | None =>
        (setSessionFiles (without (removable fs (sessionFiles s)) (sessionFiles s)) s,
         match stuckAt fs (sessionFiles s) with
         | Some err => [removalFailed err]
         | None => []
         end,
         Return match stuckAt fs (sessionFiles s) with Some _ => false | None => true end)
    end.
Proof.
  unfold removeCreds. unfold_monad.
  destruct (readdir fs) as [err|]; [reflexivity|].
  cbv beta iota. rewrite unlinkAll_run.
  destruct (stuckAt fs (sessionFiles s)); reflexivity.
Qed.

(** The loop on a list of which the first file that cannot be removed is
    known. *)
Lemma removable_split fs before f after err :
  (forall g, In g before -> unlink fs g = None) ->
  unlink fs f = Some err ->
  removable fs (before ++ f :: after) = before
  /\ stuckAt fs (before ++ f :: after) = Some err.
Proof.
  intros Hb Hf. induction before as [|g before IH]; cbn [app removable stuckAt].
  - rewrite Hf. split; reflexivity.
  - rewrite (Hb g) by (left; reflexivity).
    destruct IH as [-> ->]; [intros h Hh; apply Hb; right; exact Hh|]. split; reflexivity.
Qed.

Lemma removable_all fs files :
  (forall g, In g files -> unlink fs g = None) ->
  removable fs files = files /\ stuckAt fs files = None.
Proof.
  intros H. induction files as [|g files IH]; cbn [removable stuckAt]; [split; reflexivity|].
  rewrite (H g) by (left; reflexivity).
  destruct IH as [-> ->]; [intros h Hh; apply H; right; exact Hh|]. split; reflexivity.
Qed.

(** In a listing without repetition, what is left of the list once a
    prefix is gone is the rest of the list. *)
Lemma without_prefix before rest :
  NoDup (before ++ rest) -> without before (before ++ rest) = rest.
Proof.
  intros Hnd. unfold without. rewrite List.filter_app.
  assert (List.filter (fun f => negb (existsb (String.eqb f) before)) before = []) as ->.
  { apply (without_self before). }
  cbn [app]. apply forallb_filter_id, forallb_forall. intros x Hx.
  apply negb_true_iff. destruct (existsb (String.eqb x) before) eqn:E; [|reflexivity].
  apply existsb_exists in E. destruct E as (y & Hy & Heq). apply String.eqb_eq in Heq. subst y.
  exfalso. apply NoDup_app in Hnd. destruct Hnd as (_ & Hdisj & _).
  apply (Hdisj x); apply list_elem_of_In; assumption.
Qed.

(** A close after which the session cannot be resumed. *)
Lemma close_permanent loggedOut fs sock update s :
  update ≫= connection = Some "close" ->
  isPermanentClose loggedOut (statusOr500 (update ≫= statusCode)) = true ->
  exists files t ok,
    removeCreds fs s = (setSessionFiles files s, t, Return ok)
    /\ handleConnectionUpdate loggedOut fs sock update s
       = (setSessionFiles files s,
          closedLog update :: terminatedLog :: t ++ (if ok then [removedLog] else []),
          ProcessExit 1).
Proof.
  intros Hc Hp.
  destruct (removeCreds_shape fs s) as (files & t & ok & E & _).
  exists files, t, ok. split; [exact E|].
  unfold handleConnectionUpdate. unfold_monad.
  rewrite Hc, bool_decide_eq_true_2 by reflexivity. cbv beta iota. rewrite Hp.
  cbv beta iota. rewrite E. destruct ok; cbn; rewrite ?app_nil_r; reflexivity.
Qed.

(** A directory with a single file, whose import throws: the file is
    skipped with the line of [handleError], and the map is empty. *)
Lemma loadCommands_failed_import :
  let env :=
    {| existsSync := true; mkdirSync := None; readdirSync := inr ["broken.js"];
       import := fun _ => inl (ThrownError {| errMessage := Some "Unexpected token" |}) |} in
  let run := loadCommands env "./commands" Example.emptyState in
  traceOf run = [ELog "info" "Found 1 command files";
                 ELog "danger" "Failed to load command file: broken.js: Unexpected token"]
  /\ count isWarning (traceOf run) = 0%nat
  /\ resultOf run = Return ∅.
Proof. vm_compute. repeat split. Qed.

(** ** More on the traces of the dispatcher *)

Lemma count_quiet_timer t : forallb isQuiet t = true -> count isTimer t = 0%nat.
Proof.
  induction t as [|e t IH]; [reflexivity|].
  cbn [forallb]. intros [He Ht]%andb_true_iff.
  unfold count in *. cbn [List.filter]. destruct e; try discriminate; cbn; auto.
Qed.

Lemma count_timer_errorReport sock command chat err :
  count isTimer (errorReport sock command chat err) = 0%nat.
Proof. unfold errorReport. destruct (sendMessage sock _ _); reflexivity. Qed.

Lemma count_timer_runTrace sock m command commandFile args info :
  count isTimer (runTrace sock m command commandFile args info) = 0%nat.
Proof.
  unfold runTrace.
  destruct commandFile as [cmd|]; [destruct (execute cmd) as [truthy|run]|];
    try apply count_timer_errorReport.
  change (EExecute ?c ?a ?b ?d :: ?t) with ([EExecute c a b d] ++ t).
  rewrite count_app. destruct (run sock m args _) as [[v|err]|]; try reflexivity.
  rewrite count_timer_errorReport. reflexivity.
Qed.

Lemma count_timer_callTrace sock m command commandFile args info :
  count isTimer (callTrace sock m command commandFile args info) = 0%nat.
Proof. rewrite callTrace_count by reflexivity. apply count_timer_runTrace. Qed.


(** ** What a run reads of the state *)

(** The group name, its trace, and the independence of the state. *)
Lemma resolveGroupName_pure sock g chat :
  exists groupName t,
    (forall s, resolveGroupName sock g chat s = (s, t, Return groupName))
    /\ forallb isQuiet t = true.
Proof.
  unfold resolveGroupName. unfold_monad.
  destruct g; [|exists "", []; split; reflexivity].
  cbn. destruct (groupMetadata sock chat) as [err|subject]; cbn;
    eexists _, _; split; reflexivity.
Qed.

Lemma extractMessageInfo_pure sock msg :
  exists info, forall s, extractMessageInfo sock msg s = (s, [], Return info).
Proof.
  destruct msg as [m|]; [|exists noMessageInfo; reflexivity].
  destruct (WA.key m) as [k|] eqn:Hk.
  - destruct (Js.truthy (remoteJid k)) eqn:Ht.
    + destruct (remoteJid k) as [jid|] eqn:Hj; [|discriminate].
      assert (jid <> "") as Hne by (intros ->; discriminate).
      exists (infoOf m jid). intros s. now apply (extractMessageInfo_named sock m k jid s).
    + exists noMessageInfo. intros s. apply extractMessageInfo_unnamed. now rewrite Hk.
  - exists noMessageInfo. intros s. apply extractMessageInfo_unnamed. now rewrite Hk.
Qed.

(** Of the state, [processCommand] reads the registry only, and it changes
    nothing. *)
Lemma processCommand_frame cfg sock m info s s' :
  commands s = commands s' ->
  exists t r,
    processCommand cfg sock m info s = (s, t, r)
    /\ processCommand cfg sock m info s' = (s', t, r).
Proof.
  intros Hc. unfold processCommand.
  destruct (body info) as [|b|props].
  - destruct (commandPrefixes cfg); eexists _, _; split; reflexivity.
  - destruct (parseCommand (commandPrefixes cfg) b) as [[command args]|];
      [|eexists _, _; split; reflexivity].
    unfold bind, get. cbv beta iota. rewrite <- Hc.
    destruct (negb (String.eqb command "")
              && bool_decide (is_Some (commands s !! command)));
      [|eexists _, _; split; reflexivity].
    destruct (resolveGroupName_pure sock (isGroup info) (from info))
      as (groupName & t & E & _).
    rewrite !E. unfold_monad. rewrite !runCommand_spec.
    eexists _, _; split; reflexivity.
  - destruct (commandPrefixes cfg); eexists _, _; split; reflexivity.
Qed.

Lemma acknowledgeAndDispatch_frame cfg sock m k s s' :
  commands s = commands s' ->
  exists t r,
    acknowledgeAndDispatch cfg sock m k s = (s, t, r)
    /\ acknowledgeAndDispatch cfg sock m k s' = (s', t, r).
Proof.
  intros Hc. unfold acknowledgeAndDispatch. unfold_monad. cbn.
  destruct (readMessages sock [k]); cbn; [eexists _, _; split; reflexivity|].
  destruct (extractMessageInfo_pure sock (Some m)) as [info E]. rewrite !E.
  destruct (negb (truthyVal (body info)) || String.eqb (from info) "");
    [eexists _, _; split; reflexivity|].
  destruct (processCommand_frame cfg sock m info s s' Hc) as (t & r & -> & ->).
  eexists _, _; split; reflexivity.
Qed.

(** ** The tokens of a body *)



















(** ** Tokens of a body of ASCII characters *)












(** ** The log line of a command *)


(** ** The loop over the messages of a batch *)

#[local] Arguments upsertLoop : simpl never.

Lemma bind_ext {A B} (m : M A) (k1 k2 : A -> M B) s :
  (forall a s', k1 a s' = k2 a s') -> bind m k1 s = bind m k2 s.
Proof.
  intros H. unfold bind. destruct (m s) as [[s1 t1] [a|e|c]]; [|reflexivity|reflexivity].
  now rewrite H.
Qed.

(** One turn of the loop, by the identifier of the message. *)
Lemma upsertLoop_cons cfg sock now m rest seen :
  upsertLoop cfg sock ((now, Some m) :: rest) seen
  = match batchId (Some m) with
    | Some i =>
        if bool_decide (i ∈ seen) then upsertLoop cfg sock rest seen
        else (handleIncomingMessage cfg now sock (Some m) ;;
              upsertLoop cfg sock rest ({[i]} ∪ seen))
    | None =>
        handleIncomingMessage cfg now sock (Some m) ;; upsertLoop cfg sock rest seen
    end.
Proof.
  unfold batchId. cbn [mbind option_bind]. unfold upsertLoop at 1. fold upsertLoop.
  destruct (WA.key m ≫= id) as [i|]; [|reflexivity].
  destruct (String.eqb i ""); reflexivity.
Qed.

(** A message whose identifier has been met is skipped, wherever it
    stands. *)
Lemma upsertLoop_skip cfg sock mid now m i rest seen s :
  batchId (Some m) = Some i -> i ∈ seen ->
  upsertLoop cfg sock (mid ++ (now, Some m) :: rest) seen s
  = upsertLoop cfg sock (mid ++ rest) seen s.
Proof.
  intros Hid. revert seen s.
  induction mid as [|[now' [m'|]] mid IH]; intros seen s Hin; cbn [app].
  - rewrite upsertLoop_cons, Hid, bool_decide_eq_true_2 by assumption. reflexivity.
  - rewrite !upsertLoop_cons.
    destruct (batchId (Some m')) as [j|].
    + destruct (bool_decide (j ∈ seen)); [now apply IH|].
      apply bind_ext. intros _ s'. apply IH. now apply elem_of_union_r.
    + apply bind_ext. intros _ s'. now apply IH.
  - reflexivity.
Qed.

Lemma upsertLoop_repeat cfg sock before now1 m1 mid now2 m2 after i seen s :
  batchId (Some m1) = Some i -> batchId (Some m2) = Some i ->
  upsertLoop cfg sock (before ++ (now1, Some m1) :: mid ++ (now2, Some m2) :: after) seen s
  = upsertLoop cfg sock (before ++ (now1, Some m1) :: mid ++ after) seen s.
Proof.
  intros H1 H2. revert seen s.
  induction before as [|[now' [m'|]] before IH]; intros seen s; cbn [app].
  - rewrite !upsertLoop_cons, H1.
    destruct (decide (i ∈ seen)) as [Hin|Hout].
    + rewrite bool_decide_eq_true_2 by assumption.
      now apply (upsertLoop_skip cfg sock mid now2 m2 i).
    + rewrite bool_decide_eq_false_2 by assumption.
      apply bind_ext. intros _ s'.
      apply (upsertLoop_skip cfg sock mid now2 m2 i); [assumption|].
      apply elem_of_union_l. now apply elem_of_singleton.
  - rewrite !upsertLoop_cons.
    destruct (batchId (Some m')) as [j|].
    + destruct (bool_decide (j ∈ seen)); [apply IH|].
      apply bind_ext. intros _ s'. apply IH.
    + apply bind_ext. intros _ s'. apply IH.
  - reflexivity.
Qed.

Lemma size_seen (i : string) (X seen : gset string) :
  i ∈ seen -> size (({[i]} ∪ X) ∖ seen) = size (X ∖ seen).
Proof.
  intros H. f_equal. apply set_eq. intros x.
  rewrite !elem_of_difference, elem_of_union, elem_of_singleton.
  split; [intros [[->|H1] H2]; [contradiction|auto]|intros [H1 H2]; auto].
Qed.

Lemma size_fresh (i : string) (X seen : gset string) :
  i ∉ seen -> size (({[i]} ∪ X) ∖ seen) = S (size (X ∖ ({[i]} ∪ seen))).
Proof.
  intros H.
  assert (({[i]} ∪ X) ∖ seen = {[i]} ∪ (X ∖ ({[i]} ∪ seen))) as ->.
  { apply set_eq. intros x.
    rewrite elem_of_difference, !elem_of_union, elem_of_difference, elem_of_union,
      elem_of_singleton.
    split.
    - intros [[->|H1] H2]; [auto|].
      destruct (decide (x = i)) as [->|Hne]; [auto|].
      right. split; [exact H1|]. intros [?|?]; contradiction.
    - intros [->|[H1 H2]]; [auto|]. split; [auto|]. intros H3. apply H2. auto. }
  rewrite size_union, size_singleton; [reflexivity|].
  intros x. rewrite elem_of_singleton, elem_of_difference, elem_of_union, elem_of_singleton.
  intros -> [_ H2]. apply H2. auto.
Qed.

(** The loop returns or throws; it calls one command at most for each
    identifier not met before, and for each message it cannot remember;
    of the state it changes the cache at most. *)
Lemma upsertLoop_bound cfg sock msgs seen s :
  exists s' t r,
    upsertLoop cfg sock msgs seen s = (s', t, r)
    /\ (r = Return tt \/ exists e : JsError, r = Throw e)
    /\ commands s' = commands s
    /\ reconnectAttempts s' = reconnectAttempts s
    /\ count isTimer t = 0%nat
    /\ (count isExecute t <= size (batchIds msgs ∖ seen) + length (unnamed msgs))%nat.
Proof.
  revert seen s. induction msgs as [|[now [m|]] rest IH]; intros seen s.
  - exists s, [], (Return tt). repeat split; auto. cbn. lia.
  - rewrite upsertLoop_cons.
    assert (forall seen',
              (1 + (size (batchIds rest ∖ seen') + length (unnamed rest))
               <= size (batchIds ((now, Some m) :: rest) ∖ seen)
                  + length (unnamed ((now, Some m) :: rest)))%nat ->
              exists s' t r,
                (handleIncomingMessage cfg now sock (Some m) ;;
                 upsertLoop cfg sock rest seen') s = (s', t, r)
                /\ (r = Return tt \/ exists e : JsError, r = Throw e)
                /\ commands s' = commands s
                /\ reconnectAttempts s' = reconnectAttempts s
                /\ count isTimer t = 0%nat
                /\ (count isExecute t
                    <= size (batchIds ((now, Some m) :: rest) ∖ seen)
                       + length (unnamed ((now, Some m) :: rest)))%nat) as Hstep.
    { intros seen' Hle.
      pose proof (X := handle_shape cfg now sock (Some m) s).
      destruct X as (s1 & t1 & E1 & Hs1 & _).
      pose proof (handle_execute_once cfg now sock (Some m) s) as Hone.
      assert (count isTimer t1 = 0%nat) as Htimer1.
      { destruct (handle_shape cfg now sock (Some m) s) as (s1' & t1' & E1' & _ & Ht).
        rewrite E1 in E1'. injection E1' as <- <-.
        destruct Ht as [Hq|(m0 & _ & pre & b & command & args & cmd & k & jid
                             & _ & _ & _ & _ & _ & _ & _ & Hq & ->)].
        - now apply count_quiet_timer.
        - rewrite count_app, (count_quiet_timer pre Hq), count_timer_callTrace. reflexivity. }
      rewrite E1 in Hone. unfold traceOf in Hone. cbn [fst snd] in Hone.
      destruct (IH seen' s1) as (s2 & t2 & r2 & E2 & Hr2 & Hc2 & Hn2 & Htimer2 & Hcount2).
      exists s2, (t1 ++ t2), r2. unfold bind. rewrite E1, E2.
      split; [reflexivity|]. split; [exact Hr2|].
      assert (commands s1 = commands s /\ reconnectAttempts s1 = reconnectAttempts s)
        as [Hc1 Hn1].
      { destruct Hs1 as [->|(m0 & k & i & _ & _ & _ & -> & _)]; split; reflexivity. }
      split; [congruence|]. split; [congruence|].
      rewrite !count_app. split; [lia|]. lia. }
    unfold batchIds, unnamed in *. cbn [omap list_omap List.filter snd] in *.
    destruct (batchId (Some m)) as [i|] eqn:Hid; cbn [list_to_set] in *.
    + destruct (decide (i ∈ seen)) as [Hin|Hout].
      * rewrite bool_decide_eq_true_2 by assumption.
        destruct (IH seen s) as (s2 & t2 & r2 & E2 & Hr2 & Hc2 & Hn2 & Htimer2 & Hcount2).
        exists s2, t2, r2. repeat (split; [assumption|]).
        rewrite bool_decide_eq_false_2 by discriminate.
        rewrite size_seen by assumption. exact Hcount2.
      * rewrite bool_decide_eq_false_2 by assumption.
        apply Hstep.
        rewrite bool_decide_eq_false_2 by discriminate.
        rewrite size_fresh by assumption. lia.
    + apply Hstep. rewrite bool_decide_eq_true_2 by reflexivity. cbn [length]. lia.
  - exists s, [], (Throw (TypeError "Cannot read properties of undefined (reading 'key')")).
    repeat split; eauto. cbn. lia.
Qed.

(** A batch of type [notify] that is not empty runs the loop. *)
Lemma onMessagesUpsert_notify cfg sock msgs s :
  msgs <> [] ->
  onMessagesUpsert cfg sock (batchOf (Some "notify") msgs) s
  = tryCatch (upsertLoop cfg sock msgs ∅ ;; ret true)
      (fun err => AzusaLog.handleError err "Error in messages.upsert handler" ;; ret true) s.
Proof.
  intros Hne. unfold onMessagesUpsert, batchOf. cbn [ChatUpdate.messages ChatUpdate.type].
  destruct msgs; [contradiction|]. reflexivity.
Qed.

(** Any other batch is left alone. *)
Lemma onMessagesUpsert_ignored cfg sock chatUpdate s :
  ChatUpdate.type chatUpdate <> Some "notify"
  \/ ChatUpdate.messages chatUpdate = None
  \/ ChatUpdate.messages chatUpdate = Some [] ->
  onMessagesUpsert cfg sock chatUpdate s = (s, [], Return false).
Proof.
  intros H. unfold onMessagesUpsert.
  destruct (ChatUpdate.messages chatUpdate) as [[|p msgs]|]; try reflexivity.
  destruct H as [H|[H|H]]; try discriminate.
  rewrite bool_decide_eq_false_2 by assumption. reflexivity.
Qed.

(** ** The cache of group metadata *)

Lemma string_app_assoc (a b c : string) : ((a ++ b) ++ c = a ++ b ++ c)%string.
Proof.
  induction a as [|x a IH]; [reflexivity|].
  change (String x ((a ++ b) ++ c) = String x (a ++ b ++ c))%string. now rewrite IH.
Qed.

Lemma groupCache_get_set_same now now' gc jid v :
  GroupCache.get now' (GroupCache.set now gc jid v) jid
  = if (now + groupTtlMs <? now')%Z then None else Some v.
Proof. unfold GroupCache.get, GroupCache.set. now rewrite lookup_insert_eq. Qed.

Lemma groupCache_get_set_other now now' gc jid other v :
  other <> jid ->
  GroupCache.get now' (GroupCache.set now gc jid v) other = GroupCache.get now' gc other.
Proof.
  intros H. unfold GroupCache.get, GroupCache.set. now rewrite lookup_insert_ne.
Qed.

Lemma groupCache_get_del_same now gc jid : GroupCache.get now (GroupCache.del gc jid) jid = None.
Proof. unfold GroupCache.get, GroupCache.del. now rewrite lookup_delete_eq. Qed.

Lemma groupCache_get_del_other now gc jid other :
  other <> jid ->
  GroupCache.get now (GroupCache.del gc jid) other = GroupCache.get now gc other.
Proof.
  intros H. unfold GroupCache.get, GroupCache.del. now rewrite lookup_delete_ne.
Qed.

(** The two handlers of group events, case by case. *)
Lemma handleGroupUpdate_run sock now event gc s :
  handleGroupUpdate sock now event gc s
  = match event ≫= groupId with
    | Some jid =>
        if String.eqb jid "" then (s, [], Return gc)
        else
          match groupMetadata sock jid with
          | inr subject =>
              (s, [EGroupMetadata jid], Return (GroupCache.set now gc jid (metadataWith subject)))
          | inl err =>
              (s, [EGroupMetadata jid;
                   ELog "danger" ("Failed to update metadata for group " ++ jid ++ ": "
                                  ++ Js.render (errMessage err))],
               Return (GroupCache.del gc jid))
          end
    | None => (s, [], Return gc)
    end.
Proof.
  unfold handleGroupUpdate, groupMetadataObject, metadataWith.
  destruct event as [[[jid|]]|]; cbn; try reflexivity.
  destruct (String.eqb jid ""); cbn; [reflexivity|].
  unfold_monad.
  destruct (groupMetadata sock jid) as [err|subject]; cbn; [|reflexivity].
  rewrite string_app_assoc. reflexivity.
Qed.

Lemma handleGroupParticipantUpdate_run sock now event gc s :
  handleGroupParticipantUpdate sock now event gc s
  = match event ≫= groupId with
    | Some jid =>
        if String.eqb jid "" then (s, [], Return gc)
        else
          match groupMetadata sock jid with
          | inr subject =>
              (s, [EGroupMetadata jid], Return (GroupCache.set now gc jid (metadataWith subject)))
          | inl err =>
              (s, [EGroupMetadata jid;
                   ELog "danger" ("Failed to update participants for group " ++ jid ++ ": "
                                  ++ Js.render (errMessage err))],
               Return gc)
          end
    | None => (s, [], Return gc)
    end.
Proof.
  unfold handleGroupParticipantUpdate, groupMetadataObject, metadataWith.
  destruct event as [[[jid|]]|]; cbn; try reflexivity.
  destruct (String.eqb jid ""); cbn; [reflexivity|].
  unfold_monad.
  destruct (groupMetadata sock jid) as [err|subject]; cbn; [|reflexivity].
  rewrite string_app_assoc. reflexivity.
Qed.

Lemma cachedGroupMetadata_run now gc jid s :
  cachedGroupMetadata now gc jid s = (s, [], Return (default JNull (GroupCache.get now gc jid))).
Proof. reflexivity. Qed.

(** ** Loading, and the watcher *)

(** What the loader logs and returns does not depend on the state, which it
    leaves as it is. *)
Lemma loadCommands_pure env dir :
  exists t reg, forall s, loadCommands env dir s = (s, t, Return reg).
Proof.
  destruct (existsSync env) eqn:Hex.
  - destruct (readdirSync env) as [error|entries] eqn:Hdir.
    + eexists _, _. intros s. unfold loadCommands. unfold_monad. rewrite Hex, Hdir.
      cbn. reflexivity.
    + eexists _, _. intros s. apply (loadCommands_run env dir s entries Hex Hdir).
  - destruct (mkdirSync env) eqn:Hmk; eexists _, _; intros s;
      unfold loadCommands; unfold_monad; rewrite Hex, Hmk; cbn; reflexivity.
Qed.

Lemma elem_of_filter_ne (f g : string) (l : list string) :
  g ∈ List.filter (fun x => negb (String.eqb x f)) l <-> g ∈ l /\ g <> f.
Proof.
  rewrite !list_elem_of_In, List.filter_In, negb_true_iff.
  destruct (String.eqb_spec g f); intuition congruence.
Qed.

(** A change of a file that is being reloaded is dropped. *)
Lemma onCommandsChange_pending f s :
  f ∈ processingFiles s -> onCommandsChange (Some f) s = (s, [], Return tt).
Proof.
  intros Hin. unfold onCommandsChange.
  destruct (negb (String.eqb f "") && Js.endsWith f ".js"); [|reflexivity].
  unfold_monad. rewrite bool_decide_eq_true_2 by assumption. reflexivity.
Qed.

(** A change of a command file that is not: the reload is scheduled. *)
Lemma onCommandsChange_accepted f s :
  f <> "" -> Js.endsWith f ".js" = true -> f ∉ processingFiles s ->
  onCommandsChange (Some f) s
  = (setProcessingFiles (f :: processingFiles s) s,
     [ELog "info" ("Detected change in " ++ f ++ ", reloading commands...");
      ESetTimeout (ReloadCommands f) 500],
     Return tt).
Proof.
  intros Hne Hjs Hout. unfold onCommandsChange.
  destruct (String.eqb_spec f ""); [contradiction|]. rewrite Hjs. cbn [negb andb].
  unfold_monad. rewrite bool_decide_eq_false_2 by assumption. reflexivity.
Qed.

(** The reload, in terms of what the loader returns. *)
Lemma reloadCommands_run cfg env f s t reg :
  loadCommands env (commandsPath cfg) s = (s, t, Return reg) ->
  reloadCommands cfg env f s
  = (setProcessingFiles
       (List.filter (fun x => negb (String.eqb x f)) (processingFiles s))
       (setCommands reg s),
     t ++ [ELog "success" ("Commands reloaded successfully. Total: " ++ pretty (size reg))],
     Return tt).
Proof.
  intros E. unfold reloadCommands. unfold_monad. rewrite E. cbn. rewrite app_nil_r.
  reflexivity.
Qed.

Lemma initializeCommands_run cfg env s t reg :
  loadCommands env (commandsPath cfg) s = (s, t, Return reg) ->
  initializeCommands cfg env s
  = (setCommands reg s,
     t ++ [ELog "success" ("Successfully loaded " ++ pretty (size reg) ++ " commands.")],
     Return tt).
Proof.
  intros E. unfold initializeCommands. unfold_monad. rewrite E. reflexivity.
Qed.

(** ** Every update of the connection *)

Lemma connecting_logs loggedOut fs sock update s :
  update ≫= connection = Some "connecting" ->
  handleConnectionUpdate loggedOut fs sock update s
  = (s, [ELog "info" "Connecting to WhatsApp..."], Return tt).
Proof.
  intros Hc. unfold handleConnectionUpdate. unfold_monad. rewrite Hc.
  rewrite bool_decide_eq_false_2 by discriminate.
  rewrite bool_decide_eq_true_2 by reflexivity. reflexivity.
Qed.

Lemma other_update_ignored loggedOut fs sock update s :
  update ≫= connection <> Some "close" ->
  update ≫= connection <> Some "connecting" ->
  update ≫= connection <> Some "open" ->
  handleConnectionUpdate loggedOut fs sock update s = (s, [], Return tt).
Proof.
  intros H1 H2 H3. unfold handleConnectionUpdate. unfold_monad.
  rewrite !bool_decide_eq_false_2 by assumption. reflexivity.
Qed.

Lemma timersOf_app t1 t2 : timersOf (t1 ++ t2) = timersOf t1 ++ timersOf t2.
Proof. unfold timersOf. apply List.filter_app. Qed.

(** Closes in a row, none of them permanent. *)
Lemma handleUpdates_closes loggedOut fs sock updates s :
  Forall (isTransientClose loggedOut) updates ->
  (reconnectAttempts s <= MAX_RECONNECT_ATTEMPTS)%nat ->
  let run := handleUpdates loggedOut fs sock updates s in
  let left := (MAX_RECONNECT_ATTEMPTS - reconnectAttempts s)%nat in
  timersOf (traceOf run)
  = reconnections (S (reconnectAttempts s)) (Nat.min (length updates) left)
  /\ sessionFiles (stateOf run) = sessionFiles s
  /\ ((length updates <= left)%nat ->
      resultOf run = Return tt
      /\ reconnectAttempts (stateOf run) = (reconnectAttempts s + length updates)%nat)
  /\ ((left < length updates)%nat ->
      resultOf run = ProcessExit 1
      /\ reconnectAttempts (stateOf run) = MAX_RECONNECT_ATTEMPTS).
Proof.
  intros Hall. revert s. unfold reconnections.
  induction Hall as [|update rest [Hc Hp] Hrest IH]; intros s Hle; cbn zeta.
  - cbn. rewrite Nat.add_0_r. repeat split; auto; lia.
  - cbn [handleUpdates length]. unfold bind.
    destruct (Nat.lt_ge_cases (reconnectAttempts s) MAX_RECONNECT_ATTEMPTS) as [Hlt|Hge].
    + rewrite (close_transient_retry loggedOut fs sock update s Hc Hp Hlt).
      set (s1 := setReconnectAttempts (S (reconnectAttempts s)) s).
      specialize (IH s1 Hlt). cbn zeta in IH.
      destruct (handleUpdates loggedOut fs sock rest s1) as [[s2 t2] r2].
      unfold traceOf, stateOf, resultOf in *. cbn [fst snd] in *.
      change (reconnectAttempts s1) with (S (reconnectAttempts s)) in IH.
      change (sessionFiles s1) with (sessionFiles s) in IH.
      destruct IH as (Htimers & Hfiles & Hret & Hexit).
      change (?a :: ?b :: ?c :: t2) with ([a; b; c] ++ t2).
      rewrite timersOf_app, Htimers.
      replace (Nat.min (S (length rest)) (MAX_RECONNECT_ATTEMPTS - reconnectAttempts s))
        with (S (Nat.min (length rest) (MAX_RECONNECT_ATTEMPTS - S (reconnectAttempts s))))
        by lia.
      split; [reflexivity|]. split; [exact Hfiles|]. split.
      * intros Hlen. destruct Hret as [-> ->]; [lia|]. split; [reflexivity|lia].
      * intros Hlen. destruct Hexit as [-> ->]; [lia|]. split; reflexivity.
    + rewrite (close_transient_give_up loggedOut fs sock update s Hc Hp Hge).
      unfold traceOf, stateOf, resultOf. cbn [fst snd].
      replace (MAX_RECONNECT_ATTEMPTS - reconnectAttempts s)%nat with 0%nat by lia.
      rewrite Nat.min_0_r. split; [reflexivity|]. split; [reflexivity|]. split.
      * intros Hlen. lia.
      * intros _. split; [reflexivity|lia].
Qed.

(** ** The pairing code *)

Lemma string_app_nil_r (a : string) : (a ++ "")%string = a.
Proof.
  induction a as [|x a IH]; [reflexivity|].
  change (String x (a ++ "") = String x a)%string. now rewrite IH.
Qed.

Lemma rev_app_spec s acc : String.rev_app s acc = (String.rev s ++ acc)%string.
Proof.
  unfold String.rev. revert acc. induction s as [|c s IH]; intros acc; [reflexivity|].
  cbn [String.rev_app]. rewrite IH, (IH (String c "")), string_app_assoc. reflexivity.
Qed.

Lemma rev_cons c s : String.rev (String c s) = (String.rev s ++ String c "")%string.
Proof. unfold String.rev at 1. cbn [String.rev_app]. apply rev_app_spec. Qed.

Lemma length_app (a b : string) :
  String.length (a ++ b) = (String.length a + String.length b)%nat.
Proof.
  induction a as [|x a IH]; [reflexivity|].
  change (S (String.length (a ++ b)) = S (String.length a + String.length b)). now rewrite IH.
Qed.

Lemma length_rev s : String.length (String.rev s) = String.length s.
Proof.
  induction s as [|c s IH]; [reflexivity|].
  rewrite rev_cons, length_app, IH. cbn. lia.
Qed.

Lemma withoutDashes_app (a b : string) :
  withoutDashes (a ++ b) = (withoutDashes a ++ withoutDashes b)%string.
Proof.
  induction a as [|x a IH]; [reflexivity|].
  change (withoutDashes (String x (a ++ b))
          = (withoutDashes (String x a) ++ withoutDashes b)%string).
  cbn [withoutDashes]. rewrite IH. destruct (Ascii.eqb x "-"); reflexivity.
Qed.

(** Joining with dashes adds dashes only. *)
Lemma withoutDashes_concat chunks :
  withoutDashes (String.concat "-" chunks) = withoutDashes (String.concat "" chunks).
Proof.
  induction chunks as [|c [|c' rest] IH]; [reflexivity|reflexivity|].
  change (String.concat "-" (c :: c' :: rest))
    with (c ++ "-" ++ String.concat "-" (c' :: rest))%string.
  change (String.concat "" (c :: c' :: rest))
    with (c ++ "" ++ String.concat "" (c' :: rest))%string.
  rewrite !withoutDashes_app, IH. reflexivity.
Qed.

Lemma Forall_removelast_cons {A} (P : A -> Prop) x l :
  P x -> Forall P (removelast l) -> Forall P (removelast (x :: l)).
Proof.
  intros Hx Hl. cbn [removelast]. destruct l; [constructor|]. now constructor.
Qed.

Lemma concat_cons_nonempty c chunks :
  String.concat "" (c :: chunks) = (c ++ String.concat "" chunks)%string.
Proof.
  destruct chunks as [|c' rest]; [cbn; now rewrite string_app_nil_r|reflexivity].
Qed.

(** The runs of a string without line terminator: put end to end they
    give the string back; all have four characters, but the last, which
    has one to four. *)
Lemma matchChunks_go_spec s cur :
  hasLineTerminator s = false ->
  (String.length cur < 4)%nat ->
  String.concat "" (matchChunks_go s cur) = (String.rev cur ++ s)%string
  /\ Forall (fun c => String.length c = 4%nat) (removelast (matchChunks_go s cur))
  /\ Forall (fun c => (1 <= String.length c <= 4)%nat) (matchChunks_go s cur).
Proof.
  revert cur. induction s as [|c s IH]; intros cur Hlt Hcur.
  - cbn [matchChunks_go]. destruct (String.eqb_spec cur "") as [->|Hne].
    + repeat split; constructor.
    + cbn [String.concat removelast]. rewrite string_app_nil_r.
      split; [reflexivity|]. split; [constructor|].
      constructor; [|constructor]. rewrite length_rev.
      destruct cur; [contradiction|]. cbn in *. lia.
  - cbn [hasLineTerminator] in Hlt. apply orb_false_iff in Hlt. destruct Hlt as [Hc Hs].
    cbn [matchChunks_go]. rewrite Hc.
    destruct (Nat.eqb_spec (String.length (String c cur)) 4) as [Hfull|Hnot].
    + destruct (IH "" Hs ltac:(cbn; lia)) as (Hcat & Hfour & Hall).
      rewrite concat_cons_nonempty, Hcat.
      change (String.rev "" ++ s)%string with s.
      split; [|split].
      * rewrite rev_cons, string_app_assoc. reflexivity.
      * apply Forall_removelast_cons; [|exact Hfour]. now rewrite length_rev.
      * constructor; [|exact Hall]. rewrite length_rev. lia.
    + assert (String.length (String c cur) < 4)%nat as Hlt' by (cbn in *; lia).
      destruct (IH (String c cur) Hs Hlt') as (Hcat & Hfour & Hall).
      rewrite Hcat, rev_cons, string_app_assoc. auto.
Qed.

Lemma matchChunks_nonempty s : s <> "" -> hasLineTerminator s = false -> matchChunks s <> [].
Proof.
  intros Hne Hlt E.
  destruct (matchChunks_go_spec s "" Hlt ltac:(cbn; lia)) as (Hcat & _).
  unfold matchChunks in E. rewrite E in Hcat. change ("" = s) in Hcat. congruence.
Qed.

Lemma digitsOnly_idem s : digitsOnly (digitsOnly s) = digitsOnly s.
Proof.
  induction s as [|c s IH]; [reflexivity|]. cbn [digitsOnly].
  destruct ((48 <=? nat_of_ascii c) && (nat_of_ascii c <=? 57))%nat eqn:E; [|exact IH].
  cbn [digitsOnly]. now rewrite E, IH.
Qed.

(** The pairing, case by case. *)
Lemma setupPairingCode_run env s :
  setupPairingCode env s
  = let raw := digitsOnly (typed env) in
    match parsePhoneNumber env ("+" ++ raw) with
    | inr (true, number) =>
        match requestPairingCode env raw with
        | inl err =>
            (s, [ELog "info" ("Bot Number: " ++ number);
                 ELog "danger" ("Error requesting pairing code: " ++ Js.render (errMessage err))],
             ProcessExit 1)
        | inr pairingCode =>
            if Js.truthy pairingCode then
              match formatPairingCode (Js.orElse pairingCode "") with
              | inl err =>
                  (s, [ELog "info" ("Bot Number: " ++ number);
                       ELog "danger"
                         ("Error requesting pairing code: " ++ Js.render (errMessage err))],
                   ProcessExit 1)
              | inr shown =>
                  (s, [ELog "info" ("Bot Number: " ++ number);
                       ELog "info" ("Pairing Code: " ++ shown)],
                   Return tt)
              end
            else
              (s, [ELog "info" ("Bot Number: " ++ number);
                   ELog "danger" "Error requesting pairing code: Failed to get pairing code"],
               ProcessExit 1)
        end
    | _ =>
        (s, [ELog "error"
               "Invalid number. Start with your country's WhatsApp code, e.g., 628xxx"],
         ProcessExit 1)
    end.
Proof.
  unfold setupPairingCode. cbv zeta. unfold_monad.
  destruct (parsePhoneNumber env _) as [err|[[|] number]]; cbn; try reflexivity.
  destruct (requestPairingCode env _) as [err|pairingCode]; cbn; [reflexivity|].
  destruct (Js.truthy pairingCode); cbn; [|reflexivity].
  destruct (formatPairingCode _); reflexivity.
Qed.

(** ** The message helper *)

Lemma getPropStrict_getProp v name :
  orEmpty (getProp v name)
  = match MessageHelper.getPropStrict v name with
    | inr w => orEmpty w
    | inl _ => JStr ""
    end.
Proof. destruct v; reflexivity. Qed.

(** The body the dispatcher extracts, in terms of [getMessageBody]. *)
Lemma bodyOf_getMessageBody m :
  bodyOf (default [] (WA.message m))
    (Js.orElse (head (map fst (default [] (WA.message m)))) "")
  = match MessageHelper.getMessageBody m with
    | inr v => orEmpty v
    | inl _ => JStr ""
    end.
Proof.
  unfold MessageHelper.getMessageBody, bodyOf.
  destruct (WA.message m) as [message|]; [|reflexivity].
  change (default [] (Some message)) with message.
  set (ty := Js.orElse (head (map fst message)) "").
  repeat (match goal with
          | |- context [String.eqb ty ?x] => destruct (String.eqb ty x)
          end; [try apply getPropStrict_getProp; try reflexivity|]).
  2: reflexivity.
  destruct (lookupProp message "listResponseMessage") as [|str|props]; try reflexivity.
  cbn [MessageHelper.getPropStrict getProp].
  apply getPropStrict_getProp.
Qed.

Lemma beforeAt_app number rest :
  hasAt number = false -> MessageHelper.beforeAt (number ++ String "@" rest) = number.
Proof.
  induction number as [|c number IH]; intros H; [reflexivity|].
  cbn [hasAt] in H. apply orb_false_iff in H. destruct H as [Hc Hn].
  change (MessageHelper.beforeAt (String c (number ++ String "@" rest)) = String c number).
  cbn [MessageHelper.beforeAt]. rewrite Hc, IH by assumption. reflexivity.
Qed.

Lemma beforeAt_none jid : hasAt jid = false -> MessageHelper.beforeAt jid = jid.
Proof.
  induction jid as [|c jid IH]; intros H; [reflexivity|].
  cbn [hasAt] in H. apply orb_false_iff in H. destruct H as [Hc Hn].
  cbn [MessageHelper.beforeAt]. rewrite Hc, IH by assumption. reflexivity.
Qed.

Lemma existsb_eqb_In (x : string) l : existsb (String.eqb x) l = true <-> In x l.
Proof.
  rewrite existsb_exists. split.
  - intros (y & Hy & E). apply String.eqb_eq in E. now subst.
  - intros H. exists x. split; [exact H|apply String.eqb_refl].
Qed.

(** ** What the loader reads of the directory *)

Lemma loadCommandFiles_ext env env' files cmds s :
  Forall (fun file => import env file = import env' file) files ->
  loadCommandFiles env files cmds s = loadCommandFiles env' files cmds s.
Proof.
  intros Hall. rewrite !loadCommandFiles_spec. revert cmds.
  induction Hall as [|file rest Hfile Hrest IH]; intros cmds; [reflexivity|].
  cbn [reached loopFault]. rewrite Hfile.
  destruct (import env' file) as [[v|e]|x] eqn:Himp; [reflexivity| |];
    cbn [flat_map foldl];
    (assert (fileLog env file = fileLog env' file) as ->
       by (unfold fileLog; now rewrite Hfile, Himp));
    (assert (installFile env cmds file = installFile env' cmds file) as ->
       by (unfold installFile, unitOf; now rewrite Hfile, Himp));
    specialize (IH (installFile env' cmds file)); injection IH as -> -> ->; reflexivity.
Qed.


(** ** The parts of the handler of a batch *)

(** The [messages.upsert] part never throws; its calls are bounded by the
    identifiers of the batch. *)
Lemma onMessagesUpsert_shape cfg sock chatUpdate s :
  let run := onMessagesUpsert cfg sock chatUpdate s in
  let msgs := default [] (ChatUpdate.messages chatUpdate) in
  (exists goOn, resultOf run = Return goOn)
  /\ commands (stateOf run) = commands s
  /\ reconnectAttempts (stateOf run) = reconnectAttempts s
  /\ count isTimer (traceOf run) = 0%nat
  /\ (count isExecute (traceOf run) <= size (batchIds msgs) + length (unnamed msgs))%nat.
Proof.
  intros run msgs.
  destruct (decide (ChatUpdate.type chatUpdate = Some "notify")) as [Hty|Hty].
  2:{ subst run. rewrite onMessagesUpsert_ignored by (left; exact Hty).
      unfold resultOf, stateOf, traceOf. cbn. repeat split; eauto. lia. }
  destruct (ChatUpdate.messages chatUpdate) as [[|p rest]|] eqn:Hm.
  1,3: subst run; rewrite onMessagesUpsert_ignored by (rewrite Hm; auto);
       unfold resultOf, stateOf, traceOf; cbn; repeat split; eauto; lia.
  assert (chatUpdate = batchOf (Some "notify") (p :: rest)) as E.
  { destruct chatUpdate. cbn in *. unfold batchOf. congruence. }
  subst run msgs. change (default [] (Some (p :: rest))) with (p :: rest). rewrite E.
  rewrite onMessagesUpsert_notify by discriminate.
  destruct (upsertLoop_bound cfg sock (p :: rest) ∅ s)
    as (s' & t & r & El & Hr & Hc & Hn & Htimer & Hcount).
  assert (batchIds (p :: rest) ∖ ∅ = batchIds (p :: rest)) as Hd.
  { apply set_eq. intros x. rewrite elem_of_difference, elem_of_empty. tauto. }
  rewrite Hd in Hcount.
  unfold tryCatch, bind. rewrite El.
  destruct Hr as [->|[e ->]]; unfold_monad; unfold resultOf, stateOf, traceOf; cbn [fst snd].
  - rewrite app_nil_r. repeat split; eauto.
  - cbn [app]. rewrite (count_app isTimer t), (count_app isExecute t).
    change (count isTimer [ELog ?a ?b]) with 0%nat.
    change (count isExecute [ELog ?a ?b]) with 0%nat.
    repeat split; eauto; lia.
Qed.

(** Every run of [handleConnectionUpdate]. *)
Lemma handleConnectionUpdate_shape loggedOut fs sock update s :
  let run := handleConnectionUpdate loggedOut fs sock update s in
  (resultOf run = Return tt \/ resultOf run = ProcessExit 1)
  /\ commands (stateOf run) = commands s
  /\ processedMessagesCache (stateOf run) = processedMessagesCache s
  /\ count isExecute (traceOf run) = 0%nat
  /\ count isSend (traceOf run) = 0%nat
  /\ (timersOf (traceOf run) = []
      \/ ((reconnectAttempts s < MAX_RECONNECT_ATTEMPTS)%nat
          /\ resultOf run = Return tt
          /\ reconnectAttempts (stateOf run) = S (reconnectAttempts s)
          /\ timersOf (traceOf run)
             = [ESetTimeout Reconnect (reconnectDelay (S (reconnectAttempts s)))]
          /\ (reconnectDelay (S (reconnectAttempts s))
              == 1000 * (3 # 2) ^ Z.of_nat (S (reconnectAttempts s)))%Q
          /\ (reconnectDelay (S (reconnectAttempts s)) < 60000)%Q))
  /\ ((reconnectAttempts s <= MAX_RECONNECT_ATTEMPTS)%nat ->
      (reconnectAttempts (stateOf run) <= MAX_RECONNECT_ATTEMPTS)%nat).
Proof.
  intros run. subst run.
  destruct (decide (update ≫= connection = Some "close")) as [Hc|Hc].
  - destruct (isPermanentClose loggedOut (statusOr500 (update ≫= statusCode))) eqn:Hp.
    + destruct (close_permanent loggedOut fs sock update s Hc Hp)
        as (files & t & ok & Ecreds & ->).
      destruct (removeCreds_shape fs s) as (files' & t' & ok' & E' & Hshape).
      rewrite Ecreds in E'. injection E' as <- <- <-.
      unfold resultOf, stateOf, traceOf. cbn [fst snd].
      assert (t = [] \/ exists err, t = [removalFailed err]) as Ht.
      { destruct Hshape as [(_ & _ & -> & _)|(_ & err & -> & _)]; eauto. }
      repeat split; auto;
        destruct Ht as [->|[err ->]], ok; try reflexivity; left; reflexivity.
    + destruct (Nat.lt_ge_cases (reconnectAttempts s) MAX_RECONNECT_ATTEMPTS) as [Hlt|Hge].
      * rewrite (close_transient_retry loggedOut fs sock update s Hc Hp Hlt).
        unfold resultOf, stateOf, traceOf. cbn [fst snd].
        destruct (reconnectDelay_below_cap (S (reconnectAttempts s)) Hlt) as [Heq Hcap].
        repeat split; auto. right. repeat split; auto.
      * rewrite (close_transient_give_up loggedOut fs sock update s Hc Hp Hge).
        unfold resultOf, stateOf, traceOf. cbn [fst snd]. repeat split; auto.
  - destruct (decide (update ≫= connection = Some "connecting")) as [Hg|Hg].
    { rewrite (connecting_logs loggedOut fs sock update s Hg).
      unfold resultOf, stateOf, traceOf. cbn [fst snd]. repeat split; auto. }
    destruct (decide (update ≫= connection = Some "open")) as [Ho|Ho].
    { rewrite (open_resets loggedOut fs sock update s Ho).
      unfold resultOf, stateOf, traceOf. cbn [fst snd]. repeat split; auto.
      intros _. cbn. unfold MAX_RECONNECT_ATTEMPTS. lia. }
    rewrite (other_update_ignored loggedOut fs sock update s Hc Hg Ho).
    unfold resultOf, stateOf, traceOf. cbn [fst snd]. repeat split; auto.
Qed.

(** The process only exits on a close. *)
Lemma exit_only_on_close loggedOut fs sock update s code :
  resultOf (handleConnectionUpdate loggedOut fs sock update s) = ProcessExit code ->
  update ≫= connection = Some "close".
Proof.
  intros H.
  destruct (decide (update ≫= connection = Some "close")) as [Hc|Hc]; [exact Hc|].
  exfalso. revert H.
  destruct (decide (update ≫= connection = Some "connecting")) as [Hg|Hg].
  { rewrite (connecting_logs loggedOut fs sock update s Hg). discriminate. }
  destruct (decide (update ≫= connection = Some "open")) as [Ho|Ho].
  { rewrite (open_resets loggedOut fs sock update s Ho). discriminate. }
  rewrite (other_update_ignored loggedOut fs sock update s Hc Hg Ho). discriminate.
Qed.

(** The handlers of the group events return, leave the state alone, and
    are quiet. *)
Lemma handleGroupUpdate_quiet sock now event gc s :
  exists gc' t,
    handleGroupUpdate sock now event gc s = (s, t, Return gc') /\ forallb isQuiet t = true.
Proof.
  rewrite handleGroupUpdate_run.
  destruct (event ≫= groupId) as [jid|]; [|eexists _, _; split; reflexivity].
  destruct (String.eqb jid ""); [eexists _, _; split; reflexivity|].
  destruct (groupMetadata sock jid); eexists _, _; split; reflexivity.
Qed.

Lemma handleGroupParticipantUpdate_quiet sock now event gc s :
  exists gc' t,
    handleGroupParticipantUpdate sock now event gc s = (s, t, Return gc')
    /\ forallb isQuiet t = true.
Proof.
  rewrite handleGroupParticipantUpdate_run.
  destruct (event ≫= groupId) as [jid|]; [|eexists _, _; split; reflexivity].
  destruct (String.eqb jid ""); [eexists _, _; split; reflexivity|].
  destruct (groupMetadata sock jid); eexists _, _; split; reflexivity.
Qed.

Lemma groupsLoop_quiet sock groupEvents gc s :
  exists gc' t,
    groupsLoop sock groupEvents gc s = (s, t, Return gc') /\ forallb isQuiet t = true.
Proof.
  revert gc. induction groupEvents as [|[now event] rest IH]; intros gc.
  - exists gc, []. split; reflexivity.
  - cbn [groupsLoop]. unfold bind.
    destruct (handleGroupUpdate_quiet sock now event gc s) as (gc1 & t1 & -> & Hq1).
    destruct (IH gc1) as (gc2 & t2 & -> & Hq2).
    exists gc2, (t1 ++ t2). split; [reflexivity|]. now rewrite forallb_app, Hq1, Hq2.
Qed.

(** The handler of a batch of events, part by part. *)
Lemma processEvents_shape cfg loggedOut fs sock saveCreds events groupCache s :
  let run := processEvents cfg loggedOut fs sock saveCreds events groupCache s in
  let bound :=
    match messagesUpsert events with
    | Some chatUpdate =>
        let msgs := default [] (ChatUpdate.messages chatUpdate) in
        (size (batchIds msgs) + length (unnamed msgs))%nat
    | None => 0%nat
    end in
  ((exists groupCache', resultOf run = Return groupCache') \/ resultOf run = ProcessExit 1)
  /\ (resultOf run = ProcessExit 1 -> connectionUpdate events ≫= connection = Some "close")
  /\ commands (stateOf run) = commands s
  /\ (count isTimer (traceOf run) <= 1)%nat
  /\ (count isExecute (traceOf run) <= bound)%nat.
Proof.
  intros run bound.
  enough (exists sF tF rF,
            run = (sF, tF, rF)
            /\ ((exists groupCache', rF = Return groupCache') \/ rF = ProcessExit 1)
            /\ (rF = ProcessExit 1 -> connectionUpdate events ≫= connection = Some "close")
            /\ commands sF = commands s
            /\ (count isTimer tF <= 1)%nat
            /\ (count isExecute tF <= bound)%nat) as (sF & tF & rF & -> & H) by exact H.
  subst run. unfold processEvents.
  (* the credentials *)
  set (creds := if credsUpdate events then _ else _).
  assert (exists t0, creds s = (s, t0, Return tt) /\ forallb isQuiet t0 = true)
    as (t0 & E0 & Hq0).
  { subst creds. destruct (credsUpdate events); [|exists []; split; reflexivity].
    destruct saveCreds; unfold_monad; eexists; split; reflexivity. }
  unfold bind at 1. rewrite E0.
  (* the messages *)
  set (upsert := match messagesUpsert events with Some _ => _ | None => _ end).
  assert (exists s1 t1 goOn,
            upsert s = (s1, t1, Return goOn)
            /\ commands s1 = commands s
            /\ reconnectAttempts s1 = reconnectAttempts s
            /\ count isTimer t1 = 0%nat
            /\ (count isExecute t1 <= bound)%nat) as (s1 & t1 & goOn & E1 & Hc1 & Hn1 & Ht1 & Hx1).
  { subst upsert bound. destruct (messagesUpsert events) as [chatUpdate|].
    - pose proof (onMessagesUpsert_shape cfg sock chatUpdate s) as H. cbv zeta in H.
      destruct (onMessagesUpsert cfg sock chatUpdate s) as [[s1 t1] r1].
      unfold resultOf, stateOf, traceOf in H. cbn [fst snd] in H.
      destruct H as ([goOn ->] & H). exists s1, t1, goOn. split; [reflexivity|exact H].
    - exists s, [], true. repeat split; auto. }
  unfold bind at 1. rewrite E1.
  pose proof (count_quiet_timer t0 Hq0) as Ht0.
  pose proof (count_quiet_execute t0 Hq0) as Hx0.
  destruct goOn; cbn [negb].
  2:{ unfold ret. eexists _, _, _. split; [reflexivity|].
      rewrite !count_app, Ht0, Hx0, Ht1. cbn.
      split; [eauto|]. split; [discriminate|]. split; [exact Hc1|]. split; lia. }
  (* the groups *)
  set (groups := match groupsUpdate events with Some _ => _ | None => _ end).
  assert (exists gc1 t2, groups s1 = (s1, t2, Return gc1) /\ forallb isQuiet t2 = true)
    as (gc1 & t2 & E2 & Hq2).
  { subst groups. destruct (groupsUpdate events) as [groupEvents|].
    - destruct (groupsLoop_quiet sock groupEvents groupCache s1) as (gc1 & t2 & E & Hq).
      exists gc1, t2. unfold tryCatch. rewrite E. auto.
    - exists groupCache, []. split; reflexivity. }
  unfold bind at 1. rewrite E2.
  set (members := match groupParticipantsUpdate events with Some _ => _ | None => _ end).
  assert (exists gc2 t3, members s1 = (s1, t3, Return gc2) /\ forallb isQuiet t3 = true)
    as (gc2 & t3 & E3 & Hq3).
  { subst members. destruct (groupParticipantsUpdate events) as [[now event]|].
    - destruct (handleGroupParticipantUpdate_quiet sock now (Some event) gc1 s1)
        as (gc2 & t3 & E & Hq).
      exists gc2, t3. unfold tryCatch. rewrite E. auto.
    - exists gc1, []. split; reflexivity. }
  unfold bind at 1. rewrite E3.
  pose proof (count_quiet_timer t2 Hq2) as Ht2.
  pose proof (count_quiet_execute t2 Hq2) as Hx2.
  pose proof (count_quiet_timer t3 Hq3) as Ht3.
  pose proof (count_quiet_execute t3 Hq3) as Hx3.
  (* the connection *)
  destruct (connectionUpdate events) as [update|].
  2:{ unfold ret. eexists _, _, _. split; [reflexivity|].
      rewrite !count_app, Ht0, Hx0, Ht1, Ht2, Hx2, Ht3, Hx3. cbn.
      split; [eauto|]. split; [discriminate|]. split; [exact Hc1|]. split; lia. }
  pose proof (handleConnectionUpdate_shape loggedOut fs sock (Some update) s1) as H.
  pose proof (exit_only_on_close loggedOut fs sock (Some update) s1 1) as Hexit.
  cbv zeta in H.
  unfold bind. destruct (handleConnectionUpdate loggedOut fs sock (Some update) s1)
    as [[s4 t4] r4].
  unfold resultOf, stateOf, traceOf in *. cbn [fst snd] in *.
  destruct H as (Hr4 & Hc4 & _ & Hx4 & _ & Htimer4 & _).
  assert (count isTimer t4 <= 1)%nat as Ht4.
  { change (count isTimer t4) with (length (timersOf t4)).
    destruct Htimer4 as [->|(_ & _ & _ & -> & _)]; cbn; lia. }
  assert (forall p, count p [] = 0%nat) as Hnil by reflexivity.
  destruct Hr4 as [-> | ->]; eexists _, _, _; (split; [reflexivity|]);
    rewrite !count_app, ?Hnil, Ht0, Hx0, Ht1, Ht2, Hx2, Ht3, Hx3, Hx4.
  - split; [eauto|]. split; [discriminate|]. split; [congruence|]. split; lia.
  - split; [auto|]. split; [intros _; now apply Hexit|]. split; [congruence|]. split; lia.
Qed.

(** ** A file that stops loading *)

(** Units that do not claim a key do not count for it. *)
Lemma lastClaimant_without env env' file cmd k files :
  unitOf env file = Some cmd ->
  unitOf env' file = None ->
  (forall other, other <> file -> unitOf env' other = unitOf env other) ->
  k ∉ keysOf cmd ->
  lastClaimant k (omap (unitOf env') files) = lastClaimant k (omap (unitOf env) files).
Proof.
  intros Hcmd Hnone Hsame Hk.
  induction files as [|f rest IH]; [reflexivity|].
  cbn [omap list_omap].
  destruct (decide (f = file)) as [->|Hne].
  - rewrite Hcmd, Hnone. cbn [lastClaimant]. rewrite IH.
    rewrite (bool_decide_eq_false_2 _ Hk).
    destruct (lastClaimant k (omap (unitOf env) rest)); reflexivity.
  - rewrite (Hsame f Hne). destruct (unitOf env f); cbn [lastClaimant]; now rewrite IH.
Qed.

(** A key no remaining unit claims is not in the map. *)
Lemma lastClaimant_none env' k files :
  (forall f c, In f files -> unitOf env' f = Some c -> k ∉ keysOf c) ->
  lastClaimant k (omap (unitOf env') files) = None.
Proof.
  induction files as [|f rest IH]; intros H; [reflexivity|].
  cbn [omap list_omap].
  destruct (unitOf env' f) as [c|] eqn:E; cbn [lastClaimant].
  - rewrite IH by (intros f' c' Hin; apply H; right; exact Hin).
    rewrite bool_decide_eq_false_2; [reflexivity|].
    apply (H f c); [left; reflexivity|exact E].
  - apply IH. intros f' c' Hin. apply H. right. exact Hin.
Qed.

(** The map the loader returns for a directory that exists and can be
    listed. *)
Lemma loadCommands_registry env dir s entries :
  existsSync env = true ->
  readdirSync env = inr entries ->
  let files := filter (fun file => Js.endsWith file ".js" = true) entries in
  exists reg,
    loadCommands env dir s
    = (s,
       ELog "info" ("Found " ++ pretty (length files) ++ " command files")
       :: flat_map (fileLog env) (reached env files) ++ loopLog env files,
       Return reg)
    /\ forall k, reg !! k = lastClaimant k (omap (unitOf env) (reached env files)).
Proof.
  intros Hex Hdir files.
  exists (foldl (installFile env) ∅ (reached env files)).
  split.
  - apply (loadCommands_run env dir s entries Hex Hdir).
  - intros k. rewrite installed_lookup.
    destruct (lastClaimant k _); [reflexivity|apply lookup_empty].
Qed.

(** ** What a loaded registry holds *)



(** ** A failure to save the credentials *)

(** The failure is logged, and the handler goes on as if nothing had
    happened. *)
Lemma processEvents_creds cfg loggedOut fs sock events groupCache s (err : JsError) :
  credsUpdate events = true ->
  processEvents cfg loggedOut fs sock (Some err) events groupCache s
  = let '(s', t, r) := processEvents cfg loggedOut fs sock None events groupCache s in
    (s', ELog "danger" ("Failed to save credentials: " ++ Js.render (errMessage err)) :: t, r).
Proof.
  intros Hc. unfold processEvents. rewrite Hc.
  match goal with
  | |- bind _ ?k s = _ => generalize k
  end.
  intros rest. unfold_monad. cbn.
  destruct (rest tt s) as [[s2 t2] r2]. reflexivity.
Qed.

(** ** A file whose import rejects without a reason *)

Lemma filesBefore_not_in file files : ~ In file (filesBefore file files).
Proof.
  induction files as [|f rest IH]; [intros []|]. cbn [filesBefore].
  destruct (String.eqb_spec f file) as [->|Hne]; [intros []|].
  intros [H|H]; [contradiction|now apply IH].
Qed.

(** The loop stops at the file, when no import before it rejects with
    [null] or [undefined]. *)
Lemma reached_broken env file v files :
  In file files ->
  import env file = inl (ThrownNullish v) ->
  importsThrowErrors env (filesBefore file files) ->
  reached env files = filesBefore file files /\ loopFault env files = Some v.
Proof.
  intros Hin Hbad Hother.
  induction files as [|f rest IH]; [destruct Hin|].
  cbn [reached loopFault filesBefore] in *.
  destruct (String.eqb_spec f file) as [->|Hne].
  - rewrite Hbad. split; reflexivity.
  - destruct Hin as [Heq|Hin]; [contradiction|].
    pose proof (Hother f) as Hf.
    destruct IH as [IH1 IH2]; [exact Hin|intros g w Hg; apply Hother; right; exact Hg|].
    destruct (import env f) as [[w|e]|x];
      [exfalso; apply (Hf w); [left|]; reflexivity| |];
      rewrite IH1, IH2; split; reflexivity.
Qed.

(** Units of files on which two directories agree. *)
Lemma omap_unitOf_ext env env' files :
  (forall f, In f files -> import env' f = import env f) ->
  omap (unitOf env') files = omap (unitOf env) files.
Proof.
  intros H. induction files as [|f rest IH]; [reflexivity|].
  cbn [omap list_omap].
  rewrite IH by (intros g Hg; apply H; right; exact Hg).
  assert (unitOf env' f = unitOf env f) as ->
    by (unfold unitOf; now rewrite (H f) by (left; reflexivity)).
  reflexivity.
Qed.

Lemma filesBefore_In file files g :
  In g (filesBefore file files) -> In g files /\ g <> file.
Proof.
  induction files as [|f rest IH]; [intros []|]. cbn [filesBefore].
  destruct (String.eqb_spec f file) as [->|Hne]; [intros []|].
  intros [<-|H]; [split; [left; reflexivity|exact Hne]|].
  destruct (IH H) as [H1 H2]. split; [right; exact H1|exact H2].
Qed.

Lemma flat_map_fileLog_ext env env' files :
  (forall f, In f files -> import env' f = import env f) ->
  flat_map (fileLog env') files = flat_map (fileLog env) files.
Proof.
  intros H. induction files as [|f rest IH]; [reflexivity|].
  cbn [flat_map].
  rewrite IH by (intros g Hg; apply H; right; exact Hg).
  assert (fileLog env' f = fileLog env f) as ->
    by (unfold fileLog; now rewrite (H f) by (left; reflexivity)).
  reflexivity.
Qed.

(** A file whose import throws an error object does not stop the loop. *)
Lemma importsThrowErrors_edit env env' file files (err : JsError) :
  importsThrowErrors env files ->
  import env' file = inl (ThrownError err) ->
  (forall other, other <> file -> import env' other = import env other) ->
  importsThrowErrors env' files.
Proof.
  intros H Hbad Hsame g v Hin Hg.
  destruct (String.eqb_spec g file) as [->|Hne]; [congruence|].
  rewrite (Hsame g Hne) in Hg. now apply (H g v).
Qed.
(** * The properties of the specification *)




(** C2, as the code has it.  On a close with a status other than
    [loggedOut], 401 and 403:
    - while fewer than [MAX_RECONNECT_ATTEMPTS] attempts have been made, the
      counter is incremented and one reconnection is scheduled, after
      [min (1000 * 1.5 ^ attempts) 60000] milliseconds for the incremented
      counter; a second such close in a row schedules a delay at least as
      long;
    - once the counter has reached [MAX_RECONNECT_ATTEMPTS], the counter is
      left as it is, nothing is scheduled and the process exits.
    The delay never decreases when the counter grows and never exceeds
    60000 ms (it grows strictly over the ten attempts, which stay below the
    cap).  An open connection resets the counter to 0. *)
Theorem C2_transient_close_backoff loggedOut fs sock update s :
  update ≫= connection = Some "close" ->
  isPermanentClose loggedOut (statusOr500 (update ≫= statusCode)) = false ->
  let run := handleConnectionUpdate loggedOut fs sock update s in
  let attempts := S (reconnectAttempts s) in
  ((reconnectAttempts s < MAX_RECONNECT_ATTEMPTS)%nat ->
     reconnectAttempts (stateOf run) = attempts
     /\ resultOf run = Return tt
     /\ timersOf (traceOf run) = [ESetTimeout Reconnect (reconnectDelay attempts)]
     /\ (reconnectDelay attempts == Qmin (1000 * (3 # 2) ^ Z.of_nat attempts) 60000)%Q
     /\ forall fs' sock' update',
          update' ≫= connection = Some "close" ->
          isPermanentClose loggedOut (statusOr500 (update' ≫= statusCode)) = false ->
          (attempts < MAX_RECONNECT_ATTEMPTS)%nat ->
          let next := handleConnectionUpdate loggedOut fs' sock' update' (stateOf run) in
          reconnectAttempts (stateOf next) = S attempts
          /\ timersOf (traceOf next) = [ESetTimeout Reconnect (reconnectDelay (S attempts))]
          /\ (reconnectDelay attempts <= reconnectDelay (S attempts))%Q)
  /\ ((MAX_RECONNECT_ATTEMPTS <= reconnectAttempts s)%nat ->
      stateOf run = s /\ resultOf run = ProcessExit 1 /\ timersOf (traceOf run) = [])
  /\ (forall n m, (n <= m)%nat -> (reconnectDelay n <= reconnectDelay m)%Q)
  /\ (forall n, (reconnectDelay n <= 60000)%Q)
  /\ (forall n, (S n <= MAX_RECONNECT_ATTEMPTS)%nat ->
        (reconnectDelay n < reconnectDelay (S n))%Q)
  /\ (forall fs' sock' update',
        update' ≫= connection = Some "open" ->
        reconnectAttempts (stateOf (handleConnectionUpdate loggedOut fs' sock' update' (stateOf run)))
        = 0%nat).
Proof.
  intros Hc Ht run attempts.
  split; [|split; [|split; [|split; [|split]]]].
  - intros Hlt. subst run.
    rewrite (close_transient_retry loggedOut fs sock update s Hc Ht Hlt).
    unfold stateOf, resultOf, traceOf. cbn [fst snd].
    split; [reflexivity|]. split; [reflexivity|]. split; [reflexivity|].
    split; [reflexivity|].
    intros fs' sock' update' Hc' Ht' Hlt'.
    rewrite (close_transient_retry loggedOut fs' sock' update'
               (setReconnectAttempts (S (reconnectAttempts s)) s) Hc' Ht' Hlt').
    cbn [fst snd].
    split; [reflexivity|]. split; [reflexivity|].
    apply reconnectDelay_mono. lia.
  - intros Hge. subst run.
    rewrite (close_transient_give_up loggedOut fs sock update s Hc Ht Hge).
    repeat split.
  - exact reconnectDelay_mono.
  - exact reconnectDelay_capped.
  - exact reconnectDelay_grows.
  - intros fs' sock' update' Ho. rewrite (open_resets loggedOut fs' sock' update' _ Ho).
    reflexivity.
Qed.

(** The third close in a row schedules a reconnection after 3375 ms; the
    next one after 5062.5 ms. *)
Lemma C2_transient_close_backoff_witness :
  let run := handleConnectionUpdate 401 Example.healthyFs Example.sock
               (Example.close 428) (Example.stateAt 2) in
  let next := handleConnectionUpdate 401 Example.healthyFs Example.sock
                (Example.close 408) (stateOf run) in
  reconnectAttempts (stateOf run) = 3%nat
  /\ timersOf (traceOf run) = [ESetTimeout Reconnect (reconnectDelay 3)]
  /\ (reconnectDelay 3 == 3375)%Q
  /\ timersOf (traceOf next) = [ESetTimeout Reconnect (reconnectDelay 4)]
  /\ (reconnectDelay 3 <= reconnectDelay 4)%Q
  /\ reconnectAttempts
       (stateOf (handleConnectionUpdate 401 Example.healthyFs Example.sock
                   Example.opened (stateOf run))) = 0%nat.
Proof.
  intros run next.
  destruct (C2_transient_close_backoff 401 Example.healthyFs Example.sock
              (Example.close 428) (Example.stateAt 2) eq_refl eq_refl)
    as (Hretry & _ & _ & _ & _ & Hopen).
  destruct Hretry as (Hn & _ & Htimer & Hdelay & Hnext).
  { unfold MAX_RECONNECT_ATTEMPTS. cbn. lia. }
  destruct (Hnext Example.healthyFs Example.sock (Example.close 408) eq_refl eq_refl)
    as (_ & Htimer' & Hle).
  { unfold MAX_RECONNECT_ATTEMPTS. cbn. lia. }
  split; [exact Hn|]. split; [exact Htimer|]. split; [rewrite Hdelay; reflexivity|].
  split; [exact Htimer'|]. split; [exact Hle|].
  apply Hopen. reflexivity.
Defined.

(** C2, as stated, fails: at the eleventh close in a row the counter is not
    incremented and no reconnection is scheduled; the process exits. *)
Lemma C2_counterexample :
  let run := handleConnectionUpdate 401 Example.healthyFs Example.sock
               (Example.close 428) (Example.stateAt 10) in
  isPermanentClose 401 428 = false
  /\ reconnectAttempts (stateOf run) = 10%nat
  /\ timersOf (traceOf run) = []
  /\ resultOf run = ProcessExit 1.
Proof. vm_compute. repeat split. Qed.

(** C3, as the code has it.  On a close with the status [loggedOut], 401
    or 403, [removeCreds] is run, then the process exits with code 1: the
    state at the exit is the one [removeCreds] leaves, and no timer is set,
    so no reconnection is scheduled.  The session folder is then empty
    provided listing it and removing each of its files succeed; a failure
    is logged, leaves files behind, and does not prevent the exit.  The
    files are removed in the order of the listing, up to the first that
    cannot be: the files before it are gone, that file and every file
    after it are still there; when the folder cannot be listed all the
    files are still there. *)
Theorem C3_permanent_close_exits loggedOut fs sock update s :
  update ≫= connection = Some "close" ->
  isPermanentClose loggedOut (statusOr500 (update ≫= statusCode)) = true ->
  let run := handleConnectionUpdate loggedOut fs sock update s in
  resultOf run = ProcessExit 1
  /\ count isTimer (traceOf run) = 0%nat
  /\ stateOf run = stateOf (removeCreds fs s)
  /\ (exists t, traceOf run
                = closedLog update :: terminatedLog :: traceOf (removeCreds fs s) ++ t
                /\ (t = [] \/ t = [removedLog]))
  /\ (readdir fs = None -> (forall f, In f (sessionFiles s) -> unlink fs f = None) ->
      sessionFiles (stateOf run) = [])
  /\ ((readdir fs <> None \/ exists f, In f (sessionFiles s) /\ unlink fs f <> None) ->
      exists err,
        In (removalFailed err) (traceOf run)
        /\ ((readdir fs = Some err /\ sessionFiles (stateOf run) = sessionFiles s)
            \/ exists f, In f (sessionFiles (stateOf run)) /\ unlink fs f = Some err))
  /\ (forall before f after err,
        readdir fs = None ->
        sessionFiles s = before ++ f :: after ->
        (forall g, In g before -> unlink fs g = None) ->
        unlink fs f = Some err ->
        sessionFiles (stateOf run) = without before (sessionFiles s)
        /\ (NoDup (sessionFiles s) -> sessionFiles (stateOf run) = f :: after)
        /\ traceOf run = [closedLog update; terminatedLog; removalFailed err])
  /\ (forall err,
        readdir fs = Some err ->
        sessionFiles (stateOf run) = sessionFiles s
        /\ traceOf run = [closedLog update; terminatedLog; removalFailed err]).
Proof.
  intros Hc Hp run.
  pose proof (removeCreds_run fs s) as Hexact.
  destruct (close_permanent loggedOut fs sock update s Hc Hp) as (files & t & ok & E & Erun).
  destruct (removeCreds_shape fs s) as (files' & t' & ok' & E' & Hshape).
  rewrite E in E'. injection E' as <- <- <-.
  subst run. rewrite Erun, E. unfold resultOf, traceOf, stateOf. cbn [fst snd].
  split; [reflexivity|]. split; [|split; [reflexivity|split; [|split; [|split; [|split]]]]].
  - destruct Hshape as [(-> & _ & -> & _)|(-> & err & -> & _)]; reflexivity.
  - exists (if ok then [removedLog] else []). split; [reflexivity|].
    destruct ok; auto.
  - intros Hd Hu.
    destruct Hshape as [(_ & Hf & _)|(_ & err & _ & [[Hbad _]|(_ & f & Hin & _ & Hbad)])].
    + destruct s. cbn in *. rewrite Hf. reflexivity.
    + congruence.
    + rewrite (Hu f Hin) in Hbad. discriminate.
  - intros Hfail.
    destruct Hshape as [(_ & _ & _ & Hd & Hu)|(_ & err & -> & Hwhy)].
    + exfalso. destruct Hfail as [H|(f & Hin & H)]; [contradiction|].
      apply H, Hu, Hin.
    + exists err. split; [right; right; left; reflexivity|].
      destruct Hwhy as [[Hd ->]|(_ & f & _ & Hleft & Hf)].
      * left. split; [exact Hd|]. destruct s. reflexivity.
      * right. exists f. split; [|exact Hf]. destruct s. exact Hleft.
  - intros before f after err Hd Hsplit Hb Hf.
    destruct (removable_split fs before f after err Hb Hf) as [Hrm Hst].
    rewrite Hd, Hsplit, Hrm, Hst, E in Hexact. injection Hexact as Hfiles -> ->.
    cbn [sessionFiles setSessionFiles]. rewrite Hsplit, Hfiles.
    split; [reflexivity|]. split; [|reflexivity].
    intros Hnd. apply (without_prefix before (f :: after) Hnd).
  - intros err Hd. rewrite Hd, E in Hexact. injection Hexact as Hfiles -> ->.
    apply (f_equal sessionFiles) in Hfiles. cbn [sessionFiles setSessionFiles] in Hfiles.
    cbn [sessionFiles setSessionFiles]. split; [exact Hfiles|reflexivity].
Qed.

(** A close with status 401 on a healthy folder: both files are removed
    and the process exits.  On a folder where the second file cannot be
    removed, the first is gone and the second is left. *)
Lemma C3_permanent_close_exits_witness :
  let run := handleConnectionUpdate 401 Example.healthyFs Example.sock
               (Example.close 401) Example.state in
  let stuck := handleConnectionUpdate 401 Example.stuckFs Example.sock
                 (Example.close 401) Example.state in
  resultOf run = ProcessExit 1
  /\ count isTimer (traceOf run) = 0%nat
  /\ sessionFiles (stateOf run) = []
  /\ sessionFiles (stateOf stuck) = ["pre-key-1.json"].
Proof.
  intros run stuck.
  destruct (C3_permanent_close_exits 401 Example.healthyFs Example.sock
              (Example.close 401) Example.state eq_refl eq_refl)
    as (Hexit & Htimer & _ & _ & Hempty & _ & _ & _).
  destruct (C3_permanent_close_exits 401 Example.stuckFs Example.sock
              (Example.close 401) Example.state eq_refl eq_refl)
    as (_ & _ & _ & _ & _ & _ & Hleft & _).
  assert (forall g, In g ["creds.json"] -> unlink Example.stuckFs g = None) as Hgone
    by (intros g [<-|[]]; reflexivity).
  destruct (Hleft ["creds.json"] "pre-key-1.json" []
              {| errMessage := Some "EPERM: operation not permitted, unlink" |}
              eq_refl eq_refl Hgone eq_refl) as (_ & Hrest & _).
  split; [exact Hexit|]. split; [exact Htimer|]. split; [apply Hempty; reflexivity|].
  apply Hrest. cbn [sessionFiles Example.state].
  apply NoDup_cons. split; [|apply NoDup_singleton].
  intros H%list_elem_of_singleton. discriminate.
Defined.

(** C3, as stated, fails: when a file of the session folder cannot be
    removed the process exits all the same, and the file is still there. *)
Lemma C3_counterexample :
  let run := handleConnectionUpdate 401 Example.stuckFs Example.sock
               (Example.close 403) Example.state in
  resultOf run = ProcessExit 1
  /\ sessionFiles (stateOf run) = ["pre-key-1.json"]
  /\ traceOf run
     = [ELog "danger" "Connection closed. Status: 403. Reason: Connection Failure";
        terminatedLog;
        ELog "danger"
          "Failed to remove credentials: EPERM: operation not permitted, unlink"].
Proof. vm_compute. repeat split. Qed.

(** C4, at the failing input.  The command [hush] rejects without a
    reason (with [undefined]).  The call is made, and the fault is caught;
    but [handleError] fails on [undefined] before it has logged anything,
    so the chat is told nothing, the line of the logger does not name the
    command, and the fault of [handleError] is logged by the outer [catch]
    as an error of the processing.  The command [boom], which throws an
    error object, is reported as the claim says; and after either of them
    the next message is served. *)
Theorem C4_fault_without_reason_unreported :
  let s := setCommands (<["hush" := Example.hush]> Example.registry) Example.state in
  let k := Example.keyOf "3EB0C767D26A1B2E4F" in
  let ctx := {| ctxFrom := Example.chat; ctxIsGroup := false;
                ctxPushName := "Azum"; ctxType := "conversation" |} in
  let deliver b := handleIncomingMessage configExample 1000 Example.sock
                     (Some (Example.text "3EB0C767D26A1B2E4F" b)) s in
  let next st := handleIncomingMessage configExample 1500 Example.sock
                   (Some (Example.text "3EB0C767D26A1B2E50" "/yt foo")) st in
  traceOf (deliver "/hush")
  = [EReadMessages [k];
     ELog "success" "hush from Azum in Private Chat";
     EExecute Example.hush (Example.text "3EB0C767D26A1B2E4F" "/hush") [] ctx;
     ELog "danger"
       "Error processing message: Cannot read properties of undefined (reading 'message')"]
  /\ count isSend (traceOf (deliver "/hush")) = 0%nat
  /\ resultOf (deliver "/hush") = Return tt
  /\ count isExecute (traceOf (next (stateOf (deliver "/hush")))) = 1%nat
  /\ traceOf (deliver "/boom")
     = [EReadMessages [k];
        ELog "success" "boom from Azum in Private Chat";
        EExecute Example.boom (Example.text "3EB0C767D26A1B2E4F" "/boom") [] ctx;
        ELog "danger" "Error executing command boom: kaput";
        ESendMessage Example.chat "Error executing command: kaput"]
  /\ count isSend (traceOf (deliver "/boom")) = 1%nat
  /\ count isExecute (traceOf (next (stateOf (deliver "/boom")))) = 1%nat.
Proof. vm_compute. repeat split. Qed.

(** C5.  With the prefixes ["/"], ["!"], ["."] and a command registered
    under ["yt"] and ["ytdl"], the text messages ["/yt foo"], ["!ytdl
    foo"] and [".YT foo"] each call that command, once, with the arguments
    [["foo"]], and ["yt foo"] calls nothing: after the acknowledgement the
    message is dropped, as is every text that starts with none of the
    prefixes.  In general the prefix in use is the first of the list that
    starts the body, and the command is the first token of the rest, in
    lower case. *)
Theorem C5_prefix_alias_resolution cfg now sock s h run k i jid pn :
  commandPrefixes cfg = ["/"; "!"; "."] ->
  commands s !! "yt" = Some h -> commands s !! "ytdl" = Some h ->
  execute h = Callable run ->
  remoteJid k = Some jid -> jid <> "" -> jid <> "status@broadcast" ->
  id k = Some i -> isSyntheticId i = false ->
  NodeCache.has now (processedMessagesCache s) i = false ->
  readMessages sock [k] = None ->
  (forall b, In b ["/yt foo"; "!ytdl foo"; ".YT foo"] ->
     let m := textMessage k pn b in
     let t := traceOf (handleIncomingMessage cfg now sock (Some m) s) in
     exists pre post,
       t = pre ++ EExecute h m ["foo"] (contextOf (infoOf m jid)) :: post
       /\ forallb isQuiet pre = true
       /\ count isExecute t = 1%nat)
  /\ traceOf (handleIncomingMessage cfg now sock (Some (textMessage k pn "yt foo")) s)
     = [EReadMessages [k]]
  /\ (forall b,
        (forall q, In q (commandPrefixes cfg) -> Js.startsWith b q = false) ->
        traceOf (handleIncomingMessage cfg now sock (Some (textMessage k pn b)) s)
        = [EReadMessages [k]])
  /\ (forall before p after b,
        (forall q, In q before -> Js.startsWith b q = false) ->
        Js.startsWith b p = true -> p <> "" ->
        parseCommand (before ++ p :: after) b
        = match Js.splitSpaces (Js.trim (Js.slice b (String.length p))) with
          | first :: args => Some (Js.toLowerCase first, args)
          | [] => None
          end).
Proof.
  intros Hcfg Hyt Hytdl Hrun Hj Hne Hns Hi Hsyn Hhas Hr.
  assert (forall b, passesFilters (textMessage k pn b) k i) as Hp.
  { intros b. repeat split; auto; try discriminate. congruence. }
  assert (forall b command,
            b <> "" -> command <> "" -> commands s !! command = Some h ->
            parseCommand (commandPrefixes cfg) b = Some (command, ["foo"]) ->
            let m := textMessage k pn b in
            let t := traceOf (handleIncomingMessage cfg now sock (Some m) s) in
            exists pre post,
              t = pre ++ EExecute h m ["foo"] (contextOf (infoOf m jid)) :: post
              /\ forallb isQuiet pre = true /\ count isExecute t = 1%nat) as Hcall.
  { intros b command Hbne Hcn Hc Hparse m t.
    assert (body (infoOf m jid) = JStr b) as Hb.
    { cbn. unfold orEmpty. cbn. destruct (String.eqb_spec b ""); [contradiction|]. reflexivity. }
    destruct (handle_dispatch cfg now sock m k i jid b command ["foo"] h s
                (Hp b) Hhas Hr Hj Hne Hb Hbne Hparse Hcn Hc) as (pre & Hq & E).
    subst t. rewrite E. unfold traceOf. cbn [fst snd].
    destruct (callTrace_callable sock m command h run ["foo"] (infoOf m jid) Hrun)
      as [_ Hcount].
    eexists pre, _. split; [|split; [exact Hq|]].
    - unfold callTrace, runTrace. rewrite Hrun. rewrite <- app_comm_cons. reflexivity.
    - rewrite count_app, (count_quiet_execute pre Hq), Hcount. reflexivity. }
  assert (forall b, body (infoOf (textMessage k pn b) jid) = JStr b) as Hbody.
  { intros b. cbn. unfold orEmpty. cbn.
    destruct (String.eqb_spec b "") as [->|_]; reflexivity. }
  split; [|split; [|split]].
  - intros b Hin. rewrite Hcfg in Hcall.
    destruct Hin as [<-|[<-|[<-|[]]]].
    + apply (Hcall "/yt foo" "yt"); (discriminate || assumption || reflexivity).
    + apply (Hcall "!ytdl foo" "ytdl"); (discriminate || assumption || reflexivity).
    + apply (Hcall ".YT foo" "yt"); (discriminate || assumption || reflexivity).
  - rewrite (handle_not_command cfg now sock (textMessage k pn "yt foo") k i jid "yt foo" s);
      auto.
    rewrite Hcfg. reflexivity.
  - intros b Hnone.
    rewrite (handle_not_command cfg now sock (textMessage k pn b) k i jid b s); auto.
    now apply parseCommand_no_prefix.
  - apply parseCommand_first_match.
Qed.

(** The registry loaded from [Example.commandsDir] serves the four inputs
    as stated. *)
Lemma C5_prefix_alias_resolution_witness :
  let s := stateOf (initializeCommands configExample Example.commandsDir Example.emptyState) in
  let k := Example.keyOf "3EB0C767D26A1B2E4F" in
  let run b :=
    traceOf (handleIncomingMessage configExample 1000 Example.sock
               (Some (textMessage k (Some "Azum") b)) s) in
  Forall (fun b => count isExecute (run b) = 1%nat
                   /\ exists pre post ctx,
                        run b = pre ++ EExecute Example.yt (textMessage k (Some "Azum") b)
                                         ["foo"] ctx :: post)
    ["/yt foo"; "!ytdl foo"; ".YT foo"]
  /\ run "yt foo" = [EReadMessages [k]].
Proof.
  intros s k run.
  destruct (C5_prefix_alias_resolution configExample 1000 Example.sock s Example.yt
              (fun _ _ _ _ => None) k "3EB0C767D26A1B2E4F" Example.chat (Some "Azum"))
    as (Hcall & Hdrop & _ & _);
    try reflexivity; try discriminate.
  split; [|exact Hdrop].
  apply List.Forall_forall. intros b Hin.
  destruct (Hcall b Hin) as (pre & post & E & _ & Hone).
  split; [exact Hone|]. exists pre, post. eexists. exact E.
Defined.

(** C6, at the failing input.  The registry holds [yt] and [ytdl], loaded
    from a directory with the single file [yt.js]; the file is then edited
    so that its import fails.  The reload replaces the registry by the
    empty map, and ["/yt foo"] is no longer served. *)
Theorem C6_bad_edit_empties_registry :
  let good :=
    {| existsSync := true; mkdirSync := None; readdirSync := inr ["yt.js"];
       import := fun _ => inr (Some Example.yt) |} in
  let edited :=
    {| existsSync := true; mkdirSync := None; readdirSync := inr ["yt.js"];
       import := fun _ => inl (ThrownError {| errMessage := Some "Unexpected token '}'" |}) |} in
  let before := stateOf (initializeCommands configExample good Example.emptyState) in
  let after := stateOf (reloadCommands configExample edited "yt.js" before) in
  let m := Example.text "3EB0C767D26A1B2E4F" "/yt foo" in
  (commands before !! "yt" = Some Example.yt /\ commands before !! "ytdl" = Some Example.yt)
  /\ commands after = ∅
  /\ traceOf (reloadCommands configExample edited "yt.js" before)
     = [ELog "info" "Found 1 command files";
        ELog "danger" "Failed to load command file: yt.js: Unexpected token '}'";
        ELog "success" "Commands reloaded successfully. Total: 0"]
  /\ count isExecute
       (traceOf (handleIncomingMessage configExample 1000 Example.sock (Some m) before)) = 1%nat
  /\ count isExecute
       (traceOf (handleIncomingMessage configExample 1000 Example.sock (Some m) after)) = 0%nat.
Proof. vm_compute. repeat split. Qed.

(** C7, as the code has it.  On an existing directory the loader goes
    through the entries that end in [".js"], in order.  A file whose
    default export has a name and an [execute] that are truthy is
    installed under its name and each of its aliases, all bound to that
    same export (whether [execute] can be called is not tested); a key
    claimed by several files is bound to the last of them, and the map
    holds nothing else.  A file without such an export is skipped with one
    line of type ["warning"] that names it; a file whose import throws an
    error object is skipped with one line of [handleError] that names it;
    and the other files are installed all the same.  (An import that
    rejects with [null] or [undefined] is left out of the statement.) *)
Theorem C7_loadCommands_registry env dir s entries :
  existsSync env = true ->
  readdirSync env = inr entries ->
  let files := filter (fun file => Js.endsWith file ".js" = true) entries in
  importsThrowErrors env files ->
  let units := omap (unitOf env) files in
  exists reg,
    loadCommands env dir s
    = (s,
       ELog "info" ("Found " ++ pretty (length files) ++ " command files")
       :: flat_map (fileLog env) files,
       Return reg)
    /\ (forall k, reg !! k = lastClaimant k units)
    /\ (forall before cmd after k,
          units = before ++ cmd :: after -> k ∈ keysOf cmd ->
          (forall c, In c after -> k ∉ keysOf c) ->
          reg !! k = Some cmd)
    /\ (forall k c, reg !! k = Some c -> In c units /\ k ∈ keysOf c)
    /\ (forall file cmd,
          unitOf env file = Some cmd
          <-> import env file = inr (Some cmd)
              /\ Js.truthy (name cmd) = true /\ truthyExecute (execute cmd) = true)
    /\ (forall file cmd, unitOf env file = Some cmd -> fileLog env file = [])
    /\ (forall file,
          import env file = inr None
          \/ (exists cmd, import env file = inr (Some cmd) /\ isValid cmd = false) ->
          fileLog env file
          = [ELog "warning" ("Invalid command structure in " ++ file ++ ". Skipping...")])
    /\ (forall file (error : JsError),
          import env file = inl (ThrownError error) ->
          fileLog env file
          = [ELog "danger" ("Failed to load command file: " ++ file ++ ": "
                            ++ Js.render (errMessage error))]).
Proof.
  intros Hex Hdir files Hthrown units.
  destruct (reached_all env files Hthrown) as [Hall Hnone].
  exists (foldl (installFile env) ∅ files).
  assert (forall k, foldl (installFile env) ∅ files !! k = lastClaimant k units) as Hlookup.
  { intros k. rewrite installed_lookup. fold units.
    destruct (lastClaimant k units); [reflexivity|apply lookup_empty]. }
  split; [|split; [exact Hlookup|split; [|split; [|split; [|split; [|split]]]]]].
  - rewrite (loadCommands_run env dir s entries Hex Hdir). cbv zeta. fold files.
    unfold loopLog. rewrite Hall, Hnone, app_nil_r. reflexivity.
  - intros before cmd after k -> Hin Hafter. rewrite Hlookup.
    now apply lastClaimant_last.
  - intros k c. rewrite Hlookup. apply lastClaimant_in.
  - intros file cmd. unfold unitOf, isValid.
    destruct (import env file) as [|[c|]].
    + split; [discriminate|intros [[=] _]].
    + destruct (Js.truthy (name c)) eqn:Hn, (truthyExecute (execute c)) eqn:Hx; cbn [andb].
      * split; [intros [= <-]; auto|intros ([= <-] & _); reflexivity].
      * split; [discriminate|intros ([= <-] & _ & H); congruence].
      * split; [discriminate|intros ([= <-] & H & _); congruence].
      * split; [discriminate|intros ([= <-] & H & _); congruence].
    + split; [discriminate|intros [[=] _]].
  - intros file cmd. unfold unitOf, fileLog.
    destruct (import env file) as [|[c|]]; try discriminate.
    destruct (isValid c); [reflexivity|discriminate].
  - intros file [H|(cmd & H & Hv)]; unfold fileLog; rewrite H; [reflexivity|].
    rewrite Hv. reflexivity.
  - intros file error H. unfold fileLog. rewrite H. reflexivity.
Qed.

(** In [Example.commandsDir], [yt] is found under its name and its alias,
    [boom] under its name, and nothing under the alias of the draft. *)
Lemma C7_loadCommands_registry_witness :
  exists reg t,
    loadCommands Example.commandsDir "./commands" Example.emptyState
    = (Example.emptyState, t, Return reg)
    /\ reg !! "yt" = Some Example.yt
    /\ reg !! "ytdl" = Some Example.yt
    /\ reg !! "boom" = Some Example.boom
    /\ reg !! "wip" = None
    /\ t = [ELog "info" "Found 4 command files";
            ELog "danger" "Failed to load command file: broken.js: Unexpected token";
            ELog "warning" "Invalid command structure in draft.js. Skipping..."].
Proof.
  destruct (C7_loadCommands_registry Example.commandsDir "./commands" Example.emptyState
              ["yt.js"; "README.md"; "broken.js"; "boom.js"; "draft.js"] eq_refl eq_refl)
    as (reg & E & Hlookup & _).
  { intros file v _. cbn [import Example.commandsDir].
    repeat (match goal with |- context [String.eqb file ?x] => destruct (String.eqb file x) end;
            [discriminate|]).
    discriminate. }
  exists reg. eexists. split; [exact E|].
  rewrite !Hlookup. repeat split.
Defined.

(** C7, as stated, fails, twice.  The default export of [bad.js] has a
    name and an [execute] that is a string: it is not skipped and no
    warning is logged, the loader installs it, and the command it is bound
    to cannot be called.  The import of [broken.js] throws: the file is
    skipped, with a line of type ["danger"] and no warning. *)
Lemma C7_counterexample :
  let env :=
    {| existsSync := true; mkdirSync := None; readdirSync := inr ["bad.js"; "broken.js"];
       import := fun file =>
         if String.eqb file "bad.js" then inr (Some Example.bad)
         else inl (ThrownError {| errMessage := Some "Unexpected token" |}) |} in
  let loaded := stateOf (initializeCommands configExample env Example.emptyState) in
  let m := Example.text "3EB0C767D26A1B2E4F" "/bad x" in
  execute Example.bad = NotCallable true
  /\ traceOf (loadCommands env "./commands" Example.emptyState)
     = [ELog "info" "Found 2 command files";
        ELog "danger" "Failed to load command file: broken.js: Unexpected token"]
  /\ commands loaded !! "bad" = Some Example.bad
  /\ traceOf (handleIncomingMessage configExample 1000 Example.sock (Some m) loaded)
     = [EReadMessages [Example.keyOf "3EB0C767D26A1B2E4F"];
        ELog "success" "bad from Azum in Private Chat";
        ELog "danger" "Error executing command bad: commandFile.execute is not a function";
        ESendMessage Example.chat
          "Error executing command: commandFile.execute is not a function"].
Proof. vm_compute. repeat split. Qed.

(** C8, as the code has it.  Nothing happens at all (no state change, no
    event: no acknowledgement, no command, no line of the logger) for a
    missing message, a message without payload, a message of the chat
    ["status@broadcast"], and a message whose identifier starts with
    ["BAE5"] and has 16 characters.  These are the only tests: the
    identifier is not tested for emptiness. *)
Theorem C8_non_conversational_dropped cfg now sock msg s :
  (msg = None
   \/ exists m, msg = Some m
        /\ (WA.message m = None
            \/ exists k, WA.key m = Some k
                 /\ (remoteJid k = Some "status@broadcast"
                     \/ exists i, id k = Some i
                          /\ Js.startsWith i "BAE5" = true /\ String.length i = 16%nat))) ->
  handleIncomingMessage cfg now sock msg s = (s, [], Return tt).
Proof.
  intros H. apply handle_rejected.
  destruct H as [->|(m & -> & [Hm|(k & Hk & H)])]; cbn; auto.
  right. exists k. split; [assumption|].
  destruct H as [Hs|(i & Hi & Hb & Hl)]; [auto|].
  right. exists i. split; [assumption|].
  unfold isSyntheticId. rewrite Hb, Hl. reflexivity.
Qed.

(** A status broadcast and a synthetic identifier leave no trace, though
    the text is a command. *)
Lemma C8_non_conversational_dropped_witness :
  let status :=
    {| WA.key := Some {| remoteJid := Some "status@broadcast"; id := Some "3EB0C767D26A1B2E4F" |};
       WA.message := Some [("conversation", JStr "/yt foo")]; WA.pushName := None |} in
  handleIncomingMessage configExample 1000 Example.sock (Some status) Example.state
  = (Example.state, [], Return tt)
  /\ handleIncomingMessage configExample 1000 Example.sock
       (Some (Example.text "BAE5F0A1B2C3D4E5" "/yt foo")) Example.state
     = (Example.state, [], Return tt).
Proof.
  intros status. split.
  - apply C8_non_conversational_dropped.
    right. exists status. split; [reflexivity|]. right.
    eexists. split; [reflexivity|]. left. reflexivity.
  - apply C8_non_conversational_dropped.
    right. eexists. split; [reflexivity|]. right.
    eexists. split; [reflexivity|]. right.
    exists "BAE5F0A1B2C3D4E5". repeat split.
Defined.

(** C8, as stated, fails: a message with the empty identifier is
    acknowledged and its command is called; a message with an empty
    payload is acknowledged; a message without identifier, and one without
    key, is logged as an error. *)
Lemma C8_counterexample :
  let emptyId := Example.text "" "/yt foo" in
  let emptyPayload :=
    {| WA.key := Some (Example.keyOf "3EB0C767D26A1B2E4F");
       WA.message := Some []; WA.pushName := None |} in
  let noId :=
    {| WA.key := Some {| remoteJid := Some Example.chat; id := None |};
       WA.message := Some [("conversation", JStr "/yt foo")]; WA.pushName := None |} in
  let noKey :=
    {| WA.key := None;
       WA.message := Some [("conversation", JStr "/yt foo")]; WA.pushName := None |} in
  let run m := traceOf (handleIncomingMessage configExample 1000 Example.sock (Some m) Example.state) in
  (count isRead (run emptyId) = 1%nat /\ count isExecute (run emptyId) = 1%nat)
  /\ count isRead (run emptyPayload) = 1%nat
  /\ count isErrorLog (run noId) = 1%nat
  /\ count isErrorLog (run noKey) = 1%nat.
Proof. vm_compute. repeat split. Qed.

(** C9.  A message that passes the filters and whose identifier is not in
    the cache has it inserted before anything else: the first event is the
    read acknowledgement, and the entry is in the state whatever the
    socket answers, whatever the body and whatever the command does (no
    prefix, unknown command, fault of the command, rejected
    acknowledgement).  A later delivery of the message within the time to
    live is dropped as a duplicate, in any state that still holds the
    entry: nothing is retried. *)
Theorem C9_entry_consumed_before_processing cfg sock now m k i s :
  passesFilters m k i ->
  NodeCache.has now (processedMessagesCache s) i = false ->
  let first := handleIncomingMessage cfg now sock (Some m) s in
  stateOf first = setCache (NodeCache.set now (processedMessagesCache s) i) s
  /\ (exists t, traceOf first = EReadMessages [k] :: t)
  /\ resultOf first = Return tt
  /\ forall cfg' sock' now' s',
       (now' <= now + ttlMs)%Z ->
       processedMessagesCache s' !! i = processedMessagesCache (stateOf first) !! i ->
       handleIncomingMessage cfg' now' sock' (Some m) s' = (s', [duplicateLog], Return tt).
Proof.
  intros Hp Hhas first.
  destruct (handle_fresh_run cfg now sock m k i s Hp Hhas) as [t E].
  subst first. rewrite E. unfold stateOf, traceOf, resultOf. cbn [fst snd].
  repeat split; eauto.
  intros cfg' sock' now' s' Hnow Hentry.
  apply (handle_duplicate cfg' now' sock' m k i s' Hp).
  unfold NodeCache.has. rewrite Hentry. cbn.
  apply (has_set_same now now' (processedMessagesCache s) i Hnow).
Qed.

(** The command [boom] throws; ["/nosuchcmd"] is unknown; ["hello"] has no
    prefix; on [Example.deadSock] the acknowledgement is rejected.  Each
    message is dropped when delivered again. *)
Lemma C9_entry_consumed_before_processing_witness :
  Forall (fun '(sock, b) =>
    let m := Example.text "3EB0C767D26A1B2E4F" b in
    let first := handleIncomingMessage configExample 1000 sock (Some m) Example.state in
    count isExecute (traceOf first) = (if String.eqb b "/boom" then 1 else 0)%nat
    /\ handleIncomingMessage configExample 2000 Example.sock (Some m) (stateOf first)
       = (stateOf first, [duplicateLog], Return tt))
    [(Example.sock, "/boom"); (Example.sock, "/nosuchcmd"); (Example.sock, "hello");
     (Example.deadSock, "/yt foo")].
Proof.
  assert (forall sock b,
            let m := Example.text "3EB0C767D26A1B2E4F" b in
            let first := handleIncomingMessage configExample 1000 sock (Some m) Example.state in
            handleIncomingMessage configExample 2000 Example.sock (Some m) (stateOf first)
            = (stateOf first, [duplicateLog], Return tt)) as again.
  { intros sock b.
    apply (C9_entry_consumed_before_processing configExample sock 1000
             (Example.text "3EB0C767D26A1B2E4F" b) (Example.keyOf "3EB0C767D26A1B2E4F")
             "3EB0C767D26A1B2E4F" Example.state).
    - repeat split; (discriminate || reflexivity).
    - reflexivity.
    - unfold ttlMs, NodeCache.stdTTL; lia.
    - reflexivity. }
  repeat (constructor; [split; [vm_compute; reflexivity|apply again]|]).
  constructor.
Defined.

(** C10.  [extractMessageInfo] returns a record on every message, without
    raising, logging or touching the state.  Without key or chat the record
    has the body [""], the chat [""] and the name ["Unknown"]; for a type
    outside the seven kinds the body is [""].  A message with such a record
    is dropped by [handleIncomingMessage] at the test of the body: once it
    is in the cache and acknowledged nothing else happens, and no fault is
    logged. *)
Theorem C10_extractMessageInfo_total sock msg s :
  exists info,
    extractMessageInfo sock msg s = (s, [], Return info)
    /\ ((msg = None
         \/ exists m, msg = Some m
              /\ (WA.key m = None
                  \/ exists k, WA.key m = Some k /\ Js.truthy (remoteJid k) = false)) ->
        info = noMessageInfo)
    /\ (~ In (type info) recognizedTypes -> body info = JStr "")
    /\ (forall cfg now m k i,
          msg = Some m -> passesFilters m k i ->
          NodeCache.has now (processedMessagesCache s) i = false ->
          readMessages sock [k] = None ->
          ~ In (type info) recognizedTypes \/ body info = JStr "" ->
          handleIncomingMessage cfg now sock msg s
          = (setCache (NodeCache.set now (processedMessagesCache s) i) s,
             [EReadMessages [k]], Return tt)).
Proof.
  assert (exists info,
            (forall s', extractMessageInfo sock msg s' = (s', [], Return info))
            /\ ((msg = None
                 \/ exists m, msg = Some m
                      /\ (WA.key m = None
                          \/ exists k, WA.key m = Some k /\ Js.truthy (remoteJid k) = false)) ->
                info = noMessageInfo)
            /\ (~ In (type info) recognizedTypes -> body info = JStr "")) as (info & E & Hno & Hty).
  { destruct msg as [m|].
    { destruct (WA.key m) as [k|] eqn:Hk.
      - destruct (Js.truthy (remoteJid k)) eqn:Ht.
        + destruct (remoteJid k) as [jid|] eqn:Hj; [|discriminate].
          assert (jid <> "") as Hne by (intros ->; discriminate).
          exists (infoOf m jid). split; [|split].
          * intros s'. apply (extractMessageInfo_named sock m k jid s' Hk Hj Hne).
          * intros [H|(m' & [= <-] & [H|(k' & Hk' & H)])]; congruence.
          * cbn [type body infoOf]. apply bodyOf_unrecognized.
        + exists noMessageInfo. split; [|split; [reflexivity|reflexivity]].
          intros s'. apply extractMessageInfo_unnamed. now rewrite Hk.
      - exists noMessageInfo. split; [|split; [reflexivity|reflexivity]].
        intros s'. apply extractMessageInfo_unnamed. now rewrite Hk. }
    exists noMessageInfo. split; [|split; [reflexivity|reflexivity]].
    intros s'. reflexivity. }
  exists info. repeat split; auto.
  intros cfg now m k i -> Hp Hhas Hr Hbody.
  rewrite (handle_fresh cfg now sock m k i s Hp Hhas). unfold tryCatch.
  rewrite (acknowledgeAndDispatch_empty_body cfg sock m k _ info Hr (E _)); [reflexivity|].
  destruct Hbody as [H|H]; [rewrite (Hty H)|rewrite H]; reflexivity.
Qed.

(** A sticker is of none of the seven kinds: the record has an empty body
    and the message goes no further than the acknowledgement. *)
Lemma C10_extractMessageInfo_total_witness :
  let k := Example.keyOf "3EB0C767D26A1B2E4F" in
  let sticker :=
    {| WA.key := Some k;
       WA.message := Some [("stickerMessage", JObj [("url", JStr "https://mmg.whatsapp.net/s")])];
       WA.pushName := Some "Azum" |} in
  exists info,
    extractMessageInfo Example.sock (Some sticker) Example.state
    = (Example.state, [], Return info)
    /\ body info = JStr ""
    /\ traceOf (handleIncomingMessage configExample 1000 Example.sock (Some sticker) Example.state)
       = [EReadMessages [k]].
Proof.
  intros k sticker.
  destruct (C10_extractMessageInfo_total Example.sock (Some sticker) Example.state)
    as (info & E & _ & Hty & Hdrop).
  assert (info = infoOf sticker Example.chat) as ->.
  { vm_compute in E. injection E as <-. reflexivity. }
  assert (~ In (type (infoOf sticker Example.chat)) recognizedTypes) as Hnot.
  { cbn. intros H. repeat (destruct H as [H|H]; [discriminate|]). exact H. }
  exists (infoOf sticker Example.chat). split; [exact E|]. split; [exact (Hty Hnot)|].
  rewrite (Hdrop configExample 1000%Z sticker k "3EB0C767D26A1B2E4F" eq_refl); auto.
  repeat split; (discriminate || reflexivity).
Defined.
(** * Further properties of the code *)

(** ** The dispatcher *)










(** X6.  A delivery changes the cache of processed identifiers at one
    place at most: under the identifier of the message delivered, and only
    when that identifier had no live entry; the entry then expires one
    hour after the delivery.  Every other entry, and every live entry, is
    left as it was. *)
Theorem X6_cache_only_grows cfg now sock msg s j :
  let after := processedMessagesCache (stateOf (handleIncomingMessage cfg now sock msg s)) in
  after !! j = processedMessagesCache s !! j
  \/ (NodeCache.has now (processedMessagesCache s) j = false
      /\ after !! j = Some (now + 3600 * 1000)%Z
      /\ exists m k, msg = Some m /\ WA.key m = Some k /\ id k = Some j).
Proof.
  intros after. subst after.
  destruct (handle_shape cfg now sock msg s) as (s1 & t & -> & Hs & _).
  unfold stateOf. cbn [fst].
  destruct Hs as [->|(m & k & i & -> & Hp & Hhas & -> & _)]; [left; reflexivity|].
  cbn [processedMessagesCache setCache]. unfold NodeCache.set.
  destruct (decide (i = j)) as [->|Hne].
  - right. rewrite lookup_insert_eq. split; [exact Hhas|]. split; [reflexivity|].
    destruct Hp as (_ & Hk & _ & Hi & _). eauto.
  - left. now rewrite lookup_insert_ne.
Qed.

(** X7.  The entry of a message lasts one hour and no longer: delivered
    again more than [ttlMs] after its first delivery, the message is not
    taken for a duplicate.  It is acknowledged and dispatched as it was the
    first time, with the same events, and its entry is renewed. *)
Theorem X7_redelivery_after_ttl cfg sock now now' m k i s :
  passesFilters m k i ->
  NodeCache.has now (processedMessagesCache s) i = false ->
  (now + ttlMs < now')%Z ->
  let first := handleIncomingMessage cfg now sock (Some m) s in
  let second := handleIncomingMessage cfg now' sock (Some m) (stateOf first) in
  traceOf second = traceOf first
  /\ (exists t, traceOf second = EReadMessages [k] :: t)
  /\ processedMessagesCache (stateOf second) !! i = Some (now' + ttlMs)%Z.
Proof.
  intros Hp Hhas Hlate first second.
  set (s1 := setCache (NodeCache.set now (processedMessagesCache s) i) s).
  assert (stateOf first = s1) as Hs1.
  { subst first. destruct (handle_fresh_run cfg now sock m k i s Hp Hhas) as [t ->].
    reflexivity. }
  assert (NodeCache.has now' (processedMessagesCache s1) i = false) as Hhas'.
  { apply has_set_expired. exact Hlate. }
  destruct (handle_fresh_run cfg now' sock m k i s1 Hp Hhas') as [t2 E2].
  subst second. rewrite Hs1.
  split; [|split].
  - subst first.
    rewrite (handle_fresh cfg now sock m k i s Hp Hhas),
      (handle_fresh cfg now' sock m k i s1 Hp Hhas').
    fold s1. set (s2 := setCache _ s1).
    destruct (acknowledgeAndDispatch_frame cfg sock m k s1 s2 eq_refl) as (t & r & E & E').
    unfold tryCatch. rewrite E, E'.
    destruct r as [a|[v|e]|c]; unfold_monad; reflexivity.
  - rewrite E2. eauto.
  - rewrite E2. unfold stateOf. cbn. unfold NodeCache.set, ttlMs.
    now rewrite lookup_insert_eq.
Qed.

(** ["/yt foo"] calls [yt] at its first delivery, and again when it comes
    back an hour and a second later. *)
Lemma X7_redelivery_after_ttl_witness :
  let m := Example.text "3EB0C767D26A1B2E4F" "/yt foo" in
  let first := handleIncomingMessage configExample 1000 Example.sock (Some m) Example.state in
  let second :=
    handleIncomingMessage configExample 3602000 Example.sock (Some m) (stateOf first) in
  traceOf second = traceOf first
  /\ count isExecute (traceOf first) = 1%nat.
Proof.
  intros m first second.
  destruct (X7_redelivery_after_ttl configExample Example.sock 1000 3602000 m
              (Example.keyOf "3EB0C767D26A1B2E4F") "3EB0C767D26A1B2E4F" Example.state)
    as (Hsame & _ & _).
  - repeat split; (discriminate || reflexivity).
  - reflexivity.
  - unfold ttlMs, NodeCache.stdTTL. lia.
  - split; [exact Hsame|]. vm_compute. reflexivity.
Defined.

(** X8.  When the read acknowledgement of a message is rejected, the
    message goes no further: the fault is logged as an error of the
    processing and no command is called, though the body names one.  The
    identifier stays in the cache: delivered anew within the hour, on
    whatever socket, the message is skipped as a duplicate and not tried
    again. *)
Theorem X8_rejected_acknowledgement cfg now sock m k i err s :
  passesFilters m k i ->
  NodeCache.has now (processedMessagesCache s) i = false ->
  readMessages sock [k] = Some err ->
  let s1 := setCache (NodeCache.set now (processedMessagesCache s) i) s in
  handleIncomingMessage cfg now sock (Some m) s
  = (s1, [EReadMessages [k]; processingError err], Return tt)
  /\ (forall sock' now', (now' <= now + ttlMs)%Z ->
        handleIncomingMessage cfg now' sock' (Some m) s1
        = (s1, [duplicateLog], Return tt)).
Proof.
  intros Hp Hhas Hr s1. split.
  - apply (handle_unacknowledged cfg now sock m k i err s Hp Hhas Hr).
  - intros sock' now' Hnow. apply (handle_duplicate cfg now' sock' m k i s1 Hp).
    subst s1. destruct s. cbn. apply has_set_same. exact Hnow.
Qed.

(** On [Example.deadSock] the command of ["/yt foo"] is not called; the
    message is not tried again when it comes back a minute later on a
    socket that works. *)
Lemma X8_rejected_acknowledgement_witness :
  let m := Example.text "3EB0C767D26A1B2E4F" "/yt foo" in
  let first := handleIncomingMessage configExample 1000 Example.deadSock (Some m) Example.state in
  traceOf first
  = [EReadMessages [Example.keyOf "3EB0C767D26A1B2E4F"];
     ELog "danger" "Error processing message: Connection Closed"]
  /\ traceOf (handleIncomingMessage configExample 61000 Example.sock (Some m) (stateOf first))
     = [duplicateLog].
Proof.
  intros m first.
  destruct (X8_rejected_acknowledgement configExample 1000 Example.deadSock m
              (Example.keyOf "3EB0C767D26A1B2E4F") "3EB0C767D26A1B2E4F"
              {| errMessage := Some "Connection Closed" |} Example.state)
    as [E1 E2]; try reflexivity.
  { repeat split; (discriminate || reflexivity). }
  subst first. rewrite E1. split; [reflexivity|].
  unfold stateOf. cbn [fst]. rewrite (E2 Example.sock 61000%Z); [reflexivity|].
  unfold ttlMs. vm_compute. discriminate.
Defined.

(** ** Batches of events *)

(** X9.  Within one [messages.upsert] event, a message whose identifier
    has been met earlier in the list is passed over without a trace: it is
    not handed to [handleIncomingMessage], so that not even the line about
    a duplicate is logged.  Handling the batch with the repeat and without
    it are the same run. *)
Theorem X9_batch_repeat_dropped cfg sock ty before now1 m1 mid now2 m2 after i s :
  batchId (Some m1) = Some i ->
  batchId (Some m2) = Some i ->
  onMessagesUpsert cfg sock
    (batchOf ty (before ++ (now1, Some m1) :: mid ++ (now2, Some m2) :: after)) s
  = onMessagesUpsert cfg sock (batchOf ty (before ++ (now1, Some m1) :: mid ++ after)) s.
Proof.
  intros H1 H2.
  destruct (decide (ty = Some "notify")) as [->|Hty].
  - rewrite !onMessagesUpsert_notify by (destruct before; discriminate).
    unfold tryCatch, bind.
    rewrite (upsertLoop_repeat cfg sock before now1 m1 mid now2 m2 after i ∅ s H1 H2).
    reflexivity.
  - rewrite !onMessagesUpsert_ignored by (left; exact Hty). reflexivity.
Qed.

(** ["/yt foo"] twice in a batch, with ["/boom"] in between: [yt] is called
    once, and the batch leaves the events of the batch without the
    repeat. *)
Lemma X9_batch_repeat_dropped_witness :
  let yt := Example.text "3EB0C767D26A1B2E4F" "/yt foo" in
  let boom := Example.text "3EB0C767D26A1B2E50" "/boom" in
  let run msgs := onMessagesUpsert configExample Example.sock
                    (batchOf (Some "notify") msgs) Example.state in
  run [(1000, Some yt); (1010, Some boom); (1020, Some yt)]%Z
  = run [(1000, Some yt); (1010, Some boom)]%Z
  /\ count isExecute (traceOf (run [(1000, Some yt); (1010, Some boom); (1020, Some yt)]%Z))
     = 2%nat.
Proof.
  intros yt boom run. split.
  - apply (X9_batch_repeat_dropped configExample Example.sock (Some "notify") []
             1000 yt [(1010%Z, Some boom)] 1020 yt [] "3EB0C767D26A1B2E4F");
      reflexivity.
  - vm_compute. reflexivity.
Defined.

(** X10.  The [messages.upsert] part of the handler never throws and never
    ends the process, whatever the batch holds.  It calls no more commands
    than the batch has distinct identifiers, plus one for each message
    without an identifier; it sets no timer, and leaves the registry and
    the reconnection counter as they were. *)
Theorem X10_batch_calls_bounded cfg sock chatUpdate s :
  let run := onMessagesUpsert cfg sock chatUpdate s in
  let msgs := default [] (ChatUpdate.messages chatUpdate) in
  (exists goOn, resultOf run = Return goOn)
  /\ commands (stateOf run) = commands s
  /\ reconnectAttempts (stateOf run) = reconnectAttempts s
  /\ count isTimer (traceOf run) = 0%nat
  /\ (count isExecute (traceOf run) <= size (batchIds msgs) + length (unnamed msgs))%nat.
Proof. apply onMessagesUpsert_shape. Qed.

(** X11.  The handler of a batch of events never throws, whatever the
    batch holds and whatever fails: it returns, or it ends the process
    with code 1, and that only when the batch carries the close of the
    connection.  A failure to save the credentials is logged and the rest
    of the batch is handled: the run is the run in which the credentials
    are saved, after the line about the failure.  The registry is left as
    it was; one timer at most is set; and no more commands are called than
    the [messages.upsert] event has distinct identifiers, plus one for each
    of its messages without identifier. *)
Theorem X11_batch_handler_total cfg loggedOut fs sock saveCreds events groupCache s :
  let run := processEvents cfg loggedOut fs sock saveCreds events groupCache s in
  let bound :=
    match messagesUpsert events with
    | Some chatUpdate =>
        let msgs := default [] (ChatUpdate.messages chatUpdate) in
        (size (batchIds msgs) + length (unnamed msgs))%nat
    | None => 0%nat
    end in
  ((exists groupCache', resultOf run = Return groupCache') \/ resultOf run = ProcessExit 1)
  /\ (resultOf run = ProcessExit 1 -> connectionUpdate events ≫= connection = Some "close")
  /\ commands (stateOf run) = commands s
  /\ (count isTimer (traceOf run) <= 1)%nat
  /\ (count isExecute (traceOf run) <= bound)%nat
  /\ (forall err : JsError,
        credsUpdate events = true ->
        processEvents cfg loggedOut fs sock (Some err) events groupCache s
        = let '(s', t, r) := processEvents cfg loggedOut fs sock None events groupCache s in
          (s',
           ELog "danger" ("Failed to save credentials: " ++ Js.render (errMessage err)) :: t,
           r)).
Proof.
  intros run bound.
  pose proof (processEvents_shape cfg loggedOut fs sock saveCreds events groupCache s)
    as (H1 & H2 & H3 & H4 & H5).
  repeat (split; [assumption|]).
  intros err Hcreds. now apply processEvents_creds.
Qed.

(** X12.  A [messages.upsert] event that is not of type [notify], or that
    holds no message, ends the handling of the whole batch of events: once
    the credentials are saved the handler returns, and the [groups.update],
    [group-participants.update] and [connection.update] events of the same
    batch are not handled.  In particular a close of the connection that
    comes in such a batch schedules no reconnection. *)
Theorem X12_ignored_upsert_drops_batch cfg loggedOut fs sock saveCreds events chatUpdate
    groupCache s :
  messagesUpsert events = Some chatUpdate ->
  (ChatUpdate.type chatUpdate <> Some "notify"
   \/ ChatUpdate.messages chatUpdate = None
   \/ ChatUpdate.messages chatUpdate = Some []) ->
  processEvents cfg loggedOut fs sock saveCreds events groupCache s
  = (s,
     match saveCreds with
     | Some err =>
         if credsUpdate events then
           [ELog "danger" ("Failed to save credentials: " ++ Js.render (errMessage err))]
         else []
     | None => []
     end,
     Return groupCache).
Proof.
  intros Hm Hign. unfold processEvents. rewrite Hm.
  pose proof (onMessagesUpsert_ignored cfg sock chatUpdate s Hign) as E.
  destruct saveCreds as [err|], (credsUpdate events);
    unfold_monad; cbn; rewrite E; reflexivity.
Qed.

(** The connection is lost in a batch that also carries a
    [messages.upsert] event.  When the event is of type ["append"] nothing
    is handled and no reconnection is scheduled; when it is of type
    ["notify"] the command is called and the reconnection scheduled. *)
Lemma X12_ignored_upsert_drops_batch_witness :
  let run ty := processEvents configExample 401 Example.healthyFs Example.sock None
                  (Scenario.closing ty) ∅ Example.state in
  run "append" = (Example.state, [], Return ∅)
  /\ count isExecute (traceOf (run "notify")) = 1%nat
  /\ count isTimer (traceOf (run "notify")) = 1%nat.
Proof.
  intros run. split.
  - apply (X12_ignored_upsert_drops_batch configExample 401 Example.healthyFs Example.sock
             None (Scenario.closing "append") _ ∅ Example.state eq_refl).
    left. discriminate.
  - vm_compute. split; reflexivity.
Defined.

(** ** The cache of group metadata *)

(** X13.  When the metadata of the group of a [groups.update] or
    [group-participants.update] event can be had, it is stored in the
    cache under the identifier of the group, and nothing is logged.  The
    [cachedGroupMetadata] callback then answers it for 300 seconds, and
    [undefined] afterwards; what it answers for other groups is as
    before. *)
Theorem X13_group_metadata_round_trip sock now event jid subject groupCache s :
  groupId event = Some jid -> jid <> "" ->
  groupMetadata sock jid = inr subject ->
  exists refreshed,
    handleGroupUpdate sock now (Some event) groupCache s
    = (s, [EGroupMetadata jid], Return refreshed)
    /\ handleGroupParticipantUpdate sock now (Some event) groupCache s
       = (s, [EGroupMetadata jid], Return refreshed)
    /\ (forall now' s', (now' <= now + 300 * 1000)%Z ->
          cachedGroupMetadata now' refreshed jid s' = (s', [], Return (metadataWith subject)))
    /\ (forall now' s', (now + 300 * 1000 < now')%Z ->
          cachedGroupMetadata now' refreshed jid s' = (s', [], Return JNull))
    /\ (forall other now' s', other <> jid ->
          cachedGroupMetadata now' refreshed other s'
          = cachedGroupMetadata now' groupCache other s').
Proof.
  intros Hid Hne Hmeta.
  exists (GroupCache.set now groupCache jid (metadataWith subject)).
  rewrite handleGroupUpdate_run, handleGroupParticipantUpdate_run. cbn [mbind option_bind].
  rewrite Hid, Hmeta. destruct (String.eqb_spec jid ""); [contradiction|].
  split; [reflexivity|]. split; [reflexivity|].
  split; [|split].
  - intros now' s' Hlive. rewrite cachedGroupMetadata_run, groupCache_get_set_same.
    unfold groupTtlMs, GroupCache.stdTTL.
    destruct (Z.ltb_spec (now + 300 * 1000) now'); [lia|reflexivity].
  - intros now' s' Hlate. rewrite cachedGroupMetadata_run, groupCache_get_set_same.
    unfold groupTtlMs, GroupCache.stdTTL.
    destruct (Z.ltb_spec (now + 300 * 1000) now'); [reflexivity|lia].
  - intros other now' s' Hother.
    rewrite !cachedGroupMetadata_run, groupCache_get_set_other by assumption. reflexivity.
Qed.

(** The subject of the group is served five minutes, and not a
    millisecond more. *)
Lemma X13_group_metadata_round_trip_witness :
  exists refreshed,
    handleGroupUpdate Example.sock 1000 (Some {| groupId := Some Scenario.group |}) ∅
      Example.state
    = (Example.state, [EGroupMetadata Scenario.group], Return refreshed)
    /\ resultOf (cachedGroupMetadata 301000 refreshed Scenario.group Example.state)
       = Return (JObj [("subject", JStr "Friends")])
    /\ resultOf (cachedGroupMetadata 301001 refreshed Scenario.group Example.state)
       = Return JNull.
Proof.
  destruct (X13_group_metadata_round_trip Example.sock 1000 {| groupId := Some Scenario.group |}
              Scenario.group (Some "Friends") ∅ Example.state eq_refl)
    as (refreshed & E & _ & Hlive & Hlate & _); [discriminate|reflexivity|].
  exists refreshed. split; [exact E|]. split.
  - rewrite Hlive by lia. reflexivity.
  - rewrite Hlate by lia. reflexivity.
Defined.

(** X14.  When the metadata cannot be had, the two handlers part ways.
    [handleGroupUpdate] evicts the entry of the group: from then on the
    cache answers [undefined] for it, even if it held a live entry.
    [handleGroupParticipantUpdate] leaves the cache as it is, so a live
    entry goes on being served.  Both log the fault once, with the
    identifier of the group, and return normally. *)
Theorem X14_group_refresh_failure sock now event jid err groupCache s :
  groupId event = Some jid -> jid <> "" ->
  groupMetadata sock jid = inl err ->
  (exists evicted,
     handleGroupUpdate sock now (Some event) groupCache s
     = (s,
        [EGroupMetadata jid;
         ELog "danger" ("Failed to update metadata for group " ++ jid ++ ": "
                        ++ Js.render (errMessage err))],
        Return evicted)
     /\ (forall now' s', cachedGroupMetadata now' evicted jid s' = (s', [], Return JNull))
     /\ (forall other now' s', other <> jid ->
           cachedGroupMetadata now' evicted other s'
           = cachedGroupMetadata now' groupCache other s'))
  /\ handleGroupParticipantUpdate sock now (Some event) groupCache s
     = (s,
        [EGroupMetadata jid;
         ELog "danger" ("Failed to update participants for group " ++ jid ++ ": "
                        ++ Js.render (errMessage err))],
        Return groupCache).
Proof.
  intros Hid Hne Hmeta.
  rewrite handleGroupUpdate_run, handleGroupParticipantUpdate_run. cbn [mbind option_bind].
  rewrite Hid, Hmeta. destruct (String.eqb_spec jid ""); [contradiction|].
  split; [|reflexivity].
  exists (GroupCache.del groupCache jid). split; [reflexivity|]. split.
  - intros now' s'. rewrite cachedGroupMetadata_run, groupCache_get_del_same. reflexivity.
  - intros other now' s' Hother.
    rewrite !cachedGroupMetadata_run, groupCache_get_del_other by assumption. reflexivity.
Qed.

(** A group is cached, then its metadata can no longer be had: after a
    [groups.update] event the cache has forgotten it, after a
    [group-participants.update] event it still serves it. *)
Lemma X14_group_refresh_failure_witness :
  let event := Some {| groupId := Some Scenario.group |} in
  let cached := GroupCache.set 1000 ∅ Scenario.group (metadataWith (Some "Friends")) in
  let served gc := resultOf (cachedGroupMetadata 3000 gc Scenario.group Example.state) in
  (exists evicted,
     resultOf (handleGroupUpdate Scenario.noMetadataSock 2000 event cached Example.state)
     = Return evicted
     /\ served evicted = Return JNull)
  /\ (exists kept,
        resultOf (handleGroupParticipantUpdate Scenario.noMetadataSock 2000 event cached
                    Example.state)
        = Return kept
        /\ served kept = Return (metadataWith (Some "Friends"))).
Proof.
  intros event cached served.
  destruct (X14_group_refresh_failure Scenario.noMetadataSock 2000
              {| groupId := Some Scenario.group |} Scenario.group
              {| errMessage := Some "item-not-found" |} cached Example.state eq_refl)
    as [(evicted & E & Hgone & _) Ekept]; [discriminate|reflexivity|].
  split.
  - exists evicted. subst event. rewrite E. split; [reflexivity|].
    unfold served. now rewrite Hgone.
  - exists cached. subst event. rewrite Ekept. split; [reflexivity|].
    vm_compute. reflexivity.
Defined.

(** ** Loading the commands, and the watcher *)

(** X15.  The watcher schedules one reload per file at a time.  The
    change of a command file that is not being reloaded is logged and
    schedules a reload 500 ms later; until that reload has run, further
    changes of the same file are dropped without a trace, while the change
    of another command file schedules a reload of its own.  Once the
    reload has run the file is free again, and its next change schedules a
    new reload. *)
Theorem X15_watcher_debounce cfg env f s :
  f <> "" -> Js.endsWith f ".js" = true -> f ∉ processingFiles s ->
  let first := onCommandsChange (Some f) s in
  let pending := stateOf first in
  let reloaded := stateOf (reloadCommands cfg env f pending) in
  first
  = (pending,
     [ELog "info" ("Detected change in " ++ f ++ ", reloading commands...");
      ESetTimeout (ReloadCommands f) 500],
     Return tt)
  /\ onCommandsChange (Some f) pending = (pending, [], Return tt)
  /\ (forall g, g <> "" -> Js.endsWith g ".js" = true -> g <> f -> g ∉ processingFiles s ->
        timersOf (traceOf (onCommandsChange (Some g) pending))
        = [ESetTimeout (ReloadCommands g) 500])
  /\ (f ∉ processingFiles reloaded)
  /\ (forall g, g <> f -> (g ∈ processingFiles reloaded) <-> (g ∈ processingFiles s))
  /\ timersOf (traceOf (onCommandsChange (Some f) reloaded))
     = [ESetTimeout (ReloadCommands f) 500].
Proof.
  intros Hne Hjs Hout first pending reloaded.
  assert (first = (setProcessingFiles (f :: processingFiles s) s,
                   [ELog "info" ("Detected change in " ++ f ++ ", reloading commands...");
                    ESetTimeout (ReloadCommands f) 500], Return tt)) as E
    by now apply onCommandsChange_accepted.
  assert (pending = setProcessingFiles (f :: processingFiles s) s) as Hpending
    by (subst pending; now rewrite E).
  destruct (loadCommands_pure env (commandsPath cfg)) as (t & reg & Eload).
  assert (processingFiles reloaded
          = List.filter (fun x => negb (String.eqb x f)) (f :: processingFiles s)) as Hfiles.
  { subst reloaded. rewrite (reloadCommands_run cfg env f pending t reg (Eload _)).
    rewrite Hpending. reflexivity. }
  assert (f ∉ processingFiles reloaded) as Hfree.
  { rewrite Hfiles, elem_of_filter_ne. tauto. }
  split; [now rewrite Hpending|].
  split; [|split; [|split; [exact Hfree|split]]].
  - apply onCommandsChange_pending. rewrite Hpending. cbn. apply list_elem_of_here.
  - intros g Hg Hgjs Hgf Hgout.
    rewrite onCommandsChange_accepted; [reflexivity|assumption|assumption|].
    rewrite Hpending. cbn. intros [->|H]%elem_of_cons; contradiction.
  - intros g Hgf. rewrite Hfiles, elem_of_filter_ne, elem_of_cons. tauto.
  - rewrite onCommandsChange_accepted by assumption. reflexivity.
Qed.

(** [yt.js] is saved three times in a row, then reloaded, then saved
    again: two reloads are scheduled in all. *)
Lemma X15_watcher_debounce_witness :
  let change s := onCommandsChange (Some "yt.js") s in
  let s1 := stateOf (change Example.state) in
  let s2 := stateOf (change s1) in
  let s3 := stateOf (change s2) in
  let s4 := stateOf (reloadCommands configExample Example.commandsDir "yt.js" s3) in
  count isTimer (traceOf (change Example.state) ++ traceOf (change s1) ++ traceOf (change s2))
  = 1%nat
  /\ timersOf (traceOf (change s4)) = [ESetTimeout (ReloadCommands "yt.js") 500].
Proof.
  intros change s1 s2 s3 s4.
  destruct (X15_watcher_debounce configExample Example.commandsDir "yt.js" Example.state)
    as (E1 & E2 & _ & _ & _ & Hagain).
  - discriminate.
  - reflexivity.
  - apply not_elem_of_nil.
  - fold (change Example.state) in E1, E2, Hagain. fold s1 in E1, E2, Hagain.
    assert (s2 = s1) as Hs2 by (subst s2; unfold change at 1; now rewrite E2).
    assert (s3 = s1) as Hs3 by (subst s3; rewrite Hs2; unfold change at 1; now rewrite E2).
    split.
    + rewrite Hs2. unfold change at 2 3. rewrite E2. rewrite E1. reflexivity.
    + subst s4. rewrite Hs3. exact Hagain.
Defined.

(** X16.  The registry in use is a function of the commands directory
    alone.  [initializeCommands] at start-up and every reload install the
    map the loader returns for the directory as it is then, whatever the
    registry held before; both return normally, and neither ever enters
    its [catch]: after the lines of the loader, the only line logged is
    the one that reports the size of the new map. *)
Theorem X16_registry_from_directory cfg env f s s' :
  exists t reg,
    (forall s0, loadCommands env (commandsPath cfg) s0 = (s0, t, Return reg))
    /\ initializeCommands cfg env s
       = (setCommands reg s,
          t ++ [ELog "success" ("Successfully loaded " ++ pretty (size reg) ++ " commands.")],
          Return tt)
    /\ commands (stateOf (reloadCommands cfg env f s')) = reg
    /\ traceOf (reloadCommands cfg env f s')
       = t ++ [ELog "success" ("Commands reloaded successfully. Total: " ++ pretty (size reg))]
    /\ resultOf (reloadCommands cfg env f s') = Return tt.
Proof.
  destruct (loadCommands_pure env (commandsPath cfg)) as (t & reg & E).
  exists t, reg. split; [exact E|].
  rewrite (initializeCommands_run cfg env s t reg (E s)).
  rewrite (reloadCommands_run cfg env f s' t reg (E s')).
  repeat split.
Qed.

(** X17.  Of the commands directory the loader reads the entries that end
    in [".js"] and nothing else: no other entry is imported, counted or
    logged.  Two directories with the same such entries, in the same
    order, whose import gives the same, load alike, whatever else they
    hold. *)
Theorem X17_loader_reads_js_files_only env env' dir s entries entries' :
  existsSync env = true -> existsSync env' = true ->
  readdirSync env = inr entries -> readdirSync env' = inr entries' ->
  filter (fun file => Js.endsWith file ".js" = true) entries
  = filter (fun file => Js.endsWith file ".js" = true) entries' ->
  (forall file, Js.endsWith file ".js" = true -> import env file = import env' file) ->
  loadCommands env dir s = loadCommands env' dir s.
Proof.
  intros Hex Hex' Hdir Hdir' Hfiles Himport.
  unfold loadCommands. rewrite Hex, Hex', Hdir, Hdir'. cbn [negb]. rewrite <- Hfiles.
  set (files := filter _ entries).
  assert (Forall (fun file => import env file = import env' file) files) as Hall.
  { apply List.Forall_forall. intros file Hin. apply Himport.
    apply list_elem_of_In in Hin. subst files. apply list_elem_of_filter in Hin. tauto. }
  unfold tryCatch, bind. unfold_monad.
  rewrite (loadCommandFiles_ext env env' files ∅ s Hall). reflexivity.
Qed.

(** [Example.commandsDir] without its [README.md], and with a [notes.txt]
    that cannot be read, loads as before. *)
Lemma X17_loader_reads_js_files_only_witness :
  let other :=
    {| existsSync := true; mkdirSync := None;
       readdirSync := inr ["notes.txt"; "yt.js"; "broken.js"; "boom.js"; "draft.js"];
       import := fun file =>
         if String.eqb file "notes.txt" then
           inl (ThrownError {| errMessage := Some "EACCES" |})
         else import Example.commandsDir file |} in
  loadCommands Example.commandsDir "./commands" Example.emptyState
  = loadCommands other "./commands" Example.emptyState.
Proof.
  intros other.
  apply (X17_loader_reads_js_files_only Example.commandsDir other "./commands"
           Example.emptyState
           ["yt.js"; "README.md"; "broken.js"; "boom.js"; "draft.js"]
           ["notes.txt"; "yt.js"; "broken.js"; "boom.js"; "draft.js"]);
    try reflexivity.
  intros file Hjs. cbn [import other].
  destruct (String.eqb_spec file "notes.txt") as [->|_]; [discriminate|reflexivity].
Defined.

(** X18.  A directory that is missing is created by the loader and by
    [ensureDirectoryExists] alike, with a line of type ["info"].  When it
    cannot be created they differ: the loader logs the fault and answers
    the empty registry, without throwing and without reading anything,
    whereas [ensureDirectoryExists] logs the fault and throws it again to
    its caller; it throws in that case only. *)
Theorem X18_missing_directory env fs dir s :
  existsSync env = false -> dirExists fs = false ->
  (exists t,
     loadCommands env dir s
     = (s, ELog "warning" ("Commands directory not found: " ++ dir) :: t, Return ∅)
     /\ match mkdirSync env with
        | None => t = [ELog "info" ("Created commands directory: " ++ dir)]
        | Some err =>
            t = [ELog "danger" ("Error loading commands: " ++ Js.render (errMessage err))]
        end)
  /\ ensureDirectoryExists fs dir s
     = match dirMkdir fs with
       | None => (s, [ELog "info" ("Created directory: " ++ dir)], Return tt)
       | Some err =>
           (s, [ELog "danger" ("Failed to create directory: " ++ dir ++ ": "
                               ++ Js.render (errMessage err))],
            Throw err)
       end
  /\ (forall fs' (thrown : Thrown),
        resultOf (ensureDirectoryExists fs' dir s) = Throw thrown
        <-> dirExists fs' = false
            /\ exists err, dirMkdir fs' = Some err /\ thrown = ThrownError err).
Proof.
  intros Hex Hdir. split; [|split].
  - unfold loadCommands. rewrite Hex. unfold_monad. cbn.
    destruct (mkdirSync env); eexists; split; reflexivity.
  - unfold ensureDirectoryExists. rewrite Hdir. unfold_monad. cbn.
    destruct (dirMkdir fs); [|reflexivity]. rewrite string_app_assoc. reflexivity.
  - intros fs' thrown. unfold ensureDirectoryExists. unfold_monad.
    destruct (dirExists fs'); cbn.
    + split; [discriminate|intros [[=] _]].
    + destruct (dirMkdir fs') as [err'|]; cbn.
      * split; [intros [= <-]; eauto|intros [_ (err & [= ->] & ->)]; reflexivity].
      * split; [discriminate|intros [_ (err & [=] & _)]].
Qed.

(** On a disk where nothing can be created the loader answers the empty
    registry, and [ensureDirectoryExists] throws. *)
Lemma X18_missing_directory_witness :
  let full := {| errMessage := Some "ENOSPC: no space left on device, mkdir" |} in
  let env := {| existsSync := false; mkdirSync := Some full;
                readdirSync := inr ["yt.js"]; import := fun _ => inr (Some Example.yt) |} in
  let fs := {| dirExists := false; dirMkdir := Some full |} in
  resultOf (loadCommands env "./commands" Example.emptyState) = Return ∅
  /\ resultOf (ensureDirectoryExists fs "./session" Example.emptyState) = Throw full.
Proof.
  intros full env fs.
  destruct (X18_missing_directory env fs "./commands" Example.emptyState eq_refl eq_refl)
    as ((t & E & _) & _ & _).
  destruct (X18_missing_directory env fs "./session" Example.emptyState eq_refl eq_refl)
    as (_ & E' & _).
  rewrite E, E'. split; reflexivity.
Defined.

(** X19.  A command file that used to load no longer does, its import
    throws, and the directory is otherwise the same (no import of which
    rejects with [null] or [undefined]).  The reload installs the registry
    loaded then, and the previous one is not kept.
    - When the import throws an error object, the registry loaded keeps
      every key the command of that file did not claim, bound as before,
      and no longer holds a key that no other file claims: the commands of
      the broken file are gone, those of the other files are untouched;
      the fault is logged with the name of the file.
    - When the import rejects with [null] or [undefined], [handleError]
      fails in the [catch] of the turn and the loop over the files is
      abandoned: the registry loaded is the one of the files that come
      before the broken one, so that the commands of the files after it
      are gone as well; no line names the broken file, and the last line
      of the loader is that of its outer [catch]. *)
Theorem X19_broken_file_loses_its_commands cfg env env' f s entries file cmd thrown :
  existsSync env = true -> existsSync env' = true ->
  readdirSync env = inr entries -> readdirSync env' = inr entries ->
  In file entries -> Js.endsWith file ".js" = true ->
  let files := filter (fun file => Js.endsWith file ".js" = true) entries in
  importsThrowErrors env files ->
  unitOf env file = Some cmd ->
  import env' file = inl thrown ->
  (forall other, other <> file -> import env' other = import env other) ->
  exists reg reg',
    resultOf (loadCommands env (commandsPath cfg) s) = Return reg
    /\ resultOf (loadCommands env' (commandsPath cfg) s) = Return reg'
    /\ commands (stateOf (reloadCommands cfg env' f s)) = reg'
    /\ resultOf (reloadCommands cfg env' f s) = Return tt
    /\ match thrown with
       | ThrownError err =>
           (forall k, k ∉ keysOf cmd -> reg' !! k = reg !! k)
           /\ (forall k,
                 (forall other c, other <> file -> unitOf env other = Some c -> k ∉ keysOf c) ->
                 reg' !! k = None)
           /\ In (ELog "danger" ("Failed to load command file: " ++ file ++ ": "
                                 ++ Js.render (errMessage err)))
                (traceOf (reloadCommands cfg env' f s))
       | ThrownNullish v =>
           (forall k,
              reg' !! k = lastClaimant k (omap (unitOf env) (filesBefore file files)))
           /\ traceOf (loadCommands env' (commandsPath cfg) s)
              = ELog "info" ("Found " ++ pretty (length files) ++ " command files")
                :: flat_map (fileLog env) (filesBefore file files)
                ++ [ELog "danger"
                      ("Error loading commands: " ++ Js.render (errMessage (nullishFault v)))]
       end.
Proof.
  intros Hex Hex' Hdir Hdir' Hin Hjs files Hthrown Hcmd Hbad Hsame.
  assert (In file files) as Hfile.
  { apply list_elem_of_In, list_elem_of_filter. split; [exact Hjs|now apply list_elem_of_In]. }
  destruct (loadCommands_registry env (commandsPath cfg) s entries Hex Hdir)
    as (reg & E & Hreg).
  destruct (loadCommands_registry env' (commandsPath cfg) s entries Hex' Hdir')
    as (reg' & E' & Hreg').
  cbv zeta in E, E', Hreg, Hreg'. fold files in E, E', Hreg, Hreg'.
  destruct (reached_all env files Hthrown) as [Hall _]. rewrite Hall in Hreg.
  exists reg, reg'. rewrite E, E'.
  rewrite (reloadCommands_run cfg env' f s _ reg' E').
  split; [reflexivity|]. split; [reflexivity|]. split; [reflexivity|]. split; [reflexivity|].
  destruct thrown as [v|err].
  - (* the loop is abandoned *)
    destruct (reached_broken env' file v files Hfile Hbad) as [Hreached Hfault].
    { intros g w Hg Himp. apply filesBefore_In in Hg. destruct Hg as [Hg Hne].
      rewrite (Hsame g Hne) in Himp. now apply (Hthrown g w). }
    assert (forall g, In g (filesBefore file files) -> import env' g = import env g) as Hsame'.
    { intros g Hg. apply filesBefore_In in Hg. now apply Hsame. }
    split.
    + intros k. rewrite Hreg', Hreached. now rewrite (omap_unitOf_ext env env' _ Hsame').
    + unfold traceOf. cbn [fst snd]. unfold loopLog. rewrite Hreached, Hfault.
      now rewrite (flat_map_fileLog_ext env env' _ Hsame').
  - (* the file is skipped *)
    pose proof (importsThrowErrors_edit env env' file files err Hthrown Hbad Hsame) as Hthrown'.
    destruct (reached_all env' files Hthrown') as [Hall' _]. rewrite Hall' in Hreg', E'.
    assert (unitOf env' file = None) as Hnone by (unfold unitOf; now rewrite Hbad).
    assert (forall other, other <> file -> unitOf env' other = unitOf env other) as Hunits.
    { intros other Hne. unfold unitOf. now rewrite (Hsame other Hne). }
    split; [|split].
    + intros k Hk. rewrite Hreg, Hreg'.
      now apply (lastClaimant_without env env' file cmd).
    + intros k Honly. rewrite Hreg'. apply lastClaimant_none.
      intros f' c _ Hu.
      destruct (decide (f' = file)) as [->|Hne]; [congruence|].
      apply (Honly f' c Hne). now rewrite <- (Hunits f' Hne).
    + unfold traceOf. cbn [fst snd]. rewrite Hall'.
      apply in_or_app. left. right. apply in_or_app. left.
      apply in_flat_map. exists file. split; [exact Hfile|].
      unfold fileLog. rewrite Hbad. left. reflexivity.
Qed.

(** [yt.js] of [Example.commandsDir] is edited and no longer parses: after
    the reload [yt] and [ytdl] are gone, and [boom] is still there.  When
    the edited file rejects without a reason instead, [boom] is gone as
    well. *)
Lemma X19_broken_file_loses_its_commands_witness :
  let edited thrown :=
    {| existsSync := true; mkdirSync := None;
       readdirSync := readdirSync Example.commandsDir;
       import := fun file =>
         if String.eqb file "yt.js" then inl thrown
         else import Example.commandsDir file |} in
  let before := stateOf (initializeCommands configExample Example.commandsDir Example.emptyState) in
  let after thrown := stateOf (reloadCommands configExample (edited thrown) "yt.js" before) in
  let syntaxError := ThrownError {| errMessage := Some "Unexpected token" |} in
  commands before !! "yt" = Some Example.yt
  /\ commands before !! "boom" = Some Example.boom
  /\ commands (after syntaxError) !! "yt" = None
  /\ commands (after syntaxError) !! "ytdl" = None
  /\ commands (after syntaxError) !! "boom" = Some Example.boom
  /\ commands (after (ThrownNullish JsNull)) !! "boom" = None.
Proof.
  intros edited before after syntaxError.
  assert (importsThrowErrors Example.commandsDir
            (filter (fun file => Js.endsWith file ".js" = true)
               ["yt.js"; "README.md"; "broken.js"; "boom.js"; "draft.js"])) as Hthrown.
  { intros file v _. cbn [import Example.commandsDir].
    repeat (match goal with |- context [String.eqb file ?x] => destruct (String.eqb file x) end;
            [discriminate|]).
    discriminate. }
  assert (forall thrown other, other <> "yt.js" ->
            import (edited thrown) other = import Example.commandsDir other) as Hsame.
  { intros thrown other Hne. cbn [import edited].
    destruct (String.eqb_spec other "yt.js"); [contradiction|reflexivity]. }
  destruct (X19_broken_file_loses_its_commands configExample Example.commandsDir
              (edited syntaxError) "yt.js" before
              ["yt.js"; "README.md"; "broken.js"; "boom.js"; "draft.js"]
              "yt.js" Example.yt syntaxError eq_refl eq_refl eq_refl eq_refl
              ltac:(left; reflexivity) eq_refl Hthrown eq_refl eq_refl (Hsame syntaxError))
    as (reg & reg' & E & E' & Hafter & _ & Hkept & Hgone & _).
  destruct (X19_broken_file_loses_its_commands configExample Example.commandsDir
              (edited (ThrownNullish JsNull)) "yt.js" before
              ["yt.js"; "README.md"; "broken.js"; "boom.js"; "draft.js"]
              "yt.js" Example.yt (ThrownNullish JsNull) eq_refl eq_refl eq_refl eq_refl
              ltac:(left; reflexivity) eq_refl Hthrown eq_refl eq_refl
              (Hsame (ThrownNullish JsNull)))
    as (_ & lost & _ & _ & Hlost & _ & Hbefore & _).
  fold (after syntaxError) in Hafter. fold (after (ThrownNullish JsNull)) in Hlost.
  rewrite Hafter, Hlost.
  assert (forall k, k = "yt" \/ k = "ytdl" ->
            forall other c, other <> "yt.js" ->
              unitOf Example.commandsDir other = Some c -> k ∉ keysOf c) as Honly.
  { intros k Hk other c Hne Hu. unfold unitOf in Hu. cbn [import Example.commandsDir] in Hu.
    destruct (String.eqb_spec other "yt.js"); [contradiction|].
    destruct (String.eqb other "boom.js").
    - injection Hu as <-. destruct Hk as [-> | ->]; vm_compute;
        intros H; repeat (apply elem_of_cons in H; destruct H as [H|H]; [discriminate|]);
        now apply not_elem_of_nil in H.
    - destruct (String.eqb other "broken.js"); [discriminate|].
      destruct (String.eqb other "draft.js"); discriminate. }
  split; [reflexivity|]. split; [reflexivity|].
  split; [apply Hgone, Honly; auto|]. split; [apply Hgone, Honly; auto|].
  split.
  - rewrite Hkept.
    + vm_compute in E. injection E as <-. reflexivity.
    + vm_compute. intros H.
      repeat (apply elem_of_cons in H; destruct H as [H|H]; [discriminate|]).
      now apply not_elem_of_nil in H.
  - rewrite Hbefore. reflexivity.
Defined.



(** ** The connection *)

(** X21.  Whatever the update, [handleConnectionUpdate] returns normally
    or ends the process with code 1: it never throws, so the forced
    reconnection of its [catch] is never scheduled.  It leaves the
    registry and the cache of processed identifiers as they were, calls no
    command and sends no message.  It sets one timer at most, the
    reconnection after a close while fewer than ten attempts have been
    made; the delay is then [1000 * 1.5 ^ attempts] for the new count of
    attempts, which is below the cap of 60000 ms: the cap never applies.
    The counter never goes past [MAX_RECONNECT_ATTEMPTS]. *)
Theorem X21_connection_update_shape loggedOut fs sock update s :
  let run := handleConnectionUpdate loggedOut fs sock update s in
  (resultOf run = Return tt \/ resultOf run = ProcessExit 1)
  /\ commands (stateOf run) = commands s
  /\ processedMessagesCache (stateOf run) = processedMessagesCache s
  /\ count isExecute (traceOf run) = 0%nat
  /\ count isSend (traceOf run) = 0%nat
  /\ (timersOf (traceOf run) = []
      \/ ((reconnectAttempts s < MAX_RECONNECT_ATTEMPTS)%nat
          /\ resultOf run = Return tt
          /\ reconnectAttempts (stateOf run) = S (reconnectAttempts s)
          /\ timersOf (traceOf run)
             = [ESetTimeout Reconnect (reconnectDelay (S (reconnectAttempts s)))]
          /\ (reconnectDelay (S (reconnectAttempts s))
              == 1000 * (3 # 2) ^ Z.of_nat (S (reconnectAttempts s)))%Q
          /\ (reconnectDelay (S (reconnectAttempts s)) < 60000)%Q))
  /\ ((reconnectAttempts s <= MAX_RECONNECT_ATTEMPTS)%nat ->
      (reconnectAttempts (stateOf run) <= MAX_RECONNECT_ATTEMPTS)%nat).
Proof. apply handleConnectionUpdate_shape. Qed.

(** X22.  Closes in a row, none of them permanent and with no open
    connection in between: each one schedules the reconnection for the
    next count of attempts until ten attempts have been made, and the
    close that follows ends the process with code 1.  So [left] closes,
    the number of attempts left, are answered by a reconnection; the
    session folder is not touched. *)
Theorem X22_gives_up_after_ten_attempts loggedOut fs sock updates s :
  Forall (isTransientClose loggedOut) updates ->
  (reconnectAttempts s <= MAX_RECONNECT_ATTEMPTS)%nat ->
  let run := handleUpdates loggedOut fs sock updates s in
  let left := (10 - reconnectAttempts s)%nat in
  timersOf (traceOf run)
  = map (fun attempts => ESetTimeout Reconnect (reconnectDelay attempts))
      (seq (S (reconnectAttempts s)) (Nat.min (length updates) left))
  /\ sessionFiles (stateOf run) = sessionFiles s
  /\ ((length updates <= left)%nat ->
      resultOf run = Return tt
      /\ reconnectAttempts (stateOf run) = (reconnectAttempts s + length updates)%nat)
  /\ ((left < length updates)%nat ->
      resultOf run = ProcessExit 1 /\ reconnectAttempts (stateOf run) = 10%nat).
Proof.
  intros Hall Hle. apply (handleUpdates_closes loggedOut fs sock updates s Hall Hle).
Qed.

(** Eleven closes with status 428 on a fresh session: ten reconnections
    are scheduled, after 1.5 s, 2.25 s, ... up to 57.665 s, about 170 s of
    waiting in all, and the eleventh close ends the process. *)
Lemma X22_gives_up_after_ten_attempts_witness :
  let run := handleUpdates 401 Example.healthyFs Example.sock
               (repeat (Example.close 428) 11) Example.state in
  resultOf run = ProcessExit 1
  /\ timersOf (traceOf run)
     = map (fun attempts => ESetTimeout Reconnect (reconnectDelay attempts)) (seq 1 10)
  /\ (fold_right Qplus 0 (map reconnectDelay (seq 1 10)) == 87037500 # 512)%Q.
Proof.
  intros run.
  destruct (X22_gives_up_after_ten_attempts 401 Example.healthyFs Example.sock
              (repeat (Example.close 428) 11) Example.state)
    as (Htimers & _ & _ & Hexit).
  - repeat constructor.
  - unfold MAX_RECONNECT_ATTEMPTS. cbn. lia.
  - split; [apply Hexit; cbn; lia|]. split; [exact Htimers|].
    reflexivity.
Defined.

(** ** The pairing *)

(** X23.  A pairing code without line terminator is shown in groups of
    four characters joined by dashes: the groups put end to end are the
    code, every group but the last has four characters and the last one to
    four, and taking the dashes out of what is shown gives the code
    without its own dashes. *)
Theorem X23_pairing_code_shown code :
  code <> "" -> hasLineTerminator code = false ->
  exists shown,
    formatPairingCode code = inr shown
    /\ shown = String.concat "-" (matchChunks code)
    /\ String.concat "" (matchChunks code) = code
    /\ Forall (fun c => String.length c = 4%nat) (removelast (matchChunks code))
    /\ Forall (fun c => (1 <= String.length c <= 4)%nat) (matchChunks code)
    /\ withoutDashes shown = withoutDashes code.
Proof.
  intros Hne Hlt.
  destruct (matchChunks_go_spec code "" Hlt ltac:(cbn; lia)) as (Hcat & Hfour & Hall).
  change (String.rev "" ++ code)%string with code in Hcat.
  fold (matchChunks code) in Hcat, Hfour, Hall.
  pose proof (matchChunks_nonempty code Hne Hlt) as Hchunks.
  exists (String.concat "-" (matchChunks code)).
  split; [|split; [reflexivity|split; [exact Hcat|split; [exact Hfour|split; [exact Hall|]]]]].
  - unfold formatPairingCode. destruct (matchChunks code); [contradiction|reflexivity].
  - now rewrite withoutDashes_concat, Hcat.
Qed.

(** An eight-character code is shown as two groups of four; a code of
    seven as four and three. *)
Lemma X23_pairing_code_shown_witness :
  formatPairingCode "ABCD1234" = inr "ABCD-1234"
  /\ formatPairingCode "K7Q2M9X" = inr "K7Q2-M9X"
  /\ withoutDashes "K7Q2-M9X" = "K7Q2M9X".
Proof.
  destruct (X23_pairing_code_shown "K7Q2M9X") as (shown & E & -> & _ & _ & _ & Hback);
    [discriminate|reflexivity|].
  split; [reflexivity|]. split; [exact E|exact Hback].
Defined.

(** X24.  The pairing ends in one of two ways, and never throws: it
    returns, after the lines that show the number and the pairing code,
    when the number parses as valid and the socket answers a code that
    can be shown; in every other case the process ends with code 1.  Of
    the line typed only the digits count: they are what is parsed, after a
    ["+"], and what the pairing code is requested for.  When the number is
    not valid the only line logged is the one of type ["error"], and no
    code is requested. *)
Theorem X24_pairing_outcome env s :
  let run := setupPairingCode env s in
  let raw := digitsOnly (typed env) in
  stateOf run = s
  /\ (resultOf run = Return tt \/ resultOf run = ProcessExit 1)
  /\ (forall line, digitsOnly line = raw -> setupPairingCode (typing line env) s = run)
  /\ (resultOf run = Return tt <->
      exists number code shown,
        parsePhoneNumber env ("+" ++ raw) = inr (true, number)
        /\ requestPairingCode env raw = inr (Some code)
        /\ formatPairingCode code = inr shown
        /\ traceOf run = [ELog "info" ("Bot Number: " ++ number);
                          ELog "info" ("Pairing Code: " ++ shown)])
  /\ ((forall number, parsePhoneNumber env ("+" ++ raw) <> inr (true, number)) ->
      traceOf run
      = [ELog "error" "Invalid number. Start with your country's WhatsApp code, e.g., 628xxx"]
      /\ resultOf run = ProcessExit 1).
Proof.
  intros run raw. subst run.
  split; [|split; [|split; [|split]]].
  - rewrite setupPairingCode_run. cbv zeta.
    destruct (parsePhoneNumber env _) as [err|[[|] number]]; try reflexivity.
    destruct (requestPairingCode env _) as [err|code]; [reflexivity|].
    destruct (Js.truthy code); [|reflexivity].
    destruct (formatPairingCode _); reflexivity.
  - rewrite setupPairingCode_run. cbv zeta.
    destruct (parsePhoneNumber env _) as [err|[[|] number]]; auto.
    destruct (requestPairingCode env _) as [err|code]; auto.
    destruct (Js.truthy code); auto.
    destruct (formatPairingCode _); auto.
  - intros line Hline. rewrite !setupPairingCode_run. cbv zeta.
    cbn [typed typing parsePhoneNumber requestPairingCode]. rewrite Hline. reflexivity.
  - rewrite setupPairingCode_run. cbv zeta. fold raw.
    destruct (parsePhoneNumber env _) as [err|[[|] number]].
    1,3: split; [discriminate|intros (? & ? & ? & [=] & _)].
    destruct (requestPairingCode env raw) as [err|code].
    { split; [discriminate|intros (? & ? & ? & _ & [=] & _)]. }
    destruct code as [code|]; cbn [Js.truthy Js.orElse].
    2:{ split; [discriminate|intros (? & ? & ? & _ & [=] & _)]. }
    destruct (String.eqb_spec code "") as [->|Hne]; cbn [negb].
    { split; [discriminate|intros (? & ? & ? & _ & [= <-] & [=] & _)]. }
    destruct (formatPairingCode code) as [err|shown] eqn:Hf.
    { split; [discriminate|intros (? & ? & ? & _ & [= <-] & Hf' & _)]. congruence. }
    split; [|reflexivity]. intros _. exists number, code, shown. auto.
  - intros Hbad. rewrite setupPairingCode_run. cbv zeta. fold raw.
    destruct (parsePhoneNumber env _) as [err|[[|] number]]; auto.
    exfalso. now apply (Hbad number).
Qed.

(** ** The message helper *)

(** X25.  The dispatcher and the message helper read the same body.  For
    a message with a chat, the body [extractMessageInfo] returns is what
    [MessageHelper.getMessageBody] returns, with [""] in place of a
    missing or empty value; and where the helper throws, because the
    object named by the type of the message is missing, the dispatcher
    reads [""]. *)
Theorem X25_helper_agrees_with_extractor sock m k jid s :
  WA.key m = Some k -> remoteJid k = Some jid -> jid <> "" ->
  exists info,
    extractMessageInfo sock (Some m) s = (s, [], Return info)
    /\ body info
       = match MessageHelper.getMessageBody m with
         | inr v => orEmpty v
         | inl _ => JStr ""
         end.
Proof.
  intros Hk Hj Hne. exists (infoOf m jid).
  split; [now apply (extractMessageInfo_named sock m k jid s)|].
  cbn [body infoOf]. apply bodyOf_getMessageBody.
Qed.

(** An image with a caption, and an image message whose object is
    missing: the helper reads the caption of the first and throws on the
    second, where the dispatcher reads [""]. *)
Lemma X25_helper_agrees_with_extractor_witness :
  let k := Example.keyOf "3EB0C767D26A1B2E4F" in
  let image payload :=
    {| WA.key := Some k; WA.message := Some [("imageMessage", payload)];
       WA.pushName := None |} in
  let captioned := image (JObj [("caption", JStr "/yt foo")]) in
  let hollow := image JNull in
  MessageHelper.getMessageBody captioned = inr (JStr "/yt foo")
  /\ (exists err, MessageHelper.getMessageBody hollow = inl err)
  /\ exists info info',
       extractMessageInfo Example.sock (Some captioned) Example.state
       = (Example.state, [], Return info)
       /\ body info = JStr "/yt foo"
       /\ extractMessageInfo Example.sock (Some hollow) Example.state
          = (Example.state, [], Return info')
       /\ body info' = JStr "".
Proof.
  intros k image captioned hollow.
  destruct (X25_helper_agrees_with_extractor Example.sock captioned k Example.chat
              Example.state eq_refl eq_refl) as (info & E & Hb); [discriminate|].
  destruct (X25_helper_agrees_with_extractor Example.sock hollow k Example.chat
              Example.state eq_refl eq_refl) as (info' & E' & Hb'); [discriminate|].
  split; [reflexivity|]. split; [eexists; reflexivity|].
  exists info, info'. split; [exact E|]. split; [exact Hb|]. split; [exact E'|exact Hb'].
Defined.

(** X26.  [isAdmin] compares what comes before the first ["@"] of the
    identifier with the list: a user is an admin exactly when that number
    is in the list, whatever follows the ["@"]; an identifier without
    ["@"] is compared as a whole. *)
Theorem X26_isAdmin_by_number number server adminList :
  hasAt number = false ->
  (MessageHelper.isAdmin (number ++ "@" ++ server) adminList = true <-> In number adminList)
  /\ (MessageHelper.isAdmin number adminList = true <-> In number adminList).
Proof.
  intros H. unfold MessageHelper.isAdmin.
  change (number ++ "@" ++ server)%string with (number ++ String "@" server)%string.
  rewrite beforeAt_app, beforeAt_none by assumption.
  split; apply existsb_eqb_In.
Qed.

(** The owner is an admin in a private chat and as a member of a group;
    another number is not. *)
Lemma X26_isAdmin_by_number_witness :
  MessageHelper.isAdmin "628123456789@s.whatsapp.net" ["628123456789"] = true
  /\ MessageHelper.isAdmin "628123456789@g.us" ["628123456789"] = true
  /\ MessageHelper.isAdmin "628999@s.whatsapp.net" ["628123456789"] = false.
Proof.
  destruct (X26_isAdmin_by_number "628123456789" "s.whatsapp.net" ["628123456789"] eq_refl)
    as [[_ H1] _].
  destruct (X26_isAdmin_by_number "628123456789" "g.us" ["628123456789"] eq_refl)
    as [[_ H2] _].
  split; [apply H1; left; reflexivity|]. split; [apply H2; left; reflexivity|reflexivity].
Defined.
